(** * dpti / hti.py : Hamiltonian thermodynamic integration

    A shallow embedding of the post-processing and refinement code of
    [hti.py] and statements about it.

    Conventions of the embedding.
    - A Python float (and a numpy float64) is a real number [R]; rounding
      is not modelled.  A numpy 1-D array is a [list R], a 2-D table a
      list of rows.
    - A Python exception is a constructor of [exn]; a computation that may
      raise has type [result A].
    - A Python dict with string keys (the json configuration [jdata]) is a
      [gmap string json].
    - Functions imported from [lib.utils], [pymbar] and [scipy.constants]
      are not part of the sources; they are Section variables. *)

From Stdlib Require Import Reals Lra Lia ZArith Ascii.
From stdpp Require Import base option list strings gmap sorting.

Local Open Scope string_scope.

(** ** Exceptions and results *)

Inductive exn : Type :=
| RuntimeError (msg : string)
| IndexError
| KeyError (key : string)
| TypeError
| NameError (name : string)
| ValueError
| AssertionError
| FileNotFoundError (file : string)
| FileExistsError (file : string)
| SameFileError (file : string).

Inductive result (A : Type) : Type :=
| Ok (a : A)
| Raise (e : exn).
Arguments Ok {A} a.
Arguments Raise {A} e.

#[global] Instance result_ret : MRet result := fun A a => Ok a.
#[global] Instance result_bind : MBind result := fun A B f m =>
  match m with
  | Ok a => f a
  | Raise e => Raise e
  end.
#[global] Instance result_fmap : FMap result := fun A B f m =>
  match m with
  | Ok a => Ok (f a)
  | Raise e => Raise e
  end.

Definition is_Ok {A} (r : result A) : Prop := exists a, r = Ok a.
Definition raises {A} (r : result A) : Prop := exists e, r = Raise e.

Definition of_option {A} (e : exn) (o : option A) : result A :=
  match o with
  | Some a => Ok a
  | None => Raise e
  end.

(** ** Python sequences *)

(** [l[i]] with Python's negative indices. *)
Definition py_index {A} (l : list A) (i : Z) : result A :=
  let n := Z.of_nat (length l) in
  if decide (0 <= i < n)%Z then of_option IndexError (l !! Z.to_nat i)
  else if decide (- n <= i < 0)%Z then of_option IndexError (l !! Z.to_nat (n + i))
  else Raise IndexError.

(** [l[k:]]: without the first [k] elements, or, for a negative [k], the
    last [-k] elements (all of [l] when it is shorter). *)
Definition py_slice_from {A} (k : Z) (l : list A) : list A :=
  if decide (0 <= k)%Z then drop (Z.to_nat k) l
  else drop (length l - Z.to_nat (- k)) l.

(** [range(a, b)] over integers. *)
Definition py_range (a b : Z) : list Z := seqZ a (b - a).

(** ** numpy element-wise operations on 1-D arrays *)

Module np.
Local Open Scope R_scope.
Definition div (a b : list R) : list R := zip_with Rdiv a b.
Definition add (a b : list R) : list R := zip_with Rplus a b.
Definition neg (a : list R) : list R := map Ropp a.
(** [c - a] for a scalar [c] *)
Definition rsub (c : R) (a : list R) : list R := map (fun x => c - x) a.
Definition square (a : list R) : list R := map (fun x => x * x) a.
Definition sqrt (a : list R) : list R := map R_sqrt.sqrt a.
(** [np.linalg.norm] of a 1-D array: the 2-norm *)
Definition norm (a : list R) : R :=
  R_sqrt.sqrt (foldr Rplus 0 (square a)).
(** [data[:, k]]; a table without rows is a 1-D array, which has no
    second axis. *)
Definition column (k : nat) (data : list (list R)) : result (list R) :=
  match data with
  | [] => Raise IndexError
  | _ => mapM (M := result) (fun row => of_option IndexError (row !! k)) data
  end.
(** number of elements of a 2-D array *)
Definition size2 (a : list (list R)) : nat := sum_list (map length a).
End np.

#[global] Instance R_eq_dec : EqDecision R := Req_dec_T.

(** ** The json configuration [jdata] *)

#[warnings="-register-all"]
Inductive json : Type :=
| JNull
| JBool (b : bool)
| JInt (z : Z)
| JFloat (r : R)
| JStr (s : string)
| JList (l : list json)
| JDict (d : list (string * json)).

(** [jdata[key]] *)
Definition getitem (jdata : gmap string json) (key : string) : result json :=
  of_option (KeyError key) (jdata !! key).

Definition as_int (j : json) : result Z :=
  match j with
  | JInt z => Ok z
  | JBool b => Ok (if b then 1 else 0)%Z
  | _ => Raise TypeError
  end.

(** The start [k] of a slice [[k:]]: an integer, or [None] for the
    whole sequence. *)
Definition slice_start (j : json) : result Z :=
  match j with
  | JNull => Ok 0%Z
  | _ => as_int j
  end.

Definition as_str (j : json) : result string :=
  match j with
  | JStr s => Ok s
  | _ => Raise TypeError
  end.

Definition as_float (j : json) : result R :=
  match j with
  | JFloat r => Ok r
  | JInt z => Ok (IZR z)
  | JBool b => Ok (if b then 1%R else 0%R)
  | _ => Raise TypeError
  end.

(** [np.prod(jdata['copies'])] for a list of integers *)
Definition prod_copies (j : json) : result Z :=
  match j with
  | JList l => foldr (fun x acc => a ← acc; z ← as_int x; Ok (z * a)%Z) (Ok 1%Z) l
  | JInt z => Ok z
  | _ => Raise TypeError
  end.

(** ** What post-processing reads from a stage directory *)

(** One [task.NNNNNN] directory: the number in [lambda.out] and the table
    [get_thermo] parses from [log.lammps]. *)
Record task_log : Type := TaskLog {
  lambda_out : R;
  log_data : list (list R)
}.

(** A stage directory: its tasks in sorted order, the optional
    [task.endpnt] log, whether the file named by [equi_conf] is present
    and the atom count [get_natoms] reads from it. *)
Record stage_dir : Type := StageDir {
  all_tasks : list task_log;
  task_endpnt : option (list (list R));
  equi_conf_isfile : bool;
  conf_natoms : Z
}.

(** The dictionary returned by [_compute_thermo]; field [ti_x] is the
    entry ['x']. *)
Record thermo_info : Type := ThermoInfo {
  ti_p : R; ti_p_err : R;
  ti_v : R; ti_v_err : R;
  ti_e : R; ti_e_err : R;
  ti_h : R; ti_h_err : R;
  ti_t : R; ti_t_err : R;
  ti_pv : R; ti_pv_err : R
}.

(** The value returned by [_post_tasks], [_post_tasks_mbar] and
    [post_tasks]: [(diff_e, [err, sys_err], thermo_info)]. *)
Record fe_result : Type := FeResult {
  diff_e : R;
  stt_err : R;
  sys_err : R;
  tinfo : thermo_info
}.

(** ** Post-processing: [_compute_thermo], [_post_tasks], [post_tasks] *)

Section PostTasks.
Local Open Scope R_scope.

(** [lib.utils.block_avg(series, skip, block_size)]: mean and standard
    error of the block means. *)
Variable block_avg : list R -> json -> json -> result (R * R).

(** [lib.utils.integrate_range(xx, yy, ye, scheme)]: the grid points it
    reached and, for each, the cumulative integral, its systematic error
    and its statistical error. *)
Variable integrate_range :
  list R -> list R -> list R -> string ->
  result (list R * list R * list R * list R).

(** [scipy.constants.electron_volt] and [scipy.constants.Boltzmann] *)
Variable electron_volt : R.
Variable Boltzmann : R.

(** [block_avg(data[:, k], skip = stat_skip, block_size = stat_bsize)] *)
Definition block_avg_column (data : list (list R)) (k : nat)
    (stat_skip stat_bsize : json) : result (R * R) :=
  c ← np.column k data; block_avg c stat_skip stat_bsize.

Definition _compute_thermo (data : list (list R)) (natoms : Z)
    (stat_skip stat_bsize : json) : result thermo_info :=
  '(ea, ee) ← block_avg_column data 3 stat_skip stat_bsize;
  '(ha, he) ← block_avg_column data 4 stat_skip stat_bsize;
  '(ta, te) ← block_avg_column data 5 stat_skip stat_bsize;
  '(pa, pe) ← block_avg_column data 6 stat_skip stat_bsize;
  '(va, ve) ← block_avg_column data 7 stat_skip stat_bsize;
  let unit_cvt := 1e5 * (1e-10 ^ 3) / electron_volt in
  Ok {| ti_p := pa;
        ti_p_err := pe;
        ti_v := va / IZR natoms;
        ti_v_err := ve / sqrt (IZR natoms);
        ti_e := ea / IZR natoms;
        ti_e_err := ee / sqrt (IZR natoms);
        ti_h := ha / IZR natoms;
        ti_h_err := he / sqrt (IZR natoms);
        ti_t := ta;
        ti_t_err := te;
        ti_pv := pa * va * unit_cvt / IZR natoms;
        ti_pv_err := pe * va * unit_cvt / sqrt (IZR natoms) |}.

(** The five parallel arrays filled by the loop over the tasks. *)
Record task_arrays : Type := TaskArrays {
  all_lambda : list R;
  all_es : list R;
  all_es_err : list R;
  all_ed : list R;
  all_ed_err : list R
}.

(** One pass of the loop body of [_post_tasks] (lines 691-707): the
    normalised spring and deep averages of one task. *)
Definition reduce_task (natoms : Z) (stat_skip stat_bsize : json)
    (task : task_log) : result (R * R * R * R * R) :=
  '(sa, se) ← block_avg_column (log_data task) 8 stat_skip stat_bsize;
  '(da, de) ← block_avg_column (log_data task) 9 stat_skip stat_bsize;
  let sa := sa / IZR natoms in
  let se := se / sqrt (IZR natoms) in
  let da := da / IZR natoms in
  let de := de / sqrt (IZR natoms) in
  let ll := lambda_out task in
  Ok (ll, sa, da, se, de).

Fixpoint collect_tasks (natoms : Z) (stat_skip stat_bsize : json)
    (tasks : list task_log) : result task_arrays :=
  match tasks with
  | [] => Ok (TaskArrays [] [] [] [] [])
  | ii :: rest =>
      '(ll, sa, da, se, de) ← reduce_task natoms stat_skip stat_bsize ii;
      a ← collect_tasks natoms stat_skip stat_bsize rest;
      Ok (TaskArrays (ll :: all_lambda a) (sa :: all_es a) (se :: all_es_err a)
                     (da :: all_ed a) (de :: all_ed_err a))
  end.

(** Lines 714-737: the integrand [de] and its error [all_err], by
    protocol and stage. *)
Definition integrand (switch step : string) (a : task_arrays)
    : result (list R * list R) :=
  if decide (switch = "one-step" \/ switch = "two-step") then
    if decide (step = "both") then
      Ok (zip_with Rminus (np.div (all_ed a) (all_lambda a))
                          (np.div (all_es a) (np.rsub 1 (all_lambda a))),
          np.sqrt (np.add (np.square (np.div (all_ed_err a) (all_lambda a)))
                          (np.square (np.div (all_es_err a) (np.rsub 1 (all_lambda a))))))
    else if decide (step = "deep_on") then
      Ok (np.div (all_ed a) (all_lambda a),
          np.div (all_ed_err a) (all_lambda a))
    else if decide (step = "spring_off") then
      Ok (np.div (np.neg (all_es a)) (np.rsub 1 (all_lambda a)),
          np.div (all_es_err a) (np.rsub 1 (all_lambda a)))
    else Raise (RuntimeError "unknow step")
  else if decide (switch = "three-step") then
    if decide (step = "lj_on" \/ step = "deep_on") then
      Ok (all_ed a, all_ed_err a)
    else if decide (step = "spring_off") then
      Ok (np.add (np.div (np.neg (all_es a)) (np.rsub 1 (all_lambda a))) (all_ed a),
          np.sqrt (np.add (np.square (np.div (all_es_err a) (np.rsub 1 (all_lambda a))))
                          (np.square (all_ed_err a))))
    else Raise (RuntimeError "unknow step")
  else Raise (RuntimeError "unknow switch").

(** The table written to [hti.out], one row per task. *)
Definition hti_out (a : task_arrays) (de all_err : list R) : list (list R) :=
  let ud := np.div (all_ed a) (all_lambda a) in
  let us := np.div (all_es a) (np.rsub 1 (all_lambda a)) in
  let ud_err := np.div (all_ed_err a) (all_lambda a) in
  let us_err := np.div (all_es_err a) (np.rsub 1 (all_lambda a)) in
  zip_with (fun l r => l :: r) (all_lambda a)
    (zip_with (fun x r => x :: r) de
      (zip_with (fun x r => x :: r) all_err
        (zip_with (fun x r => x :: r) ud
          (zip_with (fun x r => x :: r) us
            (zip_with (fun x y => [x; y]) ud_err us_err))))).

(** Lines 754-766: the integral over the whole schedule and its two
    errors, with the fix-up of a result that stops one point early. *)
Definition integrate_schedule (all_lambda de all_err : list R) (scheme : string)
    : result (R * R * R) :=
  '(new_lambda, i, i_e, s_e) ← integrate_range all_lambda de all_err scheme;
  nl ← py_index new_lambda (-1);
  al ← py_index all_lambda (-1);
  if decide (nl <> al) then
    al2 ← py_index all_lambda (-2);
    if decide (nl = al2) then
      '(_, i1, i_e1, s_e1) ←
        integrate_range (py_slice_from (-2) all_lambda) (py_slice_from (-2) de)
                        (py_slice_from (-2) all_err) "t";
      a ← py_index i (-1); a1 ← py_index i1 (-1);
      let diff_e := a + a1 in
      c ← py_index s_e (-1); c1 ← py_index s_e1 (-1);
      let err := np.norm [c; c1] in
      b ← py_index i_e (-1); b1 ← py_index i_e1 (-1);
      let sys_err := b + b1 in
      Ok (diff_e, err, sys_err)
    else Raise (RuntimeError "lambda does not match!")
  else
    diff_e ← py_index i (-1);
    err ← py_index s_e (-1);
    sys_err ← py_index i_e (-1);
    Ok (diff_e, err, sys_err).

(** [natoms] when the caller passes [None]: read from the configuration
    and multiplied by the number of copies. *)
Definition resolve_natoms (jdata : gmap string json) (stage : stage_dir)
    (natoms : option Z) : result Z :=
  match natoms with
  | Some n => Ok n
  | None =>
      match jdata !! "copies" with
      | Some c => k ← prod_copies c; Ok (conf_natoms stage * k)%Z
      | None => Ok (conf_natoms stage)
      end
  end.

Definition _post_tasks (stage : stage_dir) (jdata : gmap string json)
    (natoms : option Z) (scheme switch step : string) : result fe_result :=
  stat_skip ← getitem jdata "stat_skip";
  stat_bsize ← getitem jdata "stat_bsize";
  _ ← getitem jdata "equi_conf";
  if negb (equi_conf_isfile stage) then Raise AssertionError else
  natoms ← resolve_natoms jdata stage natoms;
  a ← collect_tasks natoms stat_skip stat_bsize (all_tasks stage);
  '(de, all_err) ← integrand switch step a;
  '(diff_e, err, sys_err) ← integrate_schedule (all_lambda a) de all_err scheme;
  thermo ←
    match task_endpnt stage with
    | Some log => _compute_thermo log natoms stat_skip stat_bsize
    | None =>
        last_task ← py_index (all_tasks stage) (-1);
        _compute_thermo (log_data last_task) natoms stat_skip stat_bsize
    end;
  Ok (FeResult diff_e err sys_err thermo).

(** *** The reweighting estimator [_post_tasks_mbar] *)

(** [pymbar.MBAR(u_kn, N_k).getFreeEnergyDifferences()]: the matrices
    [Deltaf_ij] and [dDeltaf_ij]. *)
Variable mbar_free_energy_differences :
  list (list R) -> list Z -> result (list (list R) * list (list R)).

(** What a module-level name of [hti.py] is bound to. *)
Inductive pyobj : Type :=
| PyModule
| PyFunction
| PyStr (s : string).

(** The names bound at module level: the imports and the [def]s. *)
Definition hti_globals : gmap string pyobj :=
  list_to_map
    ((fun n => (n, PyModule)) <$>
       ["os"; "sys"; "json"; "argparse"; "glob"; "shutil"; "np"; "pc";
        "pymbar"; "einstein"])
  ∪ list_to_map
    ((fun n => (n, PyFunction)) <$>
       ["create_path"; "copy_file_list"; "block_avg"; "integrate_range";
        "compute_nrefine"; "parse_seq"; "get_task_file_abspath";
        "get_thermo"; "get_natoms"; "make_iter_name"; "_ff_lj_on";
        "_ff_deep_on"; "_ff_lj_off"; "_ff_spring"; "_ff_soft_lj";
        "_ff_two_steps"; "_gen_lammps_input"; "_gen_lammps_input_ideal";
        "make_tasks"; "_make_tasks"; "refine_task"; "_compute_thermo";
        "post_tasks"; "_post_tasks"; "_post_tasks_mbar";
        "print_thermo_info"; "_main"]).

(** Reading a name that is not a local of the function. *)
Definition load_global (name : string) : result pyobj :=
  of_option (NameError name) (hti_globals !! name).

(** [obj == 'literal'] *)
Definition eq_str (obj : pyobj) (lit : string) : bool :=
  match obj with
  | PyStr s => bool_decide (s = lit)
  | _ => false
  end.

(** The rows of [block_u] for the samples of task [idx]: one row per
    target lambda [ll]. *)
Definition block_u_of (all_lambda : list R) (idx : nat) (this_ed this_es : list R)
    : result (list (list R)) :=
  switch_style ← load_global "switch_style";
  if eq_str switch_style "both" then
    lam ← py_index all_lambda (Z.of_nat idx);
    let ed := map (fun x => x / lam) this_ed in
    let es := map (fun x => x / (1 - lam)) this_es in
    Ok (map (fun ll => zip_with (fun d s => d * ll + s * (1 - ll)) ed es) all_lambda)
  else if eq_str switch_style "deep_on" then
    lam ← py_index all_lambda (Z.of_nat idx);
    let ed := map (fun x => x / lam) this_ed in
    Ok (map (fun ll => map (fun d => d * ll) ed) all_lambda)
  else if eq_str switch_style "spring_off" then
    lam ← py_index all_lambda (Z.of_nat idx);
    let es := map (fun x => x / (1 - lam)) this_es in
    Ok (map (fun ll => map (fun s => s * (1 - ll)) es) all_lambda)
  else Raise (RuntimeError "unknown switch_style").

(** The loop over the tasks (lines 816-847), from task number [idx] on,
    threading [ukn] and [nk]. *)
Fixpoint mbar_loop (all_lambda : list R) (kt_in_ev : R) (stat_skip : json)
    (idx : nat) (tasks : list task_log) (ukn : list (list R)) (nk : list Z)
    : result (list (list R) * list Z) :=
  match tasks with
  | [] => Ok (ukn, nk)
  | ii :: rest =>
      c9 ← np.column 9 (log_data ii);
      let this_ed := map (fun x => x / kt_in_ev) c9 in
      c8 ← np.column 8 (log_data ii);
      let this_es := map (fun x => x / kt_in_ev) c8 in
      skip ← slice_start stat_skip;
      let this_ed := py_slice_from skip this_ed in
      let this_es := py_slice_from skip this_es in
      let nk := (nk ++ [Z.of_nat (length this_ed)])%list in
      block_u ← block_u_of all_lambda idx this_ed this_es;
      let ukn :=
        if decide (np.size2 ukn = 0%nat) then block_u
        else zip_with app ukn block_u in
      mbar_loop all_lambda kt_in_ev stat_skip (S idx) rest ukn nk
  end.

(** Lines 850-856: the solver call and the normalisation of its
    first-to-last entry. *)
Definition mbar_estimate (ukn : list (list R)) (nk : list Z) (natoms : Z)
    (kt_in_ev : R) : result (R * R) :=
  '(Deltaf_ij, dDeltaf_ij) ← mbar_free_energy_differences ukn nk;
  let Deltaf_ij := map (map (fun x => x / IZR natoms)) Deltaf_ij in
  let dDeltaf_ij := map (map (fun x => x / sqrt (IZR natoms))) dDeltaf_ij in
  row ← py_index Deltaf_ij 0; f ← py_index row (-1);
  let diff_e := f * kt_in_ev in
  drow ← py_index dDeltaf_ij 0; df ← py_index drow (-1);
  let err := df * kt_in_ev in
  Ok (diff_e, err).

Definition _post_tasks_mbar (stage : stage_dir) (jdata : gmap string json)
    (natoms : option Z) (switch step : string) : result fe_result :=
  stat_skip ← getitem jdata "stat_skip";
  stat_bsize ← getitem jdata "stat_bsize";
  _ ← getitem jdata "equi_conf";
  if negb (equi_conf_isfile stage) then Raise AssertionError else
  temp ← getitem jdata "temp";
  natoms ← resolve_natoms jdata stage natoms;
  let all_lambda := map lambda_out (all_tasks stage) in
  temp ← as_float temp;
  let kt_in_ev := Boltzmann * temp / electron_volt in
  '(ukn, nk) ← mbar_loop all_lambda kt_in_ev stat_skip 0 (all_tasks stage) [] [];
  '(diff_e, err) ← mbar_estimate ukn nk natoms kt_in_ev;
  last_task ← py_index (all_tasks stage) (-1);
  thermo ← _compute_thermo (log_data last_task) natoms stat_skip stat_bsize;
  Ok (FeResult diff_e err 0 thermo).

(** *** Composition of the stages: [post_tasks] *)

(** A job directory: what is directly in it and its stage
    sub-directories, by name. *)
Record job_dir : Type := JobDir {
  job_stage : stage_dir;
  job_subdirs : gmap string stage_dir
}.

(** A sub-directory that does not exist has no task and no file. *)
Definition subdir (job : job_dir) (name : string) : stage_dir :=
  default (StageDir [] None false 0) (job_subdirs job !! name).

Definition isdir (job : job_dir) (name : string) : bool :=
  bool_decide (is_Some (job_subdirs job !! name)).

(** The protocol [post_tasks] finds on disk. *)
Definition detect_switch (job : job_dir) : string :=
  let switch := "one-step" in
  let switch := if isdir job "00.deep_on" then "two-step" else switch in
  let switch := if isdir job "00.lj_on" then "three-step" else switch in
  switch.

(** One stage of a multi-stage job, by [method]. *)
Definition stage_fe (job : job_dir) (jdata : gmap string json) (natoms : option Z)
    (method scheme switch : string) (subtask_name step : string) : result fe_result :=
  if decide (method = "inte") then
    _post_tasks (subdir job subtask_name) jdata natoms scheme switch step
  else if decide (method = "mbar") then
    _post_tasks_mbar (subdir job subtask_name) jdata natoms switch step
  else Raise (RuntimeError "unknow method for integration").

Definition post_tasks (job : job_dir) (jdata : gmap string json)
    (natoms : option Z) (method scheme : string) : result fe_result :=
  let switch := detect_switch job in
  if decide (switch = "two-step") then
    r0 ← stage_fe job jdata natoms method scheme switch "00.deep_on" "deep_on";
    r1 ← stage_fe job jdata natoms method scheme switch "01.spring_off" "spring_off";
    let de := diff_e r0 + diff_e r1 in
    let stt := sqrt (stt_err r0 * stt_err r0 + stt_err r1 * stt_err r1) in
    let sys := sys_err r0 + sys_err r1 in
    Ok (FeResult de stt sys (tinfo r1))
  else if decide (switch = "three-step") then
    r0 ← stage_fe job jdata natoms method scheme switch "00.lj_on" "lj_on";
    r1 ← stage_fe job jdata natoms method scheme switch "01.deep_on" "deep_on";
    r2 ← stage_fe job jdata natoms method scheme switch "02.spring_off" "spring_off";
    let de := diff_e r0 + diff_e r1 + diff_e r2 in
    let stt := sqrt (stt_err r0 * stt_err r0 + stt_err r1 * stt_err r1
                     + stt_err r2 * stt_err r2) in
    let sys := sys_err r0 + sys_err r1 + sys_err r2 in
    Ok (FeResult de stt sys (tinfo r2))
  else
    if decide (method = "inte") then
      _post_tasks (job_stage job) jdata natoms scheme "one-step" "both"
    else if decide (method = "mbar") then
      _post_tasks_mbar (job_stage job) jdata natoms "one-step" "both"
    else (* no branch binds [de]: UnboundLocalError, a NameError *)
      Raise (NameError "de").

End PostTasks.

(** ** The file system

    A path is an absolute path string; the file system maps the path of
    every file to its content.  Directories are not entries of their own.
    A symbolic link is an entry of its own (what it points to is not
    followed), and the working directory is kept where the code changes
    it: every function below receives the paths it works on in full. *)

Inductive file : Type :=
| FTable (rows : list (list R))        (* numeric text, [np.savetxt] *)
| FJson (jdata : gmap string json)     (* [json.dump] *)
| FText (s : string)
| FFloat (r : R)                       (* [str] of a float *)
| FLink (target : string)              (* [os.symlink] *)
| FBlob (id : string).                 (* content that is only copied *)

Definition isabs (p : string) : bool :=
  match p with
  | String c _ => bool_decide (c = "/"%char)
  | _ => false
  end.

(** [os.path.join(a, b)] for a directory [a] that is neither empty nor
    ends with a separator. *)
Definition join (a b : string) : string :=
  if isabs b then b else a +:+ "/" +:+ b.

(** [under d p]: [p] lies below the directory [d]. *)
Definition under (d p : string) : Prop :=
  exists rest, p = d +:+ "/" +:+ rest.

(** Computations on the file system that may raise: the file system is
    returned also when they do. *)
Definition io (A : Type) : Type :=
  gmap string file -> result A * gmap string file.

#[global] Instance io_ret : MRet io := fun A a fs => (Ok a, fs).
#[global] Instance io_bind : MBind io := fun A B f m fs =>
  match m fs with
  | (Ok a, fs') => f a fs'
  | (Raise e, fs') => (Raise e, fs')
  end.

Definition lift {A} (r : result A) : io A := fun fs => (r, fs).

Definition isfile (p : string) : io bool :=
  fun fs => (Ok (bool_decide (is_Some (fs !! p))), fs).

Definition read_file (p : string) : io file :=
  fun fs => (of_option (FileNotFoundError p) (fs !! p), fs).

Definition write_file (p : string) (f : file) : io unit :=
  fun fs => (Ok tt, <[p := f]> fs).

(** [shutil.copyfile(src, dst)] *)
Definition copyfile (src dst : string) : io unit :=
  if decide (src = dst) then lift (Raise (SameFileError src))
  else f ← read_file src; write_file dst f.

(** [os.symlink(target, p)] *)
Definition symlink (target p : string) : io unit :=
  fun fs =>
    match fs !! p with
    | Some _ => (Raise (FileExistsError p), fs)
    | None => (Ok tt, <[p := FLink target]> fs)
    end.

(** [np.loadtxt(p)] followed by the two column reads [[:,0]] and
    [[:,1]]: a file of fewer than two rows loads as an array without a
    second axis. *)
Definition loadtxt_columns01 (p : string) : io (list R * list R) :=
  f ← read_file p;
  match f with
  | FTable rows =>
      if decide (length rows < 2)%nat then lift (Raise IndexError)
      else
        c0 ← lift (np.column 0 rows);
        c1 ← lift (np.column 1 rows);
        mret (c0, c1)
  | _ => lift (Raise ValueError)
  end.

(** [json.load(open(p))] *)
Definition json_load (p : string) : io (gmap string json) :=
  f ← read_file p;
  match f with
  | FJson j => mret j
  | _ => (* JSONDecodeError, a ValueError *) lift (Raise ValueError)
  end.

(** [writes_in P m]: whatever its outcome, [m] leaves every path outside
    [P] as it was. *)
Definition writes_in {A} (P : string -> Prop) (m : io A) : Prop :=
  forall fs p, ~ P p -> (m fs).2 !! p = fs !! p.

(** [reads_only m]: [m] leaves the file system as it was. *)
Definition reads_only {A} (m : io A) : Prop :=
  forall fs, (m fs).2 = fs.

(** [in_task_dir d p]: [p] is an entry [task.*] of the directory [d] or
    lies below one. *)
Definition in_task_dir (iter_name p : string) : Prop :=
  exists rest, p = iter_name +:+ "/" +:+ "task." +:+ rest.

(** The paths a one-step generation into [iter_name] writes once the
    directory is made: the three files of the stage and what lies in its
    [task.*] directories. *)
Definition one_step_footprint (iter_name p : string) : Prop :=
  p = join iter_name "conf.lmp" \/ p = join iter_name "graph.pb"
  \/ p = join iter_name "in.json"
  \/ in_task_dir iter_name p.

(** The directories of a list are pairwise disjoint: no path lies below
    two of them. *)
Definition disjoint_dirs (dirs : list string) : Prop :=
  forall (i j : nat) d1 d2 p,
    dirs !! i = Some d1 -> dirs !! j = Some d2 -> i <> j ->
    under d1 p -> ~ under d2 p.

(** The stage directories of the two-step and three-step protocols. *)
Definition stage_subdirs : list string :=
  ["00.deep_on"; "01.spring_off"; "00.lj_on"; "01.deep_on"; "02.spring_off"].

(** ** Task generation: [_make_tasks], [make_tasks] *)

(** [bool(x)] of a json value *)
Definition truthy (j : json) : bool :=
  match j with
  | JNull => false
  | JBool b => b
  | JInt z => negb (Z.eqb z 0)
  | JFloat r => negb (bool_decide (r = 0%R))
  | JStr s => negb (bool_decide (s = ""))
  | JList l => negb (bool_decide (l = []))
  | JDict d => negb (bool_decide (d = []))
  end.

(** ['%06d' % idx] *)
Definition digit (n : nat) : string :=
  String (ascii_of_nat (48 + n mod 10)) "".

Fixpoint decimal (fuel n : nat) : string :=
  match fuel with
  | O => ""
  | S fuel =>
      if decide (n < 10)%nat then digit n
      else decimal fuel (n / 10) +:+ digit n
  end.

Fixpoint zeros (k : nat) : string :=
  match k with
  | O => ""
  | S k => "0" +:+ zeros k
  end.

Definition fmt_06d (idx : nat) : string :=
  let d := decimal (S idx) idx in
  zeros (6 - String.length d) +:+ d.

Definition task_name (idx : nat) : string := "task." +:+ fmt_06d idx.

Section Generation.
Local Open Scope R_scope.

(** [lib.utils.create_path(path)]: makes the directory [path]. *)
Variable create_path : string -> io unit.

(** [lib.utils.parse_seq(spec)]: the numbers a sequence specification
    stands for. *)
Variable parse_seq : json -> result (list R).

(** The text of [in.lammps], as [_gen_lammps_input] and
    [_gen_lammps_input_ideal] write it from the configuration, the lambda
    of the task, the ensemble, the protocol and the stage; the last
    argument is the task number, on which the random seeds may depend.
    The text itself is not modelled. *)
Variable _gen_lammps_input :
  gmap string json -> R -> string -> string -> string -> nat -> result string.
Variable _gen_lammps_input_ideal :
  gmap string json -> R -> string -> nat -> result string.

(** Lines 401-411: the configuration key the schedule is read from.  For
    a [switch] that is none of the three, [all_lambda] stays unbound. *)
Definition schedule_key (switch step : string) : result string :=
  if decide (switch = "one-step") then Ok "lambda"
  else if decide (switch = "two-step" \/ switch = "three-step") then
    if decide (step = "deep_on") then Ok "lambda_deep_on"
    else if decide (step = "spring_off") then Ok "lambda_spring_off"
    else if decide (step = "lj_on") then Ok "lambda_lj_on"
    else Raise (RuntimeError "unknown step")
  else Raise (NameError "all_lambda").

(** Lines 413-416: the end points are moved off 0 and 1. *)
Definition protect_ends (all_lambda : list R) (protect_eps : json)
    : result (list R) :=
  first ← py_index all_lambda 0;
  all_lambda ←
    (if decide (first = 0) then
       eps ← as_float protect_eps;
       Ok (<[0%nat := first + eps]> all_lambda)
     else Ok all_lambda);
  last ← py_index all_lambda (-1);
  if decide (last = 1) then
    eps ← as_float protect_eps;
    Ok (<[(length all_lambda - 1)%nat := last - eps]> all_lambda)
  else Ok all_lambda.

(** [shutil.copyfile] when [link] is false, [os.symlink] otherwise *)
Definition place (link : bool) (src dst : string) : io unit :=
  if link then symlink src dst else copyfile src dst.

(** Lines 468-515: one directory per lambda, from task number [idx]
    on. *)
Fixpoint make_task_dirs (iter_name : string) (jdata : gmap string json)
    (ref : json) (switch step : string) (langevin : bool)
    (idx : nat) (all_lambda : list R) : io unit :=
  match all_lambda with
  | [] => mret tt
  | ii :: rest =>
      let work_path := join iter_name (task_name idx) in
      _ ← create_path work_path;
      _ ← symlink (join iter_name "conf.lmp") (join work_path "conf.lmp");
      _ ← symlink (join iter_name "graph.pb") (join work_path "graph.pb");
      let ens := if decide (idx = 0%nat) then "nvt-langevin" else "nvt" in
      let ens := if langevin then "nvt-langevin" else ens in
      lmp_str ← lift
        match ref with
        | JStr r =>
            if decide (r = "einstein") then
              _gen_lammps_input jdata ii ens switch step idx
            else if decide (r = "ideal") then
              _gen_lammps_input_ideal jdata ii ens idx
            else Raise (RuntimeError "unknow reference system type")
        | _ => (* the message cannot be concatenated *) Raise TypeError
        end;
      _ ← write_file (join work_path "in.lammps") (FText lmp_str);
      _ ← write_file (join work_path "lambda.out") (FFloat ii);
      make_task_dirs iter_name jdata ref switch step langevin (S idx) rest
  end.

(** Lines 395-439 and the two later assignments to [jdata]: what
    [_make_tasks] reads from the configuration (the schedule and the two
    source files) and the configuration as it is dumped to [in.json]. *)
Definition task_config (cwd : string) (jdata : gmap string json) (ref : json)
    (switch step : string)
    : result (gmap string json * list R * string * string) :=
  let jdata :=
    if decide (is_Some (jdata !! "crystal")) then jdata
    else <["crystal" := JStr "vega"]> jdata in
  protect_eps ← getitem jdata "protect_eps";
  key ← schedule_key switch step;
  spec ← getitem jdata key;
  all_lambda ← parse_seq spec;
  all_lambda ← protect_ends all_lambda protect_eps;
  equi_conf ← getitem jdata "equi_conf";
  equi_conf ← as_str equi_conf;
  let equi_conf := join cwd equi_conf in
  model ← getitem jdata "model";
  model ← as_str model;
  let model := join cwd model in
  _ ← getitem jdata "model_mass_map";
  _ ← getitem jdata "nsteps";
  _ ← getitem jdata "dt";
  _ ← getitem jdata "spring_k";
  _ ← getitem jdata "stat_freq";
  _ ← getitem jdata "temp";
  let jdata := <["reference" := ref]> jdata in
  let jdata := <["switch" := JStr switch]> jdata in
  let jdata := <["step" := JStr step]> jdata in
  let jdata := <["equi_conf" := JStr "conf.lmp"]> jdata in
  let jdata := <["model" := JStr "graph.pb"]> jdata in
  Ok (jdata, all_lambda, equi_conf, model).

Definition _make_tasks (cwd iter_name : string) (jdata : gmap string json)
    (ref : json) (switch step : string) (link : bool)
    : io (gmap string json) :=
  '(jdata, all_lambda, equi_conf, model) ←
    lift (task_config cwd jdata ref switch step);
  _ ← create_path iter_name;
  let copied_conf := join iter_name "conf.lmp" in
  _ ← place link equi_conf copied_conf;
  let linked_model := join iter_name "graph.pb" in
  _ ← place link model linked_model;
  let langevin := from_option truthy true (jdata !! "langevin") in
  _ ← write_file (join iter_name "in.json") (FJson jdata);
  _ ← make_task_dirs iter_name jdata ref switch step langevin 0 all_lambda;
  mret jdata.

Definition make_tasks (cwd iter_name : string) (jdata : gmap string json)
    (ref : json) (switch : string) : io (gmap string json) :=
  equi_conf ← lift (getitem jdata "equi_conf");
  equi_conf ← lift (as_str equi_conf);
  let equi_conf := join cwd equi_conf in
  model ← lift (getitem jdata "model");
  model ← lift (as_str model);
  let model := join cwd model in
  if decide (switch = "one-step") then
    _make_tasks cwd iter_name jdata ref "one-step" "both" false
  else if decide (switch = "two-step" \/ switch = "three-step") then
    _ ← create_path iter_name;
    _ ← copyfile equi_conf (join iter_name "conf.lmp");
    let jdata := <["equi_conf" := JStr "conf.lmp"]> jdata in
    _ ← copyfile model (join iter_name "graph.pb");
    let jdata := <["model" := JStr "graph.pb"]> jdata in
    _ ← write_file (join iter_name "in.json") (FJson jdata);
    if decide (switch = "two-step") then
      jdata ← _make_tasks iter_name (join iter_name "00.deep_on") jdata ref
                switch "deep_on" true;
      _make_tasks iter_name (join iter_name "01.spring_off") jdata ref
                switch "spring_off" true
    else
      jdata ← _make_tasks iter_name (join iter_name "00.lj_on") jdata ref
                switch "lj_on" true;
      jdata ← _make_tasks iter_name (join iter_name "01.deep_on") jdata ref
                switch "deep_on" true;
      _make_tasks iter_name (join iter_name "02.spring_off") jdata ref
                switch "spring_off" true
  else lift (Raise (RuntimeError "unknow switch")).

(** ** Refinement: [refine_task] *)

(** [lib.utils.compute_nrefine(all_t, integrand, err)]: for every
    interval, the number of sub-intervals it is to be cut into. *)
Variable compute_nrefine : list R -> list R -> R -> result (list Z).

(** [lib.utils.get_task_file_abspath(task_name, file_name)] *)
Variable get_task_file_abspath : string -> string -> string.

(** [glob.glob(os.path.join(d, 'task.[0-9]*'))], sorted. *)
Variable glob_tasks : gmap string file -> string -> list string.

Definition glob_sorted (d : string) : io (list string) :=
  fun fs => (Ok (glob_tasks fs d), fs).

(** Lines 541-543: the points inserted into interval [ii]. *)
Definition insert_points (ti hh : R) (m : Z) (refined_t : list R)
    (back_map : list Z) : list R * list Z :=
  foldl (fun acc jj => (acc.1 ++ [ti + IZR jj * hh], acc.2 ++ [(-1)%Z])%list)
        (refined_t, back_map) (py_range 1 m).

(** Lines 537-543: the loop over the intervals [iis]. *)
Fixpoint refine_loop (all_t : list R) (interval_nrefine : list Z)
    (iis : list nat) (refined_t : list R) (back_map : list Z)
    : result (list R * list Z) :=
  match iis with
  | [] => Ok (refined_t, back_map)
  | ii :: rest =>
      ti ← of_option IndexError (all_t !! ii);
      let refined_t := (refined_t ++ [ti])%list in
      let back_map := (back_map ++ [Z.of_nat ii])%list in
      ti1 ← of_option IndexError (all_t !! S ii);
      m ← of_option IndexError (interval_nrefine !! ii);
      let hh := (ti1 - ti) / IZR m in
      let '(refined_t, back_map) := insert_points ti hh m refined_t back_map in
      refine_loop all_t interval_nrefine rest refined_t back_map
  end.

(** Lines 535-545: the refined schedule and its back map. *)
Definition refine_schedule (all_t : list R) (interval_nrefine : list Z)
    : result (list R * list Z) :=
  let ntask := length all_t in
  '(refined_t, back_map) ←
    refine_loop all_t interval_nrefine (seq 0 (ntask - 1)) [] [];
  tl ← py_index all_t (-1);
  Ok ((refined_t ++ [tl])%list, (back_map ++ [(Z.of_nat ntask - 1)%Z])%list).

(** Lines 568-577: the outputs of the tasks that are kept are copied,
    from task number [ii] of the refined stage on. *)
Fixpoint copy_back (from_task_list : list string) (back_map : list Z)
    (ii : nat) (to_tasks : list string) : io unit :=
  match to_tasks with
  | [] => mret tt
  | to_dir :: rest =>
      bm ← lift (of_option IndexError (back_map !! ii));
      _ ← (if decide (bm < 0)%Z then mret tt
           else
             src ← lift (py_index from_task_list bm);
             _ ← copyfile (join src "data") (join to_dir "data");
             src ← lift (py_index from_task_list bm);
             _ ← copyfile (join src "log.lammps") (join to_dir "log.lammps");
             src ← lift (py_index from_task_list bm);
             write_file (join to_dir "from.dir") (FText src));
      copy_back from_task_list back_map (S ii) rest
  end.

Definition refine_task (cwd from_task to_task : string) (err : R)
    (print_ref : bool) : io unit :=
  let from_ti := join from_task "hti.out" in
  found ← isfile from_ti;
  if negb found then
    lift (Raise (RuntimeError
      ("cannot find file " +:+ from_ti +:+ ", task should be computed befor refined")))
  else
  '(all_t, integrand) ← loadtxt_columns01 from_ti;
  let ntask := length all_t in
  interval_nrefine ← lift (compute_nrefine all_t integrand err);
  if print_ref then mret tt else
  '(refined_t, back_map) ← lift (refine_schedule all_t interval_nrefine);
  from_jdata ← json_load (join from_task "in.json");
  (* [to_jdata] is the same dictionary as [from_jdata] *)
  let to_jdata := from_jdata in
  let to_jdata := <["lambda" := JList (JFloat <$> refined_t)]> to_jdata in
  let to_jdata := <["orig_task" := JStr from_task]> to_jdata in
  let to_jdata := <["back_map" := JList (JInt <$> back_map)]> to_jdata in
  let to_jdata := <["refine_error" := JFloat err]> to_jdata in
  equi_conf ← lift (getitem to_jdata "equi_conf");
  equi_conf ← lift (as_str equi_conf);
  let to_jdata :=
    <["equi_conf" := JStr (get_task_file_abspath from_task equi_conf)]> to_jdata in
  model ← lift (getitem to_jdata "model");
  model ← lift (as_str model);
  let to_jdata :=
    <["model" := JStr (get_task_file_abspath from_task model)]> to_jdata in
  ref ← lift (getitem to_jdata "reference");
  _ ← make_tasks cwd to_task to_jdata ref "one-step";
  from_task_list ← glob_sorted from_task;
  to_task_list ← glob_sorted to_task;
  if negb (bool_decide (length from_task_list = ntask)) then
    lift (Raise AssertionError) else
  if negb (bool_decide (length to_task_list = length refined_t)) then
    lift (Raise AssertionError) else
  copy_back from_task_list back_map 0 to_task_list.

End Generation.

(** ** The tasks of a stage: names and thermostats *)

(** The thermostat of task [idx]: Langevin for every task unless the
    configuration switches it off, and for the first task always. *)
Definition task_ens (langevin : bool) (idx : nat) : string :=
  if langevin then "nvt-langevin"
  else if decide (idx = 0%nat) then "nvt-langevin" else "nvt".

(** The number a string of decimal digits stands for, read after [acc]. *)
Fixpoint digits_value (acc : nat) (s : string) : nat :=
  match s with
  | "" => acc
  | String c rest => digits_value (10 * acc + (nat_of_ascii c - 48)) rest
  end.

(** No character of [s] is the path separator. *)
Fixpoint no_sep (s : string) : Prop :=
  match s with
  | "" => True
  | String c rest => c <> "/"%char /\ no_sep rest
  end.

(** [a < b] on strings, as [list.sort] compares them: character by
    character on the codes, a proper prefix before the longer string. *)
Fixpoint str_lt (a b : string) : bool :=
  match a, b with
  | _, "" => false
  | "", String _ _ => true
  | String x a', String y b' =>
      if Nat.ltb (nat_of_ascii x) (nat_of_ascii y) then true
      else if Nat.eqb (nat_of_ascii x) (nat_of_ascii y) then str_lt a' b'
      else false
  end.

(** The last [k] decimal digits of [n]. *)
Fixpoint fixed_width (k n : nat) : string :=
  match k with
  | O => ""
  | S k => fixed_width k (n / 10) +:+ digit n
  end.

(** ** Reading LAMMPS files: [lib/lammps.py]

    The three functions of [lib/lammps.py] work on the text of a file,
    which is their argument here ([fp.read()], opening the file is not
    part of the model).  A text is a string of characters with codes
    below 128. *)

Definition newline : ascii := "010"%char.

(** The first line of [s] and the lines after it. *)
Fixpoint split_first (s : string) : string * list string :=
  match s with
  | "" => ("", [])
  | String c rest =>
      let '(w, ws) := split_first rest in
      if decide (c = newline) then ("", w :: ws) else (String c w, ws)
  end.

(** [s.split('\n')] *)
Definition split_lines (s : string) : list string :=
  let '(w, ws) := split_first s in w :: ws.

(** ['\n'.join(lines)] *)
Definition join_lines (lines : list string) : string :=
  String.concat (String newline "") lines.

(** [sub in s] *)
Fixpoint contains (sub s : string) {struct s} : bool :=
  String.prefix sub s
  || match s with
     | "" => false
     | String _ rest => contains sub rest
     end.

(** [c.isspace()]: tab to carriage return, the four separators and the
    blank. *)
Definition isspace (c : ascii) : bool :=
  let n := nat_of_ascii c in
  (Nat.leb 9 n && Nat.leb n 13) || (Nat.leb 28 n && Nat.leb n 32).

(** [s.split()]: the maximal runs of characters that are not white
    space; [tok] is the run that is being read. *)
Fixpoint words (tok s : string) : list string :=
  match s with
  | "" => if decide (tok = "") then [] else [tok]
  | String c rest =>
      if isspace c then
        if decide (tok = "") then words "" rest else tok :: words "" rest
      else words (tok +:+ String c "") rest
  end.

Definition split_ws (s : string) : list string := words "" s.

(** The names bound at module level in [lib/lammps.py]. *)
Definition lammps_globals : gmap string pyobj :=
  list_to_map [("np", PyModule); ("get_natoms", PyFunction);
               ("get_thermo", PyFunction); ("get_last_dump", PyFunction)].

(** [np.array(rows)] of a list of rows of numbers: rows of different
    lengths do not make a table (a ValueError since numpy 1.24). *)
Definition np_array2 (rows : list (list R)) : result (list (list R)) :=
  match rows with
  | [] => Ok []
  | r :: _ =>
      if forallb (fun x => Nat.eqb (length x) (length r)) rows then Ok rows
      else Raise ValueError
  end.

(** The value a loop [for k in range(len(fc)): if sub in fc[k]: break]
    leaves in [k]: the first index whose line contains [sub], the last
    index when no line does; over an empty list [k] is never bound. *)
Fixpoint break_index (sub : string) (fc : list string) : option nat :=
  match fc with
  | [] => None
  | l :: rest => if contains sub l then Some 0%nat else S <$> break_index sub rest
  end.

Definition loop_index (name sub : string) (fc : list string) : result nat :=
  match fc with
  | [] => Raise (NameError name)
  | _ => Ok (default (length fc - 1)%nat (break_index sub fc))
  end.

(** The loop of [get_last_dump] over [enumerate(lines)], from index
    [idx] on. *)
Fixpoint last_timestep (idx : nat) (lines : list string) (step_idx : Z) : Z :=
  match lines with
  | [] => step_idx
  | ii :: rest =>
      last_timestep (S idx) rest
        (if contains "ITEM: TIMESTEP" ii then Z.of_nat idx else step_idx)
  end.

Definition get_last_dump (text : string) : result string :=
  let lines := split_lines text in
  let step_idx := last_timestep 0 lines (-1) in
  if decide (step_idx = -1)%Z then
    Raise (RuntimeError "cannot find timestep in lammps dump, something wrong")
  else Ok (join_lines (py_slice_from step_idx lines)).

Section Lammps.

(** The builtins [int] and [float] on a string. *)
Variable py_int : string -> result Z.
Variable py_float : string -> result R.

(** The loop of [get_natoms] over the lines.  The error message of the
    last statement is built from [conf], a name that is bound neither in
    the function nor in the module. *)
Fixpoint get_natoms_loop (lines : list string) : result Z :=
  match lines with
  | [] =>
      conf ← of_option (NameError "conf") (lammps_globals !! "conf");
      match conf with
      | PyStr s => Raise (RuntimeError ("cannot find key word 'atoms' in " +:+ s))
      | _ => Raise TypeError
      end
  | ii :: rest =>
      if contains "atoms" ii then
        tok ← py_index (split_ws ii) 0;
        py_int tok
      else get_natoms_loop rest
  end.

Definition get_natoms (text : string) : result Z :=
  get_natoms_loop (split_lines text).

(** One row of the table: [[float(jj) for jj in line.split()]] *)
Definition thermo_row (line : string) : result (list R) :=
  mapM (M := result) py_float (split_ws line).

Definition get_thermo (text : string) : result (list (list R)) :=
  let fc := split_lines text in
  sl ← loop_index "sl" "Step KinEng PotEng TotEng" fc;
  el ← loop_index "el" "Loop time of" fc;
  data ← mapM (M := result) (fun ii => line ← py_index fc ii; thermo_row line)
              (py_range (Z.of_nat sl + 1) (Z.of_nat el));
  np_array2 data.

End Lammps.

(** No character of [s] is a line break. *)
Fixpoint one_line (s : string) : Prop :=
  match s with
  | "" => True
  | String c rest => c <> newline /\ one_line rest
  end.

(** Every character of [s] is white space. *)
Fixpoint blank (s : string) : bool :=
  match s with
  | "" => true
  | String c rest => isspace c && blank rest
  end.

(** ** The text of [in.lammps]: [_ff_*], [_gen_lammps_input],
       [_gen_lammps_input_ideal]

    The arguments have the types the formats ask for: integers for [%d],
    reals for [%f] and [%.10e]; the soft-core parameters are read from a
    dictionary as the code reads them.  The spring constant is a number
    or a list of numbers, one per atom type. *)

Inductive spring : Type :=
| SpringAll (k : R)
| SpringByType (ks : list R).

(** [type(spring_k) == list] *)
Definition is_list (spring_k : spring) : bool :=
  match spring_k with
  | SpringAll _ => false
  | SpringByType _ => true
  end.

(** The line break, and a piece of text that ends a line. *)
Definition nl : string := String newline "".
Definition line (s : string) : string := s +:+ nl.

(** [str(n)] and ['%d' % n] of an integer *)
Definition str_nat (n : nat) : string := decimal (S n) n.
Definition fmt_d (z : Z) : string :=
  if (z <? 0)%Z then "-" +:+ str_nat (Z.abs_nat z) else str_nat (Z.abs_nat z).

Section LammpsInput.
Local Open Scope R_scope.

(** Python's formats of a float: ['%f' % x], ['%.10e' % x] and
    ['%s' % x]. *)
Variable fmt_f : R -> string.
Variable fmt_e10 : R -> string.
Variable fmt_s : R -> string.

(** ['%f' % x] for a value read from a dictionary *)
Definition fmt_f_of (j : json) : result string :=
  x ← as_float j; Ok (fmt_f x).

(** The eight reads at the head of [_ff_lj_on], [_ff_deep_on] and
    [_ff_lj_off]. *)
Definition soft_params (sparam : gmap string json)
    : result (json * json * json * json * json * json * json * json) :=
  nn ← getitem sparam "n";
  alpha_lj ← getitem sparam "alpha_lj";
  rcut ← getitem sparam "rcut";
  epsilon ← getitem sparam "epsilon";
  sigma_oo ← getitem sparam "sigma_oo";
  sigma_oh ← getitem sparam "sigma_oh";
  sigma_hh ← getitem sparam "sigma_hh";
  activation ← getitem sparam "activation";
  Ok (nn, alpha_lj, rcut, epsilon, sigma_oo, sigma_oh, sigma_hh, activation).

(** [head + '%f %f\n' % (sigma, activation)] *)
Definition pair_coeff (head : string) (sigma activation : json) : result string :=
  s ← fmt_f_of sigma; a ← fmt_f_of activation;
  Ok (line (head +:+ s +:+ " " +:+ a)).

Definition _ff_lj_on (lamb : R) (model : string) (sparam : gmap string json)
    : result string :=
  '(nn, alpha_lj, rcut, epsilon, sigma_oo, sigma_oh, sigma_hh, activation) ←
    soft_params sparam;
  let ret := "" in
  e ← fmt_f_of epsilon;
  let ret := ret +:+ line ("variable        EPSILON equal " +:+ e) in
  n ← fmt_f_of nn; a ← fmt_f_of alpha_lj; r ← fmt_f_of rcut;
  let ret := ret +:+ line ("pair_style      lj/cut/soft " +:+ n +:+ " " +:+ a
                            +:+ " " +:+ r +:+ "  ") in
  c ← pair_coeff "pair_coeff      1 1 ${EPSILON} " sigma_oo activation; let ret := ret +:+ c in
  c ← pair_coeff "pair_coeff      1 2 ${EPSILON} " sigma_oh activation; let ret := ret +:+ c in
  c ← pair_coeff "pair_coeff      2 2 ${EPSILON} " sigma_hh activation; let ret := ret +:+ c in
  let ret := ret +:+ line "fix             tot_pot all adapt/fep 0 pair lj/cut/soft epsilon * * v_LAMBDA scale yes" in
  let ret := ret +:+ line "compute         e_diff all fep ${TEMP} pair lj/cut/soft epsilon * * v_EPSILON" in
  Ok ret.

Definition _ff_deep_on (lamb : R) (model : string) (sparam : gmap string json)
    : result string :=
  '(nn, alpha_lj, rcut, epsilon, sigma_oo, sigma_oh, sigma_hh, activation) ←
    soft_params sparam;
  let ret := "" in
  e ← fmt_f_of epsilon;
  let ret := ret +:+ line ("variable        EPSILON equal " +:+ e) in
  let ret := ret +:+ line "variable        ONE equal 1" in
  n ← fmt_f_of nn; a ← fmt_f_of alpha_lj; r ← fmt_f_of rcut;
  let ret := ret +:+ line ("pair_style      hybrid/overlay deepmd " +:+ model
                            +:+ " lj/cut/soft " +:+ n +:+ " " +:+ a
                            +:+ " " +:+ r +:+ "  ") in
  let ret := ret +:+ line "pair_coeff      * * deepmd" in
  c ← pair_coeff "pair_coeff      1 1 lj/cut/soft ${EPSILON} " sigma_oo activation; let ret := ret +:+ c in
  c ← pair_coeff "pair_coeff      1 2 lj/cut/soft ${EPSILON} " sigma_oh activation; let ret := ret +:+ c in
  c ← pair_coeff "pair_coeff      2 2 lj/cut/soft ${EPSILON} " sigma_hh activation; let ret := ret +:+ c in
  let ret := ret +:+ line "fix             tot_pot all adapt/fep 0 pair deepmd scale * * v_LAMBDA" in
  let ret := ret +:+ line "compute         e_diff all fep ${TEMP} pair deepmd scale * * v_ONE" in
  Ok ret.

Definition _ff_lj_off (lamb : R) (model : string) (sparam : gmap string json)
    : result string :=
  '(nn, alpha_lj, rcut, epsilon, sigma_oo, sigma_oh, sigma_hh, activation) ←
    soft_params sparam;
  let ret := "" in
  e ← fmt_f_of epsilon;
  let ret := ret +:+ line ("variable        EPSILON equal " +:+ e) in
  let ret := ret +:+ line "variable        INV_EPSILON equal -${EPSILON}" in
  n ← fmt_f_of nn; a ← fmt_f_of alpha_lj; r ← fmt_f_of rcut;
  let ret := ret +:+ line ("pair_style      hybrid/overlay deepmd " +:+ model
                            +:+ " lj/cut/soft " +:+ n +:+ " " +:+ a
                            +:+ " " +:+ r +:+ "  ") in
  let ret := ret +:+ line "pair_coeff      * * deepmd" in
  c ← pair_coeff "pair_coeff      1 1 lj/cut/soft ${EPSILON} " sigma_oo activation; let ret := ret +:+ c in
  c ← pair_coeff "pair_coeff      1 2 lj/cut/soft ${EPSILON} " sigma_oh activation; let ret := ret +:+ c in
  c ← pair_coeff "pair_coeff      2 2 lj/cut/soft ${EPSILON} " sigma_hh activation; let ret := ret +:+ c in
  let ret := ret +:+ line "fix             tot_pot all adapt/fep 0 pair lj/cut/soft epsilon * * v_INV_LAMBDA scale yes" in
  let ret := ret +:+ line "compute         e_diff all fep ${TEMP} pair lj/cut/soft epsilon * * v_INV_EPSILON" in
  Ok ret.

(** The spring constant written for [k]: scaled by [1 - lamb] when the
    spring is the part that is switched. *)
Definition spring_const (lamb k : R) (var_spring : bool) : R :=
  if var_spring then k * (1 - lamb) else k.

Definition _ff_spring (lamb : R) (spring_k : spring) (var_spring : bool) : string :=
  let ret := "" in
  match spring_k with
  | SpringAll k =>
      let ret := ret +:+ line ("fix             l_spring all spring/self "
                                +:+ fmt_e10 (spring_const lamb k var_spring)) in
      let ret := ret +:+ line "fix_modify      l_spring energy yes" in
      ret
  | SpringByType ks =>
      let ntypes := length ks in
      let ret :=
        foldl (fun ret ii =>
                 ret +:+ line ("group           type_" +:+ str_nat (ii + 1)
                                +:+ " type " +:+ str_nat (ii + 1)))
              ret (seq 0 ntypes) in
      let ret :=
        foldl (fun ret ii =>
                 let k := default 0 (ks !! ii) in
                 let ret := ret +:+ line ("fix             l_spring_" +:+ str_nat (ii + 1)
                                           +:+ " type_" +:+ str_nat (ii + 1)
                                           +:+ " spring/self "
                                           +:+ fmt_e10 (spring_const lamb k var_spring)) in
                 ret +:+ line ("fix_modify      l_spring_" +:+ str_nat (ii + 1)
                                +:+ " energy yes"))
              ret (seq 0 ntypes) in
      let sum_str :=
        foldl (fun sum_str ii => sum_str +:+ "+f_l_spring_" +:+ str_nat (ii + 1))
              "f_l_spring_1" (seq 1 (ntypes - 1)) in
      ret +:+ line ("variable        l_spring equal " +:+ sum_str)
  end.

Definition _ff_soft_lj (lamb : R) (model : string) (spring_k : spring)
    (step : string) (sparam : gmap string json) : result string :=
  let ret := "" in
  let ret := ret +:+ line "# --------------------- FORCE FIELDS ---------------------" in
  '(ret, var_spring) ←
    (if decide (step = "lj_on") then
       ff ← _ff_lj_on lamb model sparam; Ok (ret +:+ ff, false)
     else if decide (step = "deep_on") then
       ff ← _ff_deep_on lamb model sparam; Ok (ret +:+ ff, false)
     else if decide (step = "spring_off") then
       ff ← _ff_lj_off lamb model sparam; Ok (ret +:+ ff, true)
     else Raise (RuntimeError "unkown step"));
  let ret := ret +:+ _ff_spring lamb spring_k var_spring in
  Ok ret.

Definition _ff_two_steps (lamb : R) (model : string) (spring_k : spring)
    (step : string) : result string :=
  let ret := "" in
  let ret := ret +:+ line "# --------------------- FORCE FIELDS ---------------------" in
  let ret := ret +:+ line ("pair_style      deepmd " +:+ model) in
  let ret := ret +:+ line "pair_coeff" in
  var_spring ←
    (if decide (step = "both" \/ step = "spring_off") then Ok true
     else if decide (step = "deep_on") then Ok false
     else Raise (RuntimeError "unkown step"));
  var_deep ←
    (if decide (step = "both" \/ step = "deep_on") then Ok true
     else if decide (step = "spring_off") then Ok false
     else Raise (RuntimeError "unkown step"));
  let ret := ret +:+ _ff_spring lamb spring_k var_spring in
  let ret :=
    if (var_deep : bool)
    then ret +:+ line "fix             l_deep all adapt 1 pair deepmd scale * * v_LAMBDA"
    else ret in
  let ret := ret +:+ line "compute         e_deep all pe pair" in
  Ok ret.

(** The head of both generators: the variables up to [TAU_P]. *)
Definition input_variables (nsteps prt_freq : Z) (temp pres tau_t tau_p : R) : string :=
  let ret := "" in
  let ret := ret +:+ line "clear" in
  let ret := ret +:+ line "# --------------------- VARIABLES-------------------------" in
  let ret := ret +:+ line ("variable        NSTEPS          equal " +:+ fmt_d nsteps) in
  let ret := ret +:+ line ("variable        THERMO_FREQ     equal " +:+ fmt_d prt_freq) in
  let ret := ret +:+ line ("variable        DUMP_FREQ       equal " +:+ fmt_d prt_freq) in
  let ret := ret +:+ line ("variable        TEMP            equal " +:+ fmt_f temp) in
  let ret := ret +:+ line ("variable        PRES            equal " +:+ fmt_f pres) in
  let ret := ret +:+ line ("variable        TAU_T           equal " +:+ fmt_f tau_t) in
  let ret := ret +:+ line ("variable        TAU_P           equal " +:+ fmt_f tau_p) in
  ret.

(** The part of both generators from [INITIALIZAITION] to the masses. *)
Definition atom_definition (conf_file : string) (mass_map : list R)
    (copies : option (list Z)) : result string :=
  let ret := "" in
  let ret := ret +:+ line "# ---------------------- INITIALIZAITION ------------------" in
  let ret := ret +:+ line "units           metal" in
  let ret := ret +:+ line "boundary        p p p" in
  let ret := ret +:+ line "atom_style      atomic" in
  let ret := ret +:+ line "# --------------------- ATOM DEFINITION ------------------" in
  let ret := ret +:+ line "box             tilt large" in
  let ret := ret +:+ line ("read_data       " +:+ conf_file) in
  ret ←
    match copies with
    | Some copies =>
        c0 ← py_index copies 0; c1 ← py_index copies 1; c2 ← py_index copies 2;
        Ok (ret +:+ line ("replicate       " +:+ fmt_d c0 +:+ " " +:+ fmt_d c1
                           +:+ " " +:+ fmt_d c2))
    | None => Ok ret
    end;
  let ret := ret +:+ line "change_box      all triclinic" in
  let ret :=
    foldl (fun ret jj =>
             ret +:+ line ("mass            " +:+ str_nat (jj + 1) +:+ " "
                            +:+ fmt_f (default 0 (mass_map !! jj))))
          ret (seq 0 (length mass_map)) in
  Ok ret.

(** The [thermo_style] line of [_gen_lammps_input]: the columns 9 and 10
    of the log. *)
Definition thermo_style (lamb : R) (spring_k : spring) (switch : string) : string :=
  if decide (1 - lamb <> 0) then
    match spring_k with
    | SpringAll _ =>
        if decide (switch = "three-step") then
          line "thermo_style    custom step ke pe etotal enthalpy temp press vol f_l_spring c_e_diff[1]"
        else
          line "thermo_style    custom step ke pe etotal enthalpy temp press vol f_l_spring c_e_deep"
    | SpringByType _ =>
        if decide (switch = "three-step") then
          line "thermo_style    custom step ke pe etotal enthalpy temp press vol v_l_spring c_e_diff[1]"
        else
          line "thermo_style    custom step ke pe etotal enthalpy temp press vol v_l_spring c_e_deep"
    end
  else
    line "thermo_style    custom step ke pe etotal enthalpy temp press vol c_e_deep c_e_deep".

(** [seed_langevin] and [seed_velocity] are the numbers the two calls
    of [np.random.randint(0, 2**16)] return. *)
Definition _gen_lammps_input (conf_file : string) (mass_map : list R) (lamb : R)
    (model : string) (spring_k : spring) (nsteps : Z) (dt : R) (ens : string)
    (temp pres tau_t tau_p : R) (prt_freq : Z) (copies : option (list Z))
    (crystal : string) (sparam : gmap string json) (switch step : string)
    (seed_langevin seed_velocity : Z) : result string :=
  if bool_decide (crystal = "frenkel") && negb (is_list spring_k)
  then Raise AssertionError else
  let ret := input_variables nsteps prt_freq temp pres tau_t tau_p in
  let ret := ret +:+ line ("variable        LAMBDA          equal " +:+ fmt_e10 lamb) in
  let ret := ret +:+ line ("variable        INV_LAMBDA      equal " +:+ fmt_e10 (1 - lamb)) in
  atoms ← atom_definition conf_file mass_map copies;
  let ret := ret +:+ atoms in
  ff ←
    (if decide (switch = "one-step" \/ switch = "two-step") then
       _ff_two_steps lamb model spring_k step
     else if decide (switch = "three-step") then
       _ff_soft_lj lamb model spring_k step sparam
     else Raise (RuntimeError "unknow switch"));
  let ret := ret +:+ ff in
  let ret := ret +:+ line "# --------------------- MD SETTINGS ----------------------" in
  let ret := ret +:+ line "neighbor        1.0 bin" in
  let ret := ret +:+ line ("timestep        " +:+ fmt_s dt) in
  let ret := ret +:+ line "thermo          ${THERMO_FREQ}" in
  let ret := ret +:+ thermo_style lamb spring_k switch in
  let ret := ret +:+ line "thermo_modify   format 9 %.16e" in
  let ret := ret +:+ line "thermo_modify   format 10 %.16e" in
  let ret := ret +:+ line "# dump            1 all custom ${DUMP_FREQ} dump.hti id type x y z vx vy vz" in
  ret ←
    (if decide (ens = "nvt") then
       Ok (ret +:+ line "fix             1 all nvt temp ${TEMP} ${TEMP} ${TAU_T}")
     else if decide (ens = "nvt-langevin") then
       let ret := ret +:+ line "fix             1 all nve" in
       let ret := ret +:+ "fix             2 all langevin ${TEMP} ${TEMP} ${TAU_T} "
                      +:+ fmt_d seed_langevin in
       if decide (crystal = "frenkel") then Ok (ret +:+ line " zero yes")
       else Ok (ret +:+ line " zero no")
     else if decide (ens = "npt-iso" \/ ens = "npt") then
       Ok (ret +:+ line "fix             1 all npt temp ${TEMP} ${TEMP} ${TAU_T} iso ${PRES} ${PRES} ${TAU_P}")
     else if decide (ens = "nve") then
       Ok (ret +:+ line "fix             1 all nve")
     else Raise (RuntimeError ("unknow ensemble " +:+ ens +:+ nl)));
  let ret := ret +:+ line "# --------------------- INITIALIZE -----------------------" in
  let ret := ret +:+ line ("velocity        all create ${TEMP} " +:+ fmt_d seed_velocity) in
  ret ←
    (if decide (crystal = "frenkel") then
       let ret := ret +:+ line "fix             fc all recenter INIT INIT INIT" in
       let ret := ret +:+ line "fix             fm all momentum 1 linear 1 1 1" in
       Ok (ret +:+ line "velocity        all zero linear")
     else if decide (crystal = "vega") then
       let ret := ret +:+ line "group           first id 1" in
       let ret := ret +:+ line "fix             fc first recenter INIT INIT INIT" in
       let ret := ret +:+ line "fix             fm first momentum 1 linear 1 1 1" in
       Ok (ret +:+ line "velocity        first zero linear")
     else Raise (RuntimeError ("unknow crystal " +:+ crystal)));
  let ret := ret +:+ line "# --------------------- RUN ------------------------------" in
  let ret := ret +:+ line "run             ${NSTEPS}" in
  let ret := ret +:+ line "write_data      out.lmp" in
  Ok ret.

Definition _gen_lammps_input_ideal (conf_file : string) (mass_map : list R) (lamb : R)
    (model : string) (nsteps : Z) (dt : R) (ens : string)
    (temp pres tau_t tau_p : R) (prt_freq : Z) (copies : option (list Z))
    (norm_style : string) (seed_langevin seed_velocity : Z) : result string :=
  let ret := input_variables nsteps prt_freq temp pres tau_t tau_p in
  let ret := ret +:+ line ("variable        LAMBDA          equal " +:+ fmt_e10 lamb) in
  let ret := ret +:+ line "variable        ZERO            equal 0" in
  atoms ← atom_definition conf_file mass_map copies;
  let ret := ret +:+ atoms in
  let ret := ret +:+ line "# --------------------- FORCE FIELDS ---------------------" in
  let ret := ret +:+ line ("pair_style      deepmd " +:+ model) in
  let ret := ret +:+ line "pair_coeff" in
  let ret := ret +:+ line "fix             l_deep all adapt 1 pair deepmd scale * * v_LAMBDA" in
  let ret := ret +:+ line "compute         e_deep all pe pair" in
  let ret := ret +:+ line "# --------------------- MD SETTINGS ----------------------" in
  let ret := ret +:+ line "neighbor        1.0 bin" in
  let ret := ret +:+ line ("timestep        " +:+ fmt_s dt) in
  let ret := ret +:+ line "thermo          ${THERMO_FREQ}" in
  let ret := ret +:+ line "thermo_style    custom step ke pe etotal enthalpy temp press vol v_ZERO c_e_deep" in
  let ret := ret +:+ line "thermo_modify   format 10 %.16e" in
  let ret := ret +:+ line "# dump            1 all custom ${DUMP_FREQ} dump.hti id type x y z vx vy vz" in
  ret ←
    (if decide (ens = "nvt") then
       Ok (ret +:+ line "fix             1 all nvt temp ${TEMP} ${TEMP} ${TAU_T}")
     else if decide (ens = "nvt-langevin") then
       let ret := ret +:+ line "fix             1 all nve" in
       Ok (ret +:+ line ("fix             2 all langevin ${TEMP} ${TEMP} ${TAU_T} "
                          +:+ fmt_d seed_langevin +:+ " zero yes"))
     else if decide (ens = "npt-iso" \/ ens = "npt") then
       Ok (ret +:+ line "fix             1 all npt temp ${TEMP} ${TEMP} ${TAU_T} iso ${PRES} ${PRES} ${TAU_P}")
     else if decide (ens = "nve") then
       Ok (ret +:+ line "fix             1 all nve")
     else Raise (RuntimeError ("unknow ensemble " +:+ ens +:+ nl)));
  let ret := ret +:+ line "fix             mzero all momentum 10 linear 1 1 1" in
  let ret := ret +:+ line "# --------------------- INITIALIZE -----------------------" in
  let ret := ret +:+ line ("velocity        all create ${TEMP} " +:+ fmt_d seed_velocity) in
  let ret := ret +:+ line "velocity        all zero linear" in
  let ret := ret +:+ line "# --------------------- RUN ------------------------------" in
  let ret := ret +:+ line "run             ${NSTEPS}" in
  let ret := ret +:+ line "write_data      out.lmp" in
  Ok ret.

End LammpsInput.

(** ** The refinement in the words of the specification

    [RefinementPlanner]: the original point [k] is found in the refined
    schedule after the sub-intervals of the intervals before it. *)

Definition offset (interval_nrefine : list Z) (k : nat) : nat :=
  sum_list (Z.to_nat <$> take k interval_nrefine).

(** The number of points inserted: the sum of [intervalsNeeded - 1]. *)
Definition inserted (interval_nrefine : list Z) : Z :=
  foldr Z.add 0%Z ((fun m => m - 1)%Z <$> interval_nrefine).

(** ** The composition rule in the words of the specification

    [StageComposer]: the total is the sum of the stage values, the
    statistical error the square root of the sum of the squared stage
    errors, the systematic error the sum of the stage errors.  A stage
    is given as (value, statistical error, systematic error). *)

Definition compose_spec (stages : list (R * R * R)) : R * R * R :=
  (foldr Rplus 0%R (map (fun s => s.1.1) stages),
   sqrt (foldr Rplus 0%R (map (fun s => (s.1.2 * s.1.2)%R) stages)),
   foldr Rplus 0%R (map (fun s => s.2) stages)).

Definition stage_triple (r : fe_result) : R * R * R :=
  (diff_e r, stt_err r, sys_err r).

(** ** Stand-ins for the collaborators

    Small executable instances of the functions the sources import, used
    where a statement is instantiated on concrete data. *)

Module Sample.
Local Open Scope R_scope.

(** Mean and error of a series of two samples. *)
Definition block_avg (series : list R) (skip block_size : json) : result (R * R) :=
  match series with
  | x0 :: x1 :: _ => Ok ((x0 + x1) / 2, Rabs (x0 - x1) / 2)
  | _ => Raise (RuntimeError "InvalidInput")
  end.

(** Cumulative trapezoidal sums after the first point. *)
Fixpoint trapz (xx yy : list R) (acc : R) : list R :=
  match xx, yy with
  | x0 :: xs, y0 :: ys =>
      match xs, ys with
      | x1 :: _, y1 :: _ =>
          let acc := acc + (x1 - x0) * (y0 + y1) / 2 in
          acc :: trapz xs ys acc
      | _, _ => []
      end
  | _, _ => []
  end.

(** The trapezoidal rule for scheme ["t"]; any other scheme works on
    pairs of intervals and stops one point early when their number is
    odd.  The systematic error is taken as zero and the statistical
    error as the error of the integrand. *)
Definition integrate_range (xx yy ye : list R) (scheme : string)
    : result (list R * list R * list R * list R) :=
  let n :=
    if decide (scheme = "t") then length xx
    else if Nat.even (length xx) then (length xx - 1)%nat else length xx in
  Ok (take n xx, take n (0 :: trapz xx yy 0), take n (map (fun _ => 0) xx), take n ye).

Definition mbar_free_energy_differences (ukn : list (list R)) (nk : list Z)
    : result (list (list R) * list (list R)) :=
  Ok ([[0; 1]; [-1; 0]], [[0; 1 / 10]; [1 / 10; 0]]).

(** A task log of two samples and ten columns; columns 8 and 9 hold the
    spring and the deep energy. *)
Definition log (es0 es1 ed0 ed1 : R) : list (list R) :=
  [[0; 1; 2; 3; 4; 300; 1; 8; es0; ed0];
   [1; 1; 2; 3; 4; 300; 1; 8; es1; ed1]].

Definition stage : stage_dir :=
  StageDir [TaskLog (1 / 4) (log 2 4 1 3); TaskLog (3 / 4) (log 2 2 3 5)]
           None true 2.

Definition jdata : gmap string json :=
  list_to_map [("stat_skip", JInt 0); ("stat_bsize", JInt 1);
               ("equi_conf", JStr "conf.lmp"); ("temp", JFloat 100)].

Definition two_step_job : job_dir :=
  JobDir (StageDir [] None false 0)
         (<["00.deep_on" := stage]> (<["01.spring_off" := stage]> ∅)).

(** Generation into new directories: there is nothing to move away. *)
Definition create_path (d : string) : io unit := mret tt.

(** An explicit list of numbers. *)
Definition parse_seq (spec : json) : result (list R) :=
  match spec with
  | JList l => mapM (M := result) as_float l
  | _ => Raise TypeError
  end.

Definition _gen_lammps_input (jdata : gmap string json) (lamb : R)
    (ens switch step : string) (idx : nat) : result string :=
  Ok ("clear " +:+ ens +:+ " " +:+ switch +:+ " " +:+ step).

Definition _gen_lammps_input_ideal (jdata : gmap string json) (lamb : R)
    (ens : string) (idx : nat) : result string :=
  Ok ("clear " +:+ ens).

(** Every interval is cut in two. *)
Definition compute_nrefine (all_t integrand : list R) (err : R) : result (list Z) :=
  Ok (replicate (length all_t - 1) 2%Z).

Definition get_task_file_abspath (task_name file_name : string) : string :=
  join task_name file_name.

(** The first eight task directories of [d] that hold a [lambda.out]. *)
Definition glob_tasks (fs : gmap string file) (d : string) : list string :=
  filter (fun x => is_Some (fs !! join x "lambda.out"))
         ((fun i => join d (task_name i)) <$> seq 0 8).

(** The [deep_on] stage of a two-step job, post-processed: two tasks
    at lambda 0.25 and 0.75. *)
Definition old_jdata : gmap string json :=
  list_to_map
    [("protect_eps", JFloat 1e-6); ("equi_conf", JStr "conf.lmp");
     ("model", JStr "graph.pb"); ("model_mass_map", JList [JFloat 16]);
     ("nsteps", JInt 1000); ("dt", JFloat 0.002); ("spring_k", JFloat 0.02);
     ("stat_freq", JInt 10); ("temp", JFloat 100); ("stat_skip", JInt 0);
     ("stat_bsize", JInt 1); ("reference", JStr "einstein");
     ("switch", JStr "two-step"); ("step", JStr "deep_on");
     ("lambda_deep_on", JList [JFloat 0.25; JFloat 0.75]);
     ("lambda_spring_off", JList [JFloat 0.5])].

Definition old_fs : gmap string file :=
  list_to_map
    [("/old/hti.out", FTable [[0.25; 4; 0; 4; 0; 0; 0]; [0.75; 2; 0; 2; 0; 0; 0]]);
     ("/old/in.json", FJson old_jdata);
     ("/old/conf.lmp", FBlob "conf");
     ("/old/graph.pb", FBlob "graph");
     ("/old/task.000000/lambda.out", FFloat 0.25);
     ("/old/task.000000/data", FBlob "data0");
     ("/old/task.000000/log.lammps", FBlob "log0");
     ("/old/task.000001/lambda.out", FFloat 0.75);
     ("/old/task.000001/data", FBlob "data1");
     ("/old/task.000001/log.lammps", FBlob "log1")].

(** The same stage with an [in.json] that names the configuration and
    the model by their paths outside the stage. *)
Definition kept_fs : gmap string file :=
  <["/old/in.json" :=
      FJson (<["equi_conf" := JStr "/equi/conf.lmp"]>
               (<["model" := JStr "/equi/graph.pb"]> old_jdata))]>
    (<["/equi/conf.lmp" := FBlob "equi"]>
       (<["/equi/graph.pb" := FBlob "frozen"]> old_fs)).

(** A parameter file for a new job and the directory it is generated
    from. *)
Definition gen_jdata : gmap string json :=
  list_to_map
    [("protect_eps", JFloat 1e-6); ("equi_conf", JStr "conf.lmp");
     ("model", JStr "graph.pb"); ("model_mass_map", JList [JFloat 16]);
     ("nsteps", JInt 1000); ("dt", JFloat 0.002); ("spring_k", JFloat 0.02);
     ("stat_freq", JInt 10); ("temp", JFloat 100);
     ("lambda", JList [JFloat 0.25; JFloat 0.75]);
     ("lambda_deep_on", JList [JFloat 0.25; JFloat 0.75]);
     ("lambda_spring_off", JList [JFloat 0.5])].

Definition gen_fs : gmap string file :=
  list_to_map [("/work/conf.lmp", FBlob "conf"); ("/work/graph.pb", FBlob "graph")].

(** [int] and [float] on strings of decimal digits. *)
Definition is_digit (c : ascii) : bool :=
  let n := nat_of_ascii c in Nat.leb 48 n && Nat.leb n 57.

Fixpoint all_digits (s : string) : bool :=
  match s with
  | "" => true
  | String c rest => is_digit c && all_digits rest
  end.

Definition py_int (s : string) : result Z :=
  if negb (bool_decide (s = "")) && all_digits s
  then Ok (Z.of_nat (digits_value 0 s)) else Raise ValueError.

Definition py_float (s : string) : result R :=
  n ← py_int s; Ok (IZR n).

(** A configuration of two atoms. *)
Definition conf_lmp : string :=
  join_lines ["# generated"; ""; "  2 atoms"; "1 atom types"; "96 atoms"].

(** The log of a finished run with two thermo lines. *)
Definition log_lammps : string :=
  join_lines ["LAMMPS (7 Aug 2019)";
              "Step KinEng PotEng TotEng Enthalpy";
              "0 1 2 3 4";
              "10 5 6 7 8";
              "Loop time of 1 on 1 procs";
              "Total wall time: 0:00:01"].

(** A dump of two frames. *)
Definition dump : string :=
  join_lines ["ITEM: TIMESTEP"; "0"; "ITEM: ATOMS id"; "1";
              "ITEM: TIMESTEP"; "10"; "ITEM: ATOMS id"; "1"].

(** Stand-ins for Python's formats of a float, which this development
    does not compute: each one writes the format in place of the digits. *)
Definition fmt_f (x : R) : string := "%f".
Definition fmt_e10 (x : R) : string := "%.10e".
Definition fmt_s (x : R) : string := "%s".

End Sample.

(** * Properties *)

(** ** The integrand of a stage *)

Section IntegrandFacts.
Local Open Scope R_scope.

Lemma np_div_lookup (a b : list R) (k : nat) (x y : R) :
  a !! k = Some x -> b !! k = Some y -> np.div a b !! k = Some (x / y).
Proof.
  intros Ha Hb. unfold np.div. rewrite lookup_zip_with, Ha. simpl.
  rewrite Hb. reflexivity.
Qed.

(** C1, as the specification states it, fails on a [deep_on] stage of a
    three-step job: with [Ed = 1] at [lambda = 1/2] the integrand is 1,
    while [Ed / lambda] is 2. *)
Lemma deep_on_three_step_raw :
  let a := TaskArrays [1 / 2] [0] [0] [1] [1] in
  integrand "three-step" "deep_on" a = Ok ([1], [1])
  /\ np.div (all_ed a) (all_lambda a) = [2]
  /\ integrand "three-step" "deep_on" a
      <> Ok (np.div (all_ed a) (all_lambda a), np.div (all_ed_err a) (all_lambda a)).
Proof.
  assert (E : np.div [1] [1 / 2] = [2]).
  { unfold np.div. simpl. f_equal. lra. }
  cbv zeta. split; [reflexivity|]. split; [exact E|].
  simpl all_ed; simpl all_lambda; simpl all_ed_err. rewrite E.
  unfold integrand. simpl. intros H. inversion H. lra.
Qed.

(** C1 (amended): on a [deep_on] stage of a one-step or two-step call the
    integrand is [Ed / lambda] and its error [Ed_err / lambda], task by
    task; on a [deep_on] stage of a three-step job they are [Ed] and
    [Ed_err] themselves. *)
Theorem deep_on_integrand (a : task_arrays) :
  (forall switch, switch = "one-step" \/ switch = "two-step" ->
     exists de all_err,
       integrand switch "deep_on" a = Ok (de, all_err)
       /\ de = np.div (all_ed a) (all_lambda a)
       /\ all_err = np.div (all_ed_err a) (all_lambda a)
       /\ forall k ed ed_err lam,
            all_ed a !! k = Some ed -> all_ed_err a !! k = Some ed_err ->
            all_lambda a !! k = Some lam ->
            de !! k = Some (ed / lam) /\ all_err !! k = Some (ed_err / lam))
  /\ integrand "three-step" "deep_on" a = Ok (all_ed a, all_ed_err a).
Proof.
  split; [|reflexivity].
  intros switch Hs. eexists _, _. split; [|split; [reflexivity|split; [reflexivity|]]].
  - unfold integrand. rewrite decide_True by exact Hs. reflexivity.
  - intros k ed ed_err lam He Hee Hl. split; apply np_div_lookup; assumption.
Qed.

Lemma deep_on_integrand_witness :
  let a := TaskArrays [1 / 2] [0] [0] [1] [3] in
  exists de all_err,
    integrand "two-step" "deep_on" a = Ok (de, all_err)
    /\ de !! 0%nat = Some (1 / (1 / 2))
    /\ all_err !! 0%nat = Some (3 / (1 / 2)).
Proof.
  intros a.
  destruct (deep_on_integrand a) as [H _].
  destruct (H "two-step" (or_intror eq_refl)) as (de & all_err & E & _ & _ & Hk).
  exists de, all_err. split; [exact E|].
  apply (Hk 0%nat 1 3 (1 / 2)); reflexivity.
Defined.

End IntegrandFacts.

(** ** The integral over the schedule *)

Section QuadratureFacts.
Local Open Scope R_scope.

Variable integrate_range :
  list R -> list R -> list R -> string ->
  result (list R * list R * list R * list R).

Lemma py_index_last {A} (l : list A) (x : A) :
  py_index (l ++ [x]) (-1) = Ok x.
Proof.
  unfold py_index. rewrite length_app, Nat.add_1_r. simpl length.
  rewrite decide_False by lia. rewrite decide_True by lia.
  replace (Z.to_nat (Z.of_nat (S (length l)) + -1)) with (length l) by lia.
  rewrite lookup_app_r by lia. rewrite Nat.sub_diag. reflexivity.
Qed.

Lemma py_index_last_inv {A} (l : list A) (x : A) :
  py_index l (-1) = Ok x -> exists l', l = (l' ++ [x])%list.
Proof.
  destruct l as [|a l0] using rev_ind.
  - unfold py_index. simpl. discriminate.
  - rewrite py_index_last. intros [= ->]. eauto.
Qed.

Lemma py_index_last2 {A} (l : list A) (x y : A) :
  py_index (l ++ [x; y]) (-2) = Ok x.
Proof.
  unfold py_index. rewrite length_app. simpl length.
  rewrite decide_False by lia. rewrite decide_True by lia.
  replace (Z.to_nat (Z.of_nat (length l + 2) + -2)) with (length l) by lia.
  rewrite lookup_app_r by lia. rewrite Nat.sub_diag. reflexivity.
Qed.

Lemma py_index_last2_inv {A} (l : list A) (x y : A) :
  py_index l (-2) = Ok x -> py_index l (-1) = Ok y ->
  exists l', l = (l' ++ [x; y])%list.
Proof.
  intros H2 H1. apply py_index_last_inv in H1 as [l1 ->].
  destruct l1 as [|a l0] using rev_ind.
  - unfold py_index in H2. simpl in H2. discriminate.
  - rewrite <- app_assoc in H2. simpl in H2. rewrite py_index_last2 in H2.
    injection H2 as ->. exists l0. rewrite <- app_assoc. reflexivity.
Qed.

Lemma py_slice_last2 {A} (l : list A) (x y : A) :
  py_slice_from (-2) (l ++ [x; y]) = [x; y].
Proof.
  unfold py_slice_from. rewrite decide_False by lia.
  rewrite length_app. simpl length.
  replace (length l + 2 - Z.to_nat (- -2))%nat with (length l) by lia.
  rewrite drop_app_length. reflexivity.
Qed.

Lemma py_index_short {A} (l : list A) (k : Z) :
  (Z.of_nat (length l) < - k)%Z -> py_index l k = Raise IndexError.
Proof.
  intros H. unfold py_index.
  rewrite decide_False by lia. rewrite decide_False by lia. reflexivity.
Qed.

(** The result of [integrate_range] reaches the end of the schedule. *)
Lemma integrate_schedule_matched (all_lambda de all_err : list R) (scheme : string)
    (new_lambda i i_e s_e : list R) (al a b c : R) :
  integrate_range all_lambda de all_err scheme = Ok (new_lambda, i, i_e, s_e) ->
  py_index new_lambda (-1) = Ok al -> py_index all_lambda (-1) = Ok al ->
  py_index i (-1) = Ok a -> py_index i_e (-1) = Ok b -> py_index s_e (-1) = Ok c ->
  integrate_schedule integrate_range all_lambda de all_err scheme = Ok (a, c, b).
Proof.
  intros Hr Hn Ha Hi Hie Hse. unfold integrate_schedule.
  rewrite Hr. simpl. rewrite Hn. simpl. rewrite Ha. simpl.
  rewrite decide_False by (intros H; apply H; reflexivity).
  rewrite Hi. simpl. rewrite Hse. simpl. rewrite Hie. reflexivity.
Qed.

(** C3: when the cumulative result stops at the second-to-last lambda
    [nl] instead of the last lambda [al], the interval from [nl] to [al]
    is integrated on its own with scheme ["t"], over the last two entries
    of the integrand and of its error; the two integrals add, the
    statistical errors combine as a 2-norm and the systematic errors add.
    When the cumulative result stops anywhere else off the last lambda,
    the estimator raises and returns nothing: the RuntimeError "lambda
    does not match!" when the schedule has a second-to-last point. *)
Theorem integrate_schedule_tail_fixup (all_lambda de all_err : list R)
    (scheme : string) (new_lambda i i_e s_e : list R) (nl al : R) :
  integrate_range all_lambda de all_err scheme = Ok (new_lambda, i, i_e, s_e) ->
  py_index new_lambda (-1) = Ok nl ->
  py_index all_lambda (-1) = Ok al ->
  nl <> al ->
  (py_index all_lambda (-2) = Ok nl ->
     py_slice_from (-2) all_lambda = [nl; al]
     /\ forall t1 i1 i_e1 s_e1 a a1 b b1 c c1,
       integrate_range [nl; al] (py_slice_from (-2) de)
                       (py_slice_from (-2) all_err) "t" = Ok (t1, i1, i_e1, s_e1) ->
       py_index i (-1) = Ok a -> py_index i1 (-1) = Ok a1 ->
       py_index i_e (-1) = Ok b -> py_index i_e1 (-1) = Ok b1 ->
       py_index s_e (-1) = Ok c -> py_index s_e1 (-1) = Ok c1 ->
       integrate_schedule integrate_range all_lambda de all_err scheme
       = Ok (a + a1, sqrt (c * c + c1 * c1), b + b1))
  /\ (py_index all_lambda (-2) <> Ok nl ->
      raises (integrate_schedule integrate_range all_lambda de all_err scheme)
      /\ forall al2, py_index all_lambda (-2) = Ok al2 ->
           integrate_schedule integrate_range all_lambda de all_err scheme
           = Raise (RuntimeError "lambda does not match!")).
Proof.
  intros Hr Hn Ha Hne. split.
  - intros H2.
    destruct (py_index_last2_inv _ _ _ H2 Ha) as [l' ->].
    rewrite py_slice_last2. split; [reflexivity|].
    intros t1 i1 i_e1 s_e1 a a1 b b1 c c1 Ht Hi Hi1 Hie Hie1 Hse Hse1.
    unfold integrate_schedule. rewrite Hr. simpl. rewrite Hn. simpl.
    rewrite Ha. simpl. rewrite decide_True by exact Hne.
    rewrite H2. simpl. rewrite decide_True by reflexivity.
    rewrite py_slice_last2, Ht. simpl.
    rewrite Hi. simpl. rewrite Hi1. simpl. rewrite Hse. simpl.
    rewrite Hse1. simpl. rewrite Hie. simpl. rewrite Hie1. simpl.
    unfold np.norm. simpl. rewrite Rplus_0_r. reflexivity.
  - intros H2. unfold integrate_schedule. rewrite Hr. simpl. rewrite Hn. simpl.
    rewrite Ha. simpl. rewrite decide_True by exact Hne.
    destruct (py_index all_lambda (-2)) as [al2|ex] eqn:E2; simpl.
    + rewrite decide_False by congruence.
      split; [eexists; reflexivity|]. intros al2' _. reflexivity.
    + split; [eexists; reflexivity|]. intros al2' [=].
Qed.

End QuadratureFacts.

Section QuadratureExamples.
Local Open Scope R_scope.

Lemma integrate_schedule_tail_fixup_witness :
  exists a a1 b b1 c c1,
    integrate_schedule Sample.integrate_range
      [1 / 10; 1 / 2; 9 / 10; 1] [1; 1; 1; 1] [0; 0; 0; 0] "s"
    = Ok (a + a1, sqrt (c * c + c1 * c1), b + b1).
Proof.
  do 6 eexists.
  eapply (integrate_schedule_tail_fixup Sample.integrate_range
            [1 / 10; 1 / 2; 9 / 10; 1] [1; 1; 1; 1] [0; 0; 0; 0] "s"
            _ _ _ _ (9 / 10) 1);
    try reflexivity.
  lra.
Defined.

End QuadratureExamples.

(** ** Composition of the stages *)

Section ComposeFacts.
Local Open Scope R_scope.

Variable block_avg : list R -> json -> json -> result (R * R).
Variable integrate_range :
  list R -> list R -> list R -> string ->
  result (list R * list R * list R * list R).
Variable electron_volt Boltzmann : R.
Variable mbar_free_energy_differences :
  list (list R) -> list Z -> result (list (list R) * list (list R)).

Local Abbreviation stage_fe' :=
  (stage_fe block_avg integrate_range electron_volt Boltzmann
            mbar_free_energy_differences).
Local Abbreviation post_tasks' :=
  (post_tasks block_avg integrate_range electron_volt Boltzmann
              mbar_free_energy_differences).

(** C4: the result of a two-step or three-step job is composed from the
    results of its stages as the specification says: values add,
    statistical errors add in quadrature, systematic errors add; the
    thermodynamic read-out is that of the last stage.  In particular
    statistical errors 0.03 and 0.04 give 0.05 and systematic errors
    0.001 and 0.002 give 0.003. *)
Theorem post_tasks_composes (job : job_dir) (jdata : gmap string json)
    (natoms : option Z) (method scheme : string) :
  (detect_switch job = "two-step" -> forall r0 r1,
     stage_fe' job jdata natoms method scheme "two-step" "00.deep_on" "deep_on" = Ok r0 ->
     stage_fe' job jdata natoms method scheme "two-step" "01.spring_off" "spring_off" = Ok r1 ->
     exists r, post_tasks' job jdata natoms method scheme = Ok r
       /\ stage_triple r = compose_spec [stage_triple r0; stage_triple r1]
       /\ tinfo r = tinfo r1)
  /\ (detect_switch job = "three-step" -> forall r0 r1 r2,
     stage_fe' job jdata natoms method scheme "three-step" "00.lj_on" "lj_on" = Ok r0 ->
     stage_fe' job jdata natoms method scheme "three-step" "01.deep_on" "deep_on" = Ok r1 ->
     stage_fe' job jdata natoms method scheme "three-step" "02.spring_off" "spring_off" = Ok r2 ->
     exists r, post_tasks' job jdata natoms method scheme = Ok r
       /\ stage_triple r
           = compose_spec [stage_triple r0; stage_triple r1; stage_triple r2]
       /\ tinfo r = tinfo r2)
  /\ (forall e0 e1,
       compose_spec [(e0, 0.03, 0.001); (e1, 0.04, 0.002)]
       = (e0 + e1, 0.05, 0.003)).
Proof.
  split; [|split].
  - intros Hs r0 r1 H0 H1. unfold post_tasks. rewrite Hs. simpl.
    rewrite H0. simpl. rewrite H1. simpl. eexists. split; [reflexivity|].
    split; [|reflexivity].
    unfold stage_triple, compose_spec. simpl.
    f_equal; [f_equal|]; [ring|f_equal; ring|ring].
  - intros Hs r0 r1 r2 H0 H1 H2. unfold post_tasks. rewrite Hs. simpl.
    rewrite H0. simpl. rewrite H1. simpl. rewrite H2. simpl.
    eexists. split; [reflexivity|]. split; [|reflexivity].
    unfold stage_triple, compose_spec. simpl.
    f_equal; [f_equal|]; [ring|f_equal; ring|ring].
  - intros e0 e1. unfold compose_spec. simpl.
    f_equal; [f_equal|]; [ring| |lra].
    replace (0.03 * 0.03 + (0.04 * 0.04 + 0)) with (0.05 * 0.05) by lra.
    apply sqrt_square. lra.
Qed.

End ComposeFacts.

Section ComposeExamples.
Local Open Scope R_scope.

Local Abbreviation sample_stage_fe :=
  (stage_fe Sample.block_avg Sample.integrate_range 1 1
            Sample.mbar_free_energy_differences Sample.two_step_job
            Sample.jdata None "inte" "t" "two-step").

(** The quadrature estimator returns on both stages of the sample job. *)
Lemma sample_stage_fe_ok (subtask_name step : string) :
  (subtask_name = "00.deep_on" /\ step = "deep_on")
  \/ (subtask_name = "01.spring_off" /\ step = "spring_off") ->
  exists r, sample_stage_fe subtask_name step = Ok r.
Proof.
  assert (Hd : subdir Sample.two_step_job "00.deep_on" = Sample.stage) by reflexivity.
  assert (Hs : subdir Sample.two_step_job "01.spring_off" = Sample.stage) by reflexivity.
  assert (Hc : Sample.jdata !! "copies" = None) by reflexivity.
  intros [[-> ->]|[-> ->]]; eexists; unfold stage_fe, _post_tasks; simpl;
    rewrite ?Hd, ?Hs; simpl; rewrite Hc; simpl;
    (erewrite integrate_schedule_matched; reflexivity).
Qed.

Lemma post_tasks_composes_witness :
  exists r0 r1 r,
    sample_stage_fe "00.deep_on" "deep_on" = Ok r0
    /\ sample_stage_fe "01.spring_off" "spring_off" = Ok r1
    /\ post_tasks Sample.block_avg Sample.integrate_range 1 1
         Sample.mbar_free_energy_differences Sample.two_step_job
         Sample.jdata None "inte" "t" = Ok r
    /\ stage_triple r = compose_spec [stage_triple r0; stage_triple r1].
Proof.
  destruct (sample_stage_fe_ok "00.deep_on" "deep_on") as [r0 H0]; [tauto|].
  destruct (sample_stage_fe_ok "01.spring_off" "spring_off") as [r1 H1]; [tauto|].
  destruct (post_tasks_composes Sample.block_avg Sample.integrate_range 1 1
              Sample.mbar_free_energy_differences Sample.two_step_job
              Sample.jdata None "inte" "t") as [H _].
  destruct (H eq_refl r0 r1 H0 H1) as (r & Hr & Ht & _).
  exists r0, r1, r. auto.
Defined.

End ComposeExamples.

(** ** The reweighting estimator *)

Section ReweightingFacts.
Local Open Scope R_scope.

Variable block_avg : list R -> json -> json -> result (R * R).
Variable electron_volt Boltzmann : R.
Variable mbar_free_energy_differences :
  list (list R) -> list Z -> result (list (list R) * list (list R)).

Lemma switch_style_unbound : load_global "switch_style" = Raise (NameError "switch_style").
Proof. reflexivity. Qed.

Lemma raises_bind {A B} (m : result A) (f : A -> result B) :
  (forall a, m = Ok a -> raises (f a)) -> raises (m ≫= f).
Proof.
  intros H. destruct m as [a|ex]; simpl.
  - apply H. reflexivity.
  - eexists. reflexivity.
Qed.

(** The loop cannot get past its first task: it reads [switch_style],
    which no statement of the module binds. *)
Lemma mbar_loop_raises (all_lambda : list R) (kt_in_ev : R) (stat_skip : json)
    (idx : nat) (ii : task_log) (rest : list task_log)
    (ukn : list (list R)) (nk : list Z) :
  raises (mbar_loop all_lambda kt_in_ev stat_skip idx (ii :: rest) ukn nk).
Proof.
  simpl. apply raises_bind. intros c9 _. apply raises_bind. intros c8 _.
  apply raises_bind. intros skip _.
  unfold block_u_of. rewrite switch_style_unbound. simpl.
  eexists. reflexivity.
Qed.

Lemma mbar_loop_name_error (all_lambda : list R) (kt_in_ev : R) (skip : Z)
    (idx : nat) (ii : task_log) (rest : list task_log)
    (ukn : list (list R)) (nk : list Z) (c8 c9 : list R) :
  np.column 9 (log_data ii) = Ok c9 -> np.column 8 (log_data ii) = Ok c8 ->
  mbar_loop all_lambda kt_in_ev (JInt skip) idx (ii :: rest) ukn nk
  = Raise (NameError "switch_style").
Proof.
  intros H9 H8. simpl. rewrite H9. simpl. rewrite H8. simpl.
  unfold block_u_of. rewrite switch_style_unbound. reflexivity.
Qed.

(** C2 fails on the code: [_post_tasks_mbar] never returns a free-energy
    difference.  With at least one task it raises in the first pass of
    its loop, a NameError for [switch_style] as soon as the log of the
    task has its columns; without tasks it has no last task to take the
    thermodynamic read-out from.  On the sample stage, a one-step stage
    of two tasks, the outcome is the NameError. *)
Theorem post_tasks_mbar_never_returns :
  (forall stage jdata natoms switch step,
     raises (_post_tasks_mbar block_avg electron_volt Boltzmann
               mbar_free_energy_differences stage jdata natoms switch step))
  /\ _post_tasks_mbar block_avg electron_volt Boltzmann
       mbar_free_energy_differences Sample.stage Sample.jdata None
       "one-step" "both"
     = Raise (NameError "switch_style").
Proof.
  split.
  - intros stage jdata natoms switch step. unfold _post_tasks_mbar.
    apply raises_bind. intros stat_skip _. apply raises_bind. intros stat_bsize _.
    apply raises_bind. intros _ _.
    destruct (negb (equi_conf_isfile stage)); [eexists; reflexivity|].
    apply raises_bind. intros temp _. apply raises_bind. intros n _.
    apply raises_bind. intros tempr _.
    destruct (all_tasks stage) as [|ii rest] eqn:Et.
    + simpl. apply raises_bind. intros [d e] _. eexists. reflexivity.
    + apply raises_bind. intros [ukn nk] Hl. exfalso.
      destruct (mbar_loop_raises (map lambda_out (ii :: rest))
                  (Boltzmann * tempr / electron_volt) stat_skip 0 ii rest [] [])
        as [ex Hex].
      rewrite Hex in Hl. discriminate Hl.
  - unfold _post_tasks_mbar. simpl.
    assert (Hc : Sample.jdata !! "copies" = None) by reflexivity.
    rewrite Hc. reflexivity.
Qed.

End ReweightingFacts.

(** ** Normalisation by the number of atoms *)

Section NormalisationFacts.
Local Open Scope R_scope.

Variable block_avg : list R -> json -> json -> result (R * R).
Variable integrate_range :
  list R -> list R -> list R -> string ->
  result (list R * list R * list R * list R).
Variable electron_volt Boltzmann : R.
Variable mbar_free_energy_differences :
  list (list R) -> list Z -> result (list (list R) * list (list R)).

Local Abbreviation block_avg_column' := (block_avg_column block_avg).
Local Abbreviation reduce_task' := (reduce_task block_avg).
Local Abbreviation collect_tasks' := (collect_tasks block_avg).
Local Abbreviation _compute_thermo' := (_compute_thermo block_avg electron_volt).

Lemma div_sqrt_scaling (x n : R) : 0 < n -> x / sqrt n = sqrt n * (x / n).
Proof.
  intros Hn. assert (Hs : 0 < sqrt n) by (apply sqrt_lt_R0; exact Hn).
  rewrite <- (sqrt_sqrt n) at 3 by lra. field. lra.
Qed.

Lemma bind_Ok_inv {A B} (m : result A) (f : A -> result B) (b : B) :
  m ≫= f = Ok b -> exists a, m = Ok a /\ f a = Ok b.
Proof. destruct m as [a|ex]; simpl; [eauto|discriminate]. Qed.

(** What one pass of the loop stores for a task. *)
Lemma reduce_task_Ok (natoms : Z) (stat_skip stat_bsize : json) (task : task_log)
    (ll sa da se de : R) :
  reduce_task' natoms stat_skip stat_bsize task = Ok (ll, sa, da, se, de) ->
  exists sa0 se0 da0 de0,
    block_avg_column' (log_data task) 8 stat_skip stat_bsize = Ok (sa0, se0)
    /\ block_avg_column' (log_data task) 9 stat_skip stat_bsize = Ok (da0, de0)
    /\ ll = lambda_out task
    /\ sa = sa0 / IZR natoms /\ se = se0 / sqrt (IZR natoms)
    /\ da = da0 / IZR natoms /\ de = de0 / sqrt (IZR natoms).
Proof.
  unfold reduce_task. intros H.
  apply bind_Ok_inv in H as ([sa0 se0] & H8 & H).
  apply bind_Ok_inv in H as ([da0 de0] & H9 & H).
  cbv zeta in H. injection H as <- <- <- <- <-.
  exists sa0, se0, da0, de0. repeat split; assumption.
Qed.

(** The arrays the loop over the tasks fills: entry [k] of each holds
    what the pass for task [k] stored. *)
Lemma collect_tasks_Ok (natoms : Z) (stat_skip stat_bsize : json)
    (tasks : list task_log) (a : task_arrays) :
  collect_tasks' natoms stat_skip stat_bsize tasks = Ok a ->
  length (all_lambda a) = length tasks
  /\ forall (k : nat) task, tasks !! k = Some task ->
       exists sa se da de,
         block_avg_column' (log_data task) 8 stat_skip stat_bsize = Ok (sa, se)
         /\ block_avg_column' (log_data task) 9 stat_skip stat_bsize = Ok (da, de)
         /\ all_lambda a !! k = Some (lambda_out task)
         /\ all_es a !! k = Some (sa / IZR natoms)
         /\ all_es_err a !! k = Some (se / sqrt (IZR natoms))
         /\ all_ed a !! k = Some (da / IZR natoms)
         /\ all_ed_err a !! k = Some (de / sqrt (IZR natoms)).
Proof.
  revert a. induction tasks as [|ii rest IH]; intros a H.
  - injection H as <-. split; [reflexivity|]. intros k task Hk. discriminate Hk.
  - cbn [collect_tasks] in H.
    apply bind_Ok_inv in H as ([[[[ll sa] da] se] de] & Hr & H).
    apply bind_Ok_inv in H as (a' & Ha & H). injection H as <-.
    destruct (IH a' Ha) as [Hlen Hk]. cbn [all_lambda all_es all_es_err all_ed all_ed_err].
    split; [cbn [length]; f_equal; exact Hlen|].
    intros [|k] task Ht.
    + injection Ht as <-.
      apply reduce_task_Ok in Hr
        as (sa0 & se0 & da0 & de0 & H8 & H9 & -> & -> & -> & -> & ->).
      exists sa0, se0, da0, de0. repeat split; assumption.
    + apply (Hk k task Ht).
Qed.

(** The thermodynamic read-out of a log. *)
Lemma _compute_thermo_Ok (data : list (list R)) (natoms : Z)
    (stat_skip stat_bsize : json) (info : thermo_info) :
  _compute_thermo' data natoms stat_skip stat_bsize = Ok info ->
  exists ea ee ha he ta te pa pe va ve,
    block_avg_column' data 3 stat_skip stat_bsize = Ok (ea, ee)
    /\ block_avg_column' data 4 stat_skip stat_bsize = Ok (ha, he)
    /\ block_avg_column' data 5 stat_skip stat_bsize = Ok (ta, te)
    /\ block_avg_column' data 6 stat_skip stat_bsize = Ok (pa, pe)
    /\ block_avg_column' data 7 stat_skip stat_bsize = Ok (va, ve)
    /\ ti_e info = ea / IZR natoms /\ ti_e_err info = ee / sqrt (IZR natoms)
    /\ ti_h info = ha / IZR natoms /\ ti_h_err info = he / sqrt (IZR natoms)
    /\ ti_v info = va / IZR natoms /\ ti_v_err info = ve / sqrt (IZR natoms)
    /\ ti_pv info = pa * va * (1e5 * (1e-10 ^ 3) / electron_volt) / IZR natoms
    /\ ti_pv_err info
       = pe * va * (1e5 * (1e-10 ^ 3) / electron_volt) / sqrt (IZR natoms)
    /\ ti_t info = ta /\ ti_t_err info = te
    /\ ti_p info = pa /\ ti_p_err info = pe.
Proof.
  unfold _compute_thermo. intros H.
  apply bind_Ok_inv in H as ([ea ee] & H3 & H).
  apply bind_Ok_inv in H as ([ha he] & H4 & H).
  apply bind_Ok_inv in H as ([ta te] & H5 & H).
  apply bind_Ok_inv in H as ([pa pe] & H6 & H).
  apply bind_Ok_inv in H as ([va ve] & H7 & H).
  cbv zeta in H. injection H as <-.
  exists ea, ee, ha, he, ta, te, pa, pe, va, ve.
  cbn [ti_e ti_e_err ti_h ti_h_err ti_v ti_v_err ti_pv ti_pv_err ti_t ti_t_err
       ti_p ti_p_err].
  repeat split; assumption.
Qed.


End NormalisationFacts.

Section NormalisationExamples.
Local Open Scope R_scope.


(** The quadrature estimator on the sample stage, two atoms. *)
Lemma sample_post_tasks_run :
  exists r,
    _post_tasks Sample.block_avg Sample.integrate_range 1 Sample.stage Sample.jdata
      (Some 2%Z) "t" "two-step" "deep_on" = Ok r.
Proof.
  eexists. unfold _post_tasks. simpl.
  erewrite integrate_schedule_matched; reflexivity.
Qed.


End NormalisationExamples.

(** ** The end points of a schedule *)

Section ScheduleFacts.
Local Open Scope list_scope.
Local Open Scope R_scope.

(** C5, as the specification states it, fails on the one-point schedule
    [[0]] with [protect_eps = 1]: the first guard moves the point to 1,
    the second guard then sees a last value of 1 and moves it back, and
    the schedule ends with a first value that is not [protect_eps]. *)
Lemma protect_ends_single_point :
  exists r, protect_ends [0] (JFloat 1) = Ok [r] /\ r = 0 /\ r <> 1.
Proof.
  exists (0 + 1 - 1). split; [|split; lra].
  unfold protect_ends. simpl.
  rewrite decide_True by reflexivity. simpl.
  rewrite decide_True by lra. reflexivity.
Qed.

Lemma py_index_0 {A} (x : A) (l : list A) : py_index (x :: l) 0 = Ok x.
Proof. unfold py_index. simpl. reflexivity. Qed.

Lemma insert_last_snoc {A} (l : list A) (x w : A) :
  <[(length (l ++ [x]) - 1)%nat := w]> (l ++ [x]) = (l ++ [w])%list.
Proof.
  rewrite length_app. simpl length.
  replace (length l + 1 - 1)%nat with (length l + 0)%nat by lia.
  rewrite insert_app_r. reflexivity.
Qed.

(** Away from 0 and 1 the end points are kept. *)
Lemma protect_ends_keeps (all_lambda : list R) (protect_eps : json) (first lst : R) :
  py_index all_lambda 0 = Ok first -> py_index all_lambda (-1) = Ok lst ->
  first <> 0 -> lst <> 1 -> protect_ends all_lambda protect_eps = Ok all_lambda.
Proof.
  intros Hf Hl H0 H1. unfold protect_ends. rewrite Hf. simpl.
  rewrite decide_False by exact H0. simpl. rewrite Hl. simpl.
  rewrite decide_False by exact H1. reflexivity.
Qed.

(** C5 (amended): on a schedule of at least two points, or with a
    [protect_eps] other than 1, a first value that is exactly 0 is
    replaced by [protect_eps], a last value that is exactly 1 by
    [1 - protect_eps], and every other value is kept. *)
Theorem protect_ends_moves_end_points (all_lambda : list R) (protect_eps : json)
    (eps first lst : R) :
  as_float protect_eps = Ok eps ->
  py_index all_lambda 0 = Ok first ->
  py_index all_lambda (-1) = Ok lst ->
  (2 <= length all_lambda)%nat \/ eps <> 1 ->
  exists r,
    protect_ends all_lambda protect_eps = Ok r
    /\ length r = length all_lambda
    /\ (first = 0 -> py_index r 0 = Ok eps)
    /\ (lst = 1 -> py_index r (-1) = Ok (1 - eps))
    /\ forall (i : nat) x, all_lambda !! i = Some x ->
         ~ (i = 0%nat /\ first = 0) ->
         ~ (i = (length all_lambda - 1)%nat /\ lst = 1) ->
         r !! i = Some x.
Proof.
  intros He Hf Hl Hlen.
  destruct all_lambda as [|x0 rest]; [discriminate Hf|].
  rewrite py_index_0 in Hf. injection Hf as Hf. subst x0.
  unfold protect_ends. rewrite py_index_0. simpl "≫=".
  destruct rest as [|x1 rest'].
  - (* one point *)
    unfold py_index in Hl. simpl in Hl. injection Hl as Hl. subst lst.
    destruct Hlen as [Hlen|Hne]; [simpl in Hlen; lia|].
    destruct (decide (first = 0)) as [->|H0].
    + rewrite He. simpl. unfold py_index at 1. simpl.
      rewrite decide_False by lra.
      eexists. split; [reflexivity|]. split; [reflexivity|].
      split; [intros _; unfold py_index; simpl; f_equal; lra|].
      split; [intros H; lra|].
      intros i x Hi H1 H2. destruct i; [|discriminate Hi]. tauto.
    + simpl. unfold py_index at 1. simpl.
      destruct (decide (first = 1)) as [->|H1].
      * rewrite He. simpl. eexists. split; [reflexivity|]. split; [reflexivity|].
        split; [intros H; lra|]. split; [intros _; reflexivity|].
        intros i x Hi _ H2. destruct i; [|discriminate Hi]. simpl in H2. tauto.
      * eexists. split; [reflexivity|]. split; [reflexivity|].
        split; [intros H; lra|]. split; [intros H; lra|].
        intros i x Hi _ _. exact Hi.
  - (* at least two points: the last point is not the first *)
    destruct (py_index_last_inv _ _ Hl) as [l' El].
    destruct l' as [|y0 l'']; [discriminate El|].
    injection El as <- El. rewrite El. clear Hl Hlen.
    assert (Hlast : forall z, py_index (z :: l'' ++ [lst]) (-1) = Ok lst).
    { intros z. apply (py_index_last (z :: l'')). }
    assert (Hset : forall z w,
              <[(length (z :: l'' ++ [lst]) - 1)%nat := w]> (z :: l'' ++ [lst])
              = (z :: l'' ++ [w])%list).
    { intros z w. apply (insert_last_snoc (z :: l'')). }
    assert (Hlen : forall z w, length (z :: l'' ++ [w]) = length (first :: l'' ++ [lst])).
    { intros z w. simpl. rewrite !length_app. reflexivity. }
    assert (Hmid : forall (i : nat) z w x,
              (z :: l'' ++ [lst]) !! S i = Some x ->
              S i <> (length (first :: l'' ++ [lst]) - 1)%nat ->
              (z :: l'' ++ [w]) !! S i = Some x).
    { intros i z w x Hi Hn. simpl in Hi |- *. simpl in Hn.
      rewrite length_app in Hn. simpl in Hn.
      assert (i < length l'')%nat.
      { apply lookup_lt_Some in Hi. rewrite length_app in Hi. simpl in Hi. lia. }
      rewrite lookup_app_l in Hi |- * by assumption. exact Hi. }
    destruct (decide (first = 0)) as [->|H0].
    + rewrite He. cbn [mbind result_bind].
      change (<[0%nat:=0 + eps]> (0 :: l'' ++ [lst])) with (0 + eps :: l'' ++ [lst]).
      rewrite Hlast. cbn [mbind result_bind].
      destruct (decide (lst = 1)) as [->|H1].
      * cbn [mbind result_bind]. rewrite Hset.
        eexists. split; [reflexivity|]. split; [apply Hlen|].
        split; [intros _; rewrite py_index_0; f_equal; lra|].
        split; [intros _; apply (py_index_last (_ :: l''))|].
        intros i x Hi Hn1 Hn2. destruct i as [|i]; [tauto|].
        eapply Hmid; [exact Hi|]. intros Hc. apply Hn2. split; [exact Hc|reflexivity].
      * eexists. split; [reflexivity|]. split; [apply Hlen|].
        split; [intros _; rewrite py_index_0; f_equal; lra|].
        split; [intros H; contradiction|].
        intros i x Hi Hn1 _. destruct i as [|i]; [tauto|]. exact Hi.
    + cbn [mbind result_bind]. rewrite Hlast. cbn [mbind result_bind].
      destruct (decide (lst = 1)) as [->|H1].
      * rewrite He. cbn [mbind result_bind]. rewrite Hset.
        eexists. split; [reflexivity|]. split; [apply Hlen|].
        split; [intros H; contradiction|].
        split; [intros _; apply (py_index_last (_ :: l''))|].
        intros i x Hi _ Hn2. destruct i as [|i]; [exact Hi|].
        eapply Hmid; [exact Hi|]. intros Hc. apply Hn2. split; [exact Hc|reflexivity].
      * eexists. split; [reflexivity|]. split; [reflexivity|].
        split; [intros H; contradiction|]. split; [intros H; contradiction|].
        intros i x Hi _ _. exact Hi.
Qed.

Lemma protect_ends_moves_end_points_witness :
  exists r,
    protect_ends [0; 1 / 2; 1] (JFloat (1 / 100)) = Ok r
    /\ py_index r 0 = Ok (1 / 100)
    /\ py_index r (-1) = Ok (1 - 1 / 100)
    /\ r !! 1%nat = Some (1 / 2).
Proof.
  destruct (protect_ends_moves_end_points [0; 1 / 2; 1] (JFloat (1 / 100))
              (1 / 100) 0 1 eq_refl eq_refl eq_refl)
    as (r & Hr & _ & H0 & H1 & Hm).
  - left. simpl. lia.
  - exists r. split; [exact Hr|]. split; [apply H0; reflexivity|].
    split; [apply H1; reflexivity|].
    apply Hm; [reflexivity|intros [H _]; discriminate H|intros [H _]; discriminate H].
Defined.

End ScheduleFacts.

(** ** The refined schedule and its back map *)

Section RefineFacts.
Local Open Scope list_scope.

Lemma offset_0 (nref : list Z) : offset nref 0 = 0%nat.
Proof. reflexivity. Qed.

Lemma offset_S (nref : list Z) (k : nat) (m : Z) :
  nref !! k = Some m -> offset nref (S k) = (offset nref k + Z.to_nat m)%nat.
Proof.
  intros H. unfold offset. rewrite (take_S_r _ _ _ H), fmap_app.
  rewrite sum_list_with_app. simpl. lia.
Qed.

Lemma offset_lt (nref : list Z) (k s : nat) :
  Forall (fun m => 1 <= m)%Z nref -> (k < s)%nat -> (s <= length nref)%nat ->
  (offset nref k < offset nref s)%nat.
Proof.
  intros Hpos Hk. induction s as [|s IH]; [lia|]. intros Hs.
  destruct (lookup_lt_is_Some_2 nref s) as [m Hm]; [lia|].
  rewrite (offset_S _ _ _ Hm).
  assert (1 <= m)%Z by (eapply Forall_lookup_1 in Hpos; eauto).
  destruct (decide (k = s)) as [->|Hne]; [lia|].
  assert (offset nref k < offset nref s)%nat by (apply IH; lia). lia.
Qed.

Lemma inserted_length (nref : list Z) :
  Forall (fun m => 1 <= m)%Z nref ->
  Z.of_nat (offset nref (length nref)) = (Z.of_nat (length nref) + inserted nref)%Z.
Proof.
  unfold offset, inserted. rewrite firstn_all.
  induction 1 as [|m l Hm Hl IH]; [reflexivity|].
  simpl.
  change (list_fmap Z nat Z.to_nat l) with (Z.to_nat <$> l).
  change (list_fmap Z Z (fun m0 => m0 - 1)%Z l) with ((fun m => m - 1)%Z <$> l).
  lia.
Qed.

Lemma insert_points_app (ti hh : R) (m : Z) (rt : list R) (bm : list Z) :
  exists pts,
    insert_points ti hh m rt bm = (rt ++ pts, bm ++ replicate (Z.to_nat (m - 1)) (-1)%Z)
    /\ length pts = Z.to_nat (m - 1).
Proof.
  unfold insert_points, py_range.
  rewrite <- (length_seqZ 1 (m - 1)).
  generalize (seqZ 1 (m - 1)) as L. intros L. revert rt bm.
  induction L as [|jj L IH]; intros rt bm.
  - exists []. simpl. rewrite !app_nil_r. auto.
  - simpl. destruct (IH (rt ++ [(ti + IZR jj * hh)%R]) (bm ++ [(-1)%Z])) as (pts & E & Hl).
    exists ((ti + IZR jj * hh)%R :: pts). rewrite E, <- !app_assoc. simpl.
    split; [reflexivity|]. lia.
Qed.

(** What the loop has built when it reaches interval [s]. *)
Lemma refine_loop_inv (all_t : list R) (nref : list Z) (len s : nat)
    (rt : list R) (bm : list Z) :
  Forall (fun m => 1 <= m)%Z nref ->
  length nref = (length all_t - 1)%nat ->
  (s + len <= length all_t - 1)%nat ->
  length rt = offset nref s -> length bm = offset nref s ->
  (forall k x, (k < s)%nat -> all_t !! k = Some x ->
     rt !! offset nref k = Some x /\ bm !! offset nref k = Some (Z.of_nat k)) ->
  (forall j b, bm !! j = Some b ->
     b = (-1)%Z \/ exists k, (k < s)%nat /\ b = Z.of_nat k /\ j = offset nref k) ->
  exists rt' bm',
    refine_loop all_t nref (seq s len) rt bm = Ok (rt', bm')
    /\ length rt' = offset nref (s + len) /\ length bm' = offset nref (s + len)
    /\ (forall k x, (k < s + len)%nat -> all_t !! k = Some x ->
          rt' !! offset nref k = Some x /\ bm' !! offset nref k = Some (Z.of_nat k))
    /\ (forall j b, bm' !! j = Some b ->
          b = (-1)%Z \/ exists k, (k < s + len)%nat /\ b = Z.of_nat k /\ j = offset nref k).
Proof.
  intros Hpos Hn. revert s rt bm.
  induction len as [|len IH]; intros s rt bm Hs Hrt Hbm Horig Hsent.
  - rewrite Nat.add_0_r. simpl. eauto 10.
  - simpl.
    destruct (lookup_lt_is_Some_2 all_t s) as [ti Hti]; [lia|].
    destruct (lookup_lt_is_Some_2 all_t (S s)) as [ti1 Hti1]; [lia|].
    destruct (lookup_lt_is_Some_2 nref s) as [m Hm]; [lia|].
    assert (Hm1 : (1 <= m)%Z) by (eapply Forall_lookup_1 in Hpos; eauto).
    rewrite Hti, Hti1, Hm. simpl.
    destruct (insert_points_app ti ((ti1 - ti) / IZR m) m (rt ++ [ti]) (bm ++ [Z.of_nat s]))
      as (pts & -> & Hpts).
    replace (s + S len)%nat with (S s + len)%nat by lia.
    apply IH.
    + lia.
    + rewrite !length_app, Hrt, Hpts, (offset_S _ _ _ Hm). simpl. lia.
    + rewrite !length_app, Hbm, length_replicate, (offset_S _ _ _ Hm). simpl. lia.
    + intros k x Hk Hx. destruct (decide (k = s)) as [->|Hne].
      * rewrite Hti in Hx. injection Hx as <-.
        rewrite <- !app_assoc. split.
        -- rewrite <- Hrt. rewrite lookup_app_r by lia.
           rewrite Nat.sub_diag. reflexivity.
        -- rewrite <- Hbm. rewrite lookup_app_r by lia.
           rewrite Nat.sub_diag. reflexivity.
      * destruct (Horig k x ltac:(lia) Hx) as [H1 H2].
        assert (offset nref k < offset nref s)%nat by (apply offset_lt; [assumption|lia|lia]).
        rewrite <- !app_assoc. rewrite !lookup_app_l by lia. auto.
    + intros j b Hj. rewrite <- app_assoc in Hj.
      apply lookup_app_Some in Hj as [Hj|[Hge Hj]].
      * destruct (Hsent j b Hj) as [->|(k & Hk & -> & ->)]; [left; reflexivity|].
        right. exists k. split; [lia|auto].
      * destruct (decide (j = length bm)) as [->|Hne].
        -- rewrite Nat.sub_diag in Hj. injection Hj as <-.
           right. exists s. split; [lia|]. split; [reflexivity|]. exact Hbm.
        -- left. destruct (j - length bm)%nat as [|i] eqn:Ei; [lia|].
           simpl in Hj. apply lookup_replicate_1 in Hj as [-> _]. reflexivity.
Qed.

(** C6: for a schedule of [n >= 1] points and sub-interval counts
    [m_i >= 1] for its [n - 1] intervals, the refined schedule has
    [n + sum (m_i - 1)] points and a back map of the same length; the
    original point [k] is found at position [offset k] with back-map
    entry [k]; every other position has the back-map entry [-1]. *)
Theorem refine_schedule_back_map (all_t : list R) (interval_nrefine : list Z) :
  (1 <= length all_t)%nat ->
  length interval_nrefine = (length all_t - 1)%nat ->
  Forall (fun m => 1 <= m)%Z interval_nrefine ->
  exists refined_t back_map,
    refine_schedule all_t interval_nrefine = Ok (refined_t, back_map)
    /\ Z.of_nat (length refined_t)
        = (Z.of_nat (length all_t) + inserted interval_nrefine)%Z
    /\ length back_map = length refined_t
    /\ (forall k x, all_t !! k = Some x ->
          refined_t !! offset interval_nrefine k = Some x
          /\ back_map !! offset interval_nrefine k = Some (Z.of_nat k))
    /\ (forall j b, back_map !! j = Some b ->
          (forall k, (k < length all_t)%nat -> j <> offset interval_nrefine k) ->
          b = (-1)%Z).
Proof.
  intros Hn Hlen Hpos. unfold refine_schedule.
  destruct (refine_loop_inv all_t interval_nrefine (length all_t - 1) 0 [] []
              Hpos Hlen ltac:(lia) eq_refl eq_refl)
    as (rt & bm & -> & Hrt & Hbm & Horig & Hsent).
  { intros k x Hk. lia. }
  { intros j b Hj. discriminate Hj. }
  simpl in Hrt, Hbm, Horig, Hsent. simpl "≫=".
  destruct (lookup_lt_is_Some_2 all_t (length all_t - 1)) as [tl Htl]; [lia|].
  assert (Hidx : py_index all_t (-1) = Ok tl).
  { unfold py_index. rewrite decide_False by lia. rewrite decide_True by lia.
    replace (Z.to_nat (Z.of_nat (length all_t) + -1)) with (length all_t - 1)%nat by lia.
    rewrite Htl. reflexivity. }
  rewrite Hidx. simpl "≫=". eexists _, _. split; [reflexivity|].
  split; [|split; [|split]].
  - rewrite length_app, Hrt. simpl length.
    rewrite <- Hlen, Nat2Z.inj_add, inserted_length by assumption. lia.
  - rewrite !length_app, Hrt, Hbm. reflexivity.
  - intros k x Hx. assert (k < length all_t)%nat by (eapply lookup_lt_Some; eauto).
    destruct (decide (k = length all_t - 1)%nat) as [->|Hne].
    + rewrite Htl in Hx. injection Hx as <-.
      split.
      * rewrite <- Hrt. rewrite lookup_app_r by lia.
        rewrite Nat.sub_diag. reflexivity.
      * rewrite <- Hbm. rewrite lookup_app_r by lia.
        rewrite Nat.sub_diag. simpl. f_equal. lia.
    + destruct (Horig k x ltac:(lia) Hx) as [H1 H2].
      assert (offset interval_nrefine k < offset interval_nrefine (length all_t - 1))%nat
        by (apply offset_lt; [assumption|lia|lia]).
      rewrite !lookup_app_l by lia. auto.
  - intros j b Hj Hnew.
    apply lookup_app_Some in Hj as [Hj|[Hge Hj]].
    + destruct (Hsent j b Hj) as [->|(k & Hk & -> & ->)]; [reflexivity|].
      exfalso. apply (Hnew k); [lia|reflexivity].
    + exfalso. apply (Hnew (length all_t - 1)%nat); [lia|].
      apply list_lookup_singleton_Some in Hj as [Hj _]. lia.
Qed.

Lemma refine_schedule_back_map_witness :
  exists refined_t back_map,
    refine_schedule [0.2; 0.4; 0.8]%R [1; 2]%Z = Ok (refined_t, back_map)
    /\ length refined_t = 4%nat
    /\ back_map !! 0%nat = Some 0%Z /\ back_map !! 1%nat = Some 1%Z
    /\ back_map !! 2%nat = Some (-1)%Z /\ back_map !! 3%nat = Some 2%Z.
Proof.
  destruct (refine_schedule_back_map [0.2; 0.4; 0.8]%R [1; 2]%Z)
    as (rt & bm & E & Hlen & Hbl & Horig & Hsent).
  - simpl. lia.
  - reflexivity.
  - repeat constructor; lia.
  - exists rt, bm. split; [exact E|].
    change (inserted [1; 2]%Z) with 1%Z in Hlen. simpl in Hlen.
    assert (L : length rt = 4%nat) by (clear - Hlen; lia).
    split; [exact L|].
    split; [apply (Horig 0%nat 0.2%R eq_refl)|].
    split; [apply (Horig 1%nat 0.4%R eq_refl)|].
    split; [|apply (Horig 2%nat 0.8%R eq_refl)].
    destruct (lookup_lt_is_Some_2 bm 2) as [b Hb]; [lia|].
    rewrite Hb. f_equal. apply (Hsent 2%nat b Hb).
    intros k Hk. simpl in Hk.
    destruct k as [|[|[|k]]]; [discriminate|discriminate|discriminate|lia].
Defined.

End RefineFacts.

(** ** Effects on the file system *)

Section PathFacts.

Lemma string_app_assoc (a b c : string) : (a +:+ b) +:+ c = a +:+ b +:+ c.
Proof.
  induction a as [|x a IH]; [reflexivity|].
  change (String x ((a +:+ b) +:+ c) = String x (a +:+ b +:+ c)).
  f_equal. exact IH.
Qed.

Lemma join_rel (d n : string) : isabs n = false -> join d n = d +:+ "/" +:+ n.
Proof. intros H. unfold join. rewrite H. reflexivity. Qed.

Lemma under_join (d n : string) : isabs n = false -> under d (join d n).
Proof. intros H. exists n. apply join_rel, H. Qed.

Lemma under_trans (a b c : string) : under a b -> under b c -> under a c.
Proof.
  intros [r1 ->] [r2 ->]. exists (r1 +:+ "/" +:+ r2).
  rewrite !string_app_assoc. reflexivity.
Qed.

Lemma join_inj (d a b : string) :
  isabs a = false -> isabs b = false -> join d a = join d b -> a = b.
Proof.
  intros Ha Hb. rewrite !join_rel by assumption. intros E.
  apply (inj (String.append d)) in E. apply (inj (String.append "/")) in E.
  exact E.
Qed.

Lemma task_name_rel (idx : nat) : isabs (task_name idx) = false.
Proof. reflexivity. Qed.

(** A path below a [task.*] directory of [d]. *)
Lemma under_in_task_dir (d x p : string) :
  in_task_dir d x -> under x p -> in_task_dir d p.
Proof.
  intros [rest ->] [r ->]. exists (rest +:+ "/" +:+ r).
  rewrite !string_app_assoc. reflexivity.
Qed.

Lemma task_name_in_task_dir (d : string) (idx : nat) :
  in_task_dir d (join d (task_name idx)).
Proof. exists (fmt_06d idx). reflexivity. Qed.

Lemma in_task_dir_not_in_json (d p : string) :
  in_task_dir d p -> p <> join d "in.json".
Proof.
  intros [r ->] E. rewrite join_rel in E by reflexivity.
  apply (inj (String.append d)) in E. apply (inj (String.append "/")) in E.
  discriminate E.
Qed.

Lemma footprint_under (d p : string) : one_step_footprint d p -> under d p.
Proof.
  intros [->|[->|[->|[r ->]]]]; try (apply under_join; reflexivity).
  exists ("task." +:+ r). reflexivity.
Qed.

(** Nothing of the footprint lies in a stage directory of the other
    protocols. *)
Lemma footprint_not_subdir (d sub p : string) :
  sub ∈ stage_subdirs -> under (join d sub) p -> ~ one_step_footprint d p.
Proof.
  intros Hsub [r ->] Hf.
  assert (Hj : exists c s', (c = "0" \/ c = "1")%char
             /\ join d sub +:+ "/" +:+ r = d +:+ "/" +:+ String c s').
  { unfold stage_subdirs in Hsub.
    repeat (apply elem_of_cons in Hsub as [->|Hsub]);
      [..|apply elem_of_nil in Hsub; contradiction];
      rewrite join_rel by reflexivity; rewrite !string_app_assoc;
      simpl; eexists _, _; (split; [|reflexivity]); auto. }
  destruct Hj as (c & s' & Hc & E). rewrite E in Hf.
  destruct Hf as [Hf|[Hf|[Hf|[r' Hf]]]];
    try rewrite join_rel in Hf by reflexivity;
    apply (inj (String.append d)) in Hf;
    apply (inj (String.append "/")) in Hf;
    injection Hf as Hf _; destruct Hc; congruence.
Qed.

End PathFacts.

(** ** The names of the task directories *)

Section NameFacts.

Lemma digits_value_app (acc : nat) (a b : string) :
  digits_value acc (a +:+ b) = digits_value (digits_value acc a) b.
Proof.
  revert acc. induction a as [|c a IH]; intros acc; [reflexivity|].
  cbn [String.append digits_value]. apply IH.
Qed.

Lemma digits_value_digit (acc n : nat) :
  digits_value acc (digit n) = (10 * acc + n mod 10)%nat.
Proof.
  unfold digit. cbn [digits_value].
  rewrite nat_ascii_embedding.
  - lia.
  - pose proof (Nat.mod_upper_bound n 10). lia.
Qed.

Lemma digits_value_decimal (fuel n : nat) :
  (n < fuel)%nat -> digits_value 0 (decimal fuel n) = n.
Proof.
  revert n. induction fuel as [|fuel IH]; intros n Hn; [lia|].
  cbn [decimal]. case_decide as Hd.
  - rewrite digits_value_digit. rewrite Nat.mod_small by lia. lia.
  - rewrite digits_value_app, digits_value_digit, IH.
    + pose proof (Nat.div_mod_eq n 10). lia.
    + assert (n / 10 < n)%nat by (apply Nat.div_lt; lia). lia.
Qed.

Lemma digits_value_zeros (k : nat) : digits_value 0 (zeros k) = 0%nat.
Proof. induction k as [|k IH]; [reflexivity|]. exact IH. Qed.

Lemma digits_value_fmt_06d (idx : nat) : digits_value 0 (fmt_06d idx) = idx.
Proof.
  unfold fmt_06d. cbv zeta.
  rewrite digits_value_app, digits_value_zeros.
  apply digits_value_decimal. lia.
Qed.

Lemma fmt_06d_inj (i j : nat) : fmt_06d i = fmt_06d j -> i = j.
Proof.
  intros E. rewrite <- (digits_value_fmt_06d i), <- (digits_value_fmt_06d j), E.
  reflexivity.
Qed.

Lemma task_name_eq (i j : nat) : task_name i = task_name j -> i = j.
Proof.
  unfold task_name. intros E. apply (inj (String.append "task.")) in E.
  apply fmt_06d_inj, E.
Qed.

(** X9: tasks of different numbers get different directory names,
    also beyond the six digits of the format. *)
Theorem task_name_inj (i j : nat) : i <> j -> task_name i <> task_name j.
Proof. intros Hne E. apply Hne, task_name_eq, E. Qed.

Lemma task_name_inj_witness : task_name 7 <> task_name 12.
Proof. apply task_name_inj. lia. Defined.

Lemma no_sep_app (a b : string) : no_sep a -> no_sep b -> no_sep (a +:+ b).
Proof.
  induction a as [|c a IH]; intros Ha Hb; [exact Hb|].
  destruct Ha as [Hc Ha]. split; [exact Hc|]. apply IH; assumption.
Qed.

Lemma no_sep_digit (n : nat) : no_sep (digit n).
Proof.
  unfold digit. split; [|exact I]. intros E.
  apply (f_equal nat_of_ascii) in E. rewrite nat_ascii_embedding in E.
  - change (nat_of_ascii "/") with 47%nat in E. lia.
  - pose proof (Nat.mod_upper_bound n 10). lia.
Qed.

Lemma no_sep_decimal (fuel n : nat) : no_sep (decimal fuel n).
Proof.
  revert n. induction fuel as [|fuel IH]; intros n; [exact I|].
  cbn [decimal]. case_decide; [apply no_sep_digit|].
  apply no_sep_app; [apply IH|apply no_sep_digit].
Qed.

Lemma no_sep_zeros (k : nat) : no_sep (zeros k).
Proof. induction k as [|k IH]; [exact I|]. split; [discriminate|exact IH]. Qed.

Lemma no_sep_task_name (idx : nat) : no_sep (task_name idx).
Proof.
  unfold task_name, fmt_06d.
  apply (no_sep_app "task."); [repeat split; discriminate|].
  apply no_sep_app; [apply no_sep_zeros|apply no_sep_decimal].
Qed.

(** Two names without separator that are followed by a separator in the
    same string are the same name. *)
Lemma no_sep_cut (a b r1 r2 : string) :
  no_sep a -> no_sep b -> a +:+ "/" +:+ r1 = b +:+ "/" +:+ r2 -> a = b.
Proof.
  revert b. induction a as [|c a IH]; intros b Ha Hb E.
  - destruct b as [|c' b]; [reflexivity|].
    injection E as E _. destruct Hb as [Hc _]. congruence.
  - destruct b as [|c' b].
    + injection E as E _. destruct Ha as [Hc _]. congruence.
    + injection E as -> E. f_equal.
      destruct Ha as [_ Ha], Hb as [_ Hb]. eapply IH; eassumption.
Qed.

(** The task directories of a stage are disjoint. *)
Lemma task_dirs_apart (d : string) (i j : nat) (p : string) :
  under (join d (task_name i)) p -> under (join d (task_name j)) p -> i = j.
Proof.
  intros [r1 ->] [r2 E]. rewrite !join_rel in E by apply task_name_rel.
  rewrite !string_app_assoc in E.
  apply (inj (String.append d)) in E. apply (inj (String.append "/")) in E.
  apply task_name_eq.
  eapply no_sep_cut; [apply no_sep_task_name|apply no_sep_task_name|exact E].
Qed.

End NameFacts.

Section IoFacts.

Lemma io_bind_Ok {A B} (m : io A) (f : A -> io B) (fs fs' : gmap string file) (b : B) :
  (m ≫= f) fs = (Ok b, fs') ->
  exists a fs1, m fs = (Ok a, fs1) /\ f a fs1 = (Ok b, fs').
Proof.
  unfold mbind, io_bind. destruct (m fs) as [[a|ex] fs1]; [eauto|discriminate].
Qed.

Lemma io_bind_eq {A B} (m : io A) (f : A -> io B) (fs fs1 : gmap string file) (a : A) :
  m fs = (Ok a, fs1) -> (m ≫= f) fs = f a fs1.
Proof. intros H. unfold mbind, io_bind. rewrite H. reflexivity. Qed.

Lemma io_bind_assoc {A B C} (m : io A) (f : A -> io B) (g : B -> io C)
    (fs : gmap string file) :
  ((m ≫= f) ≫= g) fs = (m ≫= (fun a => f a ≫= g)) fs.
Proof. unfold mbind, io_bind. destruct (m fs) as [[a|ex] fs1]; reflexivity. Qed.

Lemma bind_Ok_eq {A B} (m : result A) (f : A -> result B) (a : A) :
  m = Ok a -> m ≫= f = f a.
Proof. intros ->. reflexivity. Qed.

Lemma lift_Ok {A} (r : result A) (fs fs' : gmap string file) (a : A) :
  lift r fs = (Ok a, fs') -> r = Ok a /\ fs' = fs.
Proof. unfold lift. intros [= -> ->]. auto. Qed.

Lemma result_bind_Ok {A B} (m : result A) (f : A -> result B) (b : B) :
  m ≫= f = Ok b -> exists a, m = Ok a /\ f a = Ok b.
Proof. destruct m as [a|ex]; simpl; [eauto|discriminate]. Qed.

Lemma writes_in_run {A} (P : string -> Prop) (m : io A)
    (fs fs' : gmap string file) (r : result A) (p : string) :
  writes_in P m -> m fs = (r, fs') -> ~ P p -> fs' !! p = fs !! p.
Proof. intros Hm E Hp. specialize (Hm fs p Hp). rewrite E in Hm. exact Hm. Qed.

Lemma writes_in_mono {A} (P Q : string -> Prop) (m : io A) :
  (forall p, P p -> Q p) -> writes_in P m -> writes_in Q m.
Proof. intros HPQ Hm fs p Hp. apply Hm. intros HP. apply Hp, HPQ, HP. Qed.

Lemma writes_in_reads_only {A} (P : string -> Prop) (m : io A) :
  reads_only m -> writes_in P m.
Proof. intros Hm fs p _. rewrite Hm. reflexivity. Qed.

Lemma writes_in_bind {A B} (P : string -> Prop) (m : io A) (f : A -> io B) :
  writes_in P m -> (forall a, writes_in P (f a)) -> writes_in P (m ≫= f).
Proof.
  intros Hm Hf fs p Hp. specialize (Hm fs p Hp).
  unfold mbind, io_bind. destruct (m fs) as [[a|ex] fs1]; simpl in *.
  - rewrite (Hf a fs1 p Hp). exact Hm.
  - exact Hm.
Qed.

Lemma reads_only_bind {A B} (m : io A) (f : A -> io B) :
  reads_only m -> (forall a, reads_only (f a)) -> reads_only (m ≫= f).
Proof.
  intros Hm Hf fs. specialize (Hm fs).
  unfold mbind, io_bind. destruct (m fs) as [[a|ex] fs1]; simpl in *.
  - rewrite (Hf a fs1). exact Hm.
  - exact Hm.
Qed.

Lemma reads_only_ret {A} (a : A) : reads_only (mret a : io A).
Proof. intros fs. reflexivity. Qed.

Lemma reads_only_lift {A} (r : result A) : reads_only (lift r).
Proof. intros fs. reflexivity. Qed.

Lemma reads_only_isfile (p : string) : reads_only (isfile p).
Proof. intros fs. reflexivity. Qed.

Lemma reads_only_read_file (p : string) : reads_only (read_file p).
Proof. intros fs. reflexivity. Qed.

Lemma reads_only_json_load (p : string) : reads_only (json_load p).
Proof.
  apply reads_only_bind; [apply reads_only_read_file|].
  intros []; first [apply reads_only_ret | apply reads_only_lift].
Qed.

Lemma reads_only_loadtxt (p : string) : reads_only (loadtxt_columns01 p).
Proof.
  apply reads_only_bind; [apply reads_only_read_file|].
  intros []; try apply reads_only_lift.
  case_decide; [apply reads_only_lift|].
  apply reads_only_bind; [apply reads_only_lift|]. intros c0.
  apply reads_only_bind; [apply reads_only_lift|]. intros c1.
  apply reads_only_ret.
Qed.

Lemma writes_in_write_file (P : string -> Prop) (p : string) (f : file) :
  P p -> writes_in P (write_file p f).
Proof.
  intros HP fs q Hq. unfold write_file. simpl.
  apply lookup_insert_ne. intros ->. contradiction.
Qed.

Lemma writes_in_copyfile (P : string -> Prop) (src dst : string) :
  P dst -> writes_in P (copyfile src dst).
Proof.
  intros HP. unfold copyfile.
  case_decide; [apply writes_in_reads_only, reads_only_lift|].
  apply writes_in_bind.
  - apply writes_in_reads_only, reads_only_read_file.
  - intros f. apply writes_in_write_file, HP.
Qed.

Lemma writes_in_symlink (P : string -> Prop) (target p : string) :
  P p -> writes_in P (symlink target p).
Proof.
  intros HP fs q Hq. unfold symlink. destruct (fs !! p); simpl; [reflexivity|].
  apply lookup_insert_ne. intros ->. contradiction.
Qed.

Lemma writes_in_place (P : string -> Prop) (link : bool) (src dst : string) :
  P dst -> writes_in P (place link src dst).
Proof.
  intros HP. destruct link; [apply writes_in_symlink|apply writes_in_copyfile]; exact HP.
Qed.

End IoFacts.

Ltac writes_step :=
  first
    [ apply writes_in_bind; [|intro]
    | apply writes_in_reads_only;
      first [ apply reads_only_lift | apply reads_only_ret | apply reads_only_isfile
            | apply reads_only_read_file | apply reads_only_json_load
            | apply reads_only_loadtxt ]
    | apply writes_in_write_file
    | apply writes_in_copyfile
    | apply writes_in_symlink
    | apply writes_in_place
    | match goal with
      | |- writes_in _ (match ?x with _ => _ end) => destruct x
      end ].

Section GenerationFacts.

Variable create_path : string -> io unit.
Variable parse_seq : json -> result (list R).
Variable _gen_lammps_input :
  gmap string json -> R -> string -> string -> string -> nat -> result string.
Variable _gen_lammps_input_ideal :
  gmap string json -> R -> string -> nat -> result string.
Variable compute_nrefine : list R -> list R -> R -> result (list Z).
Variable get_task_file_abspath : string -> string -> string.
Variable glob_tasks : gmap string file -> string -> list string.

(** What is assumed of the two collaborators that touch directories:
    [create_path d] changes nothing outside [d], and the glob returns
    [task.*] entries of the directory it is given, no one below
    another. *)
Hypothesis create_path_under : forall d, writes_in (under d) (create_path d).
Hypothesis glob_tasks_pattern :
  forall fs d x, x ∈ glob_tasks fs d -> in_task_dir d x.
Hypothesis glob_tasks_disjoint :
  forall fs d, disjoint_dirs (glob_tasks fs d).

Local Abbreviation make_task_dirs' :=
  (make_task_dirs create_path _gen_lammps_input _gen_lammps_input_ideal).
Local Abbreviation _make_tasks' :=
  (_make_tasks create_path parse_seq _gen_lammps_input _gen_lammps_input_ideal).
Local Abbreviation make_tasks' :=
  (make_tasks create_path parse_seq _gen_lammps_input _gen_lammps_input_ideal).
Local Abbreviation refine_task' :=
  (refine_task create_path parse_seq _gen_lammps_input _gen_lammps_input_ideal
               compute_nrefine get_task_file_abspath glob_tasks).

Lemma make_task_dirs_writes (iter_name : string) (jdata : gmap string json)
    (ref : json) (switch step : string) (langevin : bool) (idx : nat)
    (all_lambda : list R) :
  writes_in (in_task_dir iter_name)
    (make_task_dirs' iter_name jdata ref switch step langevin idx all_lambda).
Proof.
  revert idx. induction all_lambda as [|ii rest IH]; intros idx; simpl.
  - apply writes_in_reads_only, reads_only_ret.
  - pose proof (task_name_in_task_dir iter_name idx) as Hd.
    repeat writes_step; try apply IH.
    + eapply writes_in_mono; [|apply create_path_under].
      intros p. apply under_in_task_dir, Hd.
    + eapply under_in_task_dir; [exact Hd|]. apply under_join. reflexivity.
    + eapply under_in_task_dir; [exact Hd|]. apply under_join. reflexivity.
    + eapply under_in_task_dir; [exact Hd|]. apply under_join. reflexivity.
    + eapply under_in_task_dir; [exact Hd|]. apply under_join. reflexivity.
Qed.

Lemma in_task_dir_under (d p : string) : in_task_dir d p -> under d p.
Proof. intros [r ->]. exists ("task." +:+ r). reflexivity. Qed.

Lemma _make_tasks_writes (cwd iter_name : string) (jdata : gmap string json)
    (ref : json) (switch step : string) (link : bool) :
  writes_in (under iter_name) (_make_tasks' cwd iter_name jdata ref switch step link).
Proof.
  unfold _make_tasks. repeat writes_step.
  - apply create_path_under.
  - apply under_join. reflexivity.
  - apply under_join. reflexivity.
  - apply under_join. reflexivity.
  - eapply writes_in_mono; [|apply make_task_dirs_writes]. apply in_task_dir_under.
Qed.

Lemma make_tasks_writes (cwd iter_name : string) (jdata : gmap string json)
    (ref : json) (switch : string) :
  writes_in (under iter_name) (make_tasks' cwd iter_name jdata ref switch).
Proof.
  assert (Hsub : forall sub cwd' jd step link, isabs sub = false ->
            writes_in (under iter_name)
              (_make_tasks' cwd' (join iter_name sub) jd ref switch step link)).
  { intros sub cwd' jd step link Hs.
    eapply writes_in_mono; [|apply _make_tasks_writes].
    intros p. apply under_trans, under_join, Hs. }
  unfold make_tasks.
  repeat first
    [ apply _make_tasks_writes | apply Hsub; reflexivity
    | apply create_path_under | apply under_join; reflexivity
    | case_decide | writes_step ].
Qed.

Lemma copy_back_writes (to_task : string) (from_task_list : list string)
    (back_map : list Z) (ii : nat) (to_tasks : list string) :
  (forall d, d ∈ to_tasks -> in_task_dir to_task d) ->
  writes_in (in_task_dir to_task)
    (copy_back from_task_list back_map ii to_tasks).
Proof.
  revert ii. induction to_tasks as [|to_dir rest IH]; intros ii Hin; simpl.
  - apply writes_in_reads_only, reads_only_ret.
  - assert (Hd : in_task_dir to_task to_dir) by (apply Hin; left).
    repeat writes_step; try case_decide; repeat writes_step;
      try (apply IH; intros d Hdr; apply Hin; right; exact Hdr);
      try (eapply under_in_task_dir; [exact Hd|]; apply under_join; reflexivity).
Qed.

Lemma writes_in_bind_glob {B} (P : string -> Prop) (d : string)
    (f : list string -> io B) :
  (forall l, (forall x, x ∈ l -> in_task_dir d x) -> writes_in P (f l)) ->
  writes_in P (glob_sorted glob_tasks d ≫= f).
Proof.
  intros Hf fs p Hp. unfold mbind, io_bind, glob_sorted.
  apply Hf; [|exact Hp]. intros x. apply glob_tasks_pattern.
Qed.

(** Whatever its outcome, [refine_task] changes nothing outside the
    directory of the refined stage. *)
Lemma refine_task_writes (cwd from_task to_task : string) (err : R)
    (print_ref : bool) :
  writes_in (under to_task) (refine_task' cwd from_task to_task err print_ref).
Proof.
  unfold refine_task.
  repeat first
    [ apply make_tasks_writes
    | apply writes_in_bind_glob; intros ? ?
    | writes_step ].
  eapply writes_in_mono; [|apply copy_back_writes; eassumption].
  apply in_task_dir_under.
Qed.

Lemma reads_only_Ok {A} (m : io A) (fs fs' : gmap string file) (r : result A) :
  reads_only m -> m fs = (r, fs') -> fs' = fs.
Proof. intros Hm E. specialize (Hm fs). rewrite E in Hm. exact Hm. Qed.

(** What a successful run of [refine_task] went through. *)
Lemma refine_task_Ok (cwd from_task to_task : string) (err : R)
    (fs fs' : gmap string file) :
  refine_task' cwd from_task to_task err false fs = (Ok tt, fs') ->
  exists all_t integrand nref refined_t back_map to_jdata ref jd fs2,
    is_Some (fs !! join from_task "hti.out")
    /\ loadtxt_columns01 (join from_task "hti.out") fs = (Ok (all_t, integrand), fs)
    /\ compute_nrefine all_t integrand err = Ok nref
    /\ refine_schedule all_t nref = Ok (refined_t, back_map)
    /\ to_jdata !! "lambda" = Some (JList (JFloat <$> refined_t))
    /\ make_tasks' cwd to_task to_jdata ref "one-step" fs = (Ok jd, fs2)
    /\ length (glob_tasks fs2 from_task) = length all_t
    /\ length (glob_tasks fs2 to_task) = length refined_t
    /\ copy_back (glob_tasks fs2 from_task) back_map 0 (glob_tasks fs2 to_task) fs2
       = (Ok tt, fs').
Proof.
  unfold refine_task. intros H.
  apply io_bind_Ok in H as (found & fs0 & Hfound & H).
  unfold isfile in Hfound. injection Hfound as <- <-.
  destruct (bool_decide (is_Some (fs !! join from_task "hti.out"))) eqn:Hf;
    [|discriminate H].
  apply bool_decide_eq_true in Hf. simpl in H.
  apply io_bind_Ok in H as ([all_t integrand] & fs0 & Hload & H).
  pose proof (reads_only_Ok _ _ _ _ (reads_only_loadtxt _) Hload) as ->.
  apply io_bind_Ok in H as (nref & fs0 & Hn & H). apply lift_Ok in Hn as [Hn ->].
  apply io_bind_Ok in H as ([refined_t back_map] & fs0 & Hr & H).
  apply lift_Ok in Hr as [Hr ->].
  apply io_bind_Ok in H as (from_jdata & fs0 & Hj & H).
  pose proof (reads_only_Ok _ _ _ _ (reads_only_json_load _) Hj) as ->.
  apply io_bind_Ok in H as (ec & fs0 & He & H). apply lift_Ok in He as [He ->].
  apply io_bind_Ok in H as (ecs & fs0 & Hes & H). apply lift_Ok in Hes as [Hes ->].
  apply io_bind_Ok in H as (md & fs0 & Hm & H). apply lift_Ok in Hm as [Hm ->].
  apply io_bind_Ok in H as (mds & fs0 & Hms & H). apply lift_Ok in Hms as [Hms ->].
  apply io_bind_Ok in H as (ref & fs0 & Href & H). apply lift_Ok in Href as [Href ->].
  apply io_bind_Ok in H as (jd & fs2 & Hmk & H).
  apply io_bind_Ok in H as (from_list & fs0 & Hg1 & H).
  unfold glob_sorted in Hg1. injection Hg1 as <- <-.
  apply io_bind_Ok in H as (to_list & fs0 & Hg2 & H).
  unfold glob_sorted in Hg2. injection Hg2 as <- <-.
  destruct (bool_decide (length (glob_tasks fs2 from_task) = length all_t)) eqn:Hl1;
    [|discriminate H].
  destruct (bool_decide (length (glob_tasks fs2 to_task) = length refined_t)) eqn:Hl2;
    [|discriminate H].
  apply bool_decide_eq_true in Hl1, Hl2. simpl in H.
  eexists all_t, integrand, nref, refined_t, back_map, _, ref, jd, fs2.
  repeat split; try eassumption.
  rewrite !lookup_insert_ne by discriminate. apply lookup_insert_eq.
Qed.

Lemma make_tasks_one_step (cwd iter_name : string) (jdata jd : gmap string json)
    (ref : json) (fs fs2 : gmap string file) :
  make_tasks' cwd iter_name jdata ref "one-step" fs = (Ok jd, fs2) ->
  _make_tasks' cwd iter_name jdata ref "one-step" "both" false fs = (Ok jd, fs2).
Proof.
  unfold make_tasks. intros H.
  apply io_bind_Ok in H as (ec & fs0 & He & H). apply lift_Ok in He as [He ->].
  apply io_bind_Ok in H as (ecs & fs0 & Hes & H). apply lift_Ok in Hes as [Hes ->].
  apply io_bind_Ok in H as (md & fs0 & Hm & H). apply lift_Ok in Hm as [Hm ->].
  apply io_bind_Ok in H as (mds & fs0 & Hms & H). apply lift_Ok in Hms as [Hms ->].
  rewrite decide_True in H by reflexivity. exact H.
Qed.

Lemma task_config_Ok (cwd : string) (jdata jd : gmap string json) (ref : json)
    (switch step : string) (all_lambda : list R) (ec model : string) :
  task_config parse_seq cwd jdata ref switch step = Ok (jd, all_lambda, ec, model) ->
  jd !! "switch" = Some (JStr switch) /\ jd !! "step" = Some (JStr step)
  /\ jd !! "lambda" = jdata !! "lambda"
  /\ exists key spec raw eps,
       schedule_key switch step = Ok key /\ jdata !! key = Some spec
       /\ parse_seq spec = Ok raw /\ protect_ends raw eps = Ok all_lambda.
Proof.
  unfold task_config. intros H.
  set (jdata0 := if decide (is_Some (jdata !! "crystal")) then jdata
                 else <["crystal" := JStr "vega"]> jdata) in H.
  assert (Hj0 : forall k, k <> "crystal" -> jdata0 !! k = jdata !! k).
  { intros k Hk. subst jdata0. case_decide; [reflexivity|].
    apply lookup_insert_ne. congruence. }
  assert (Hj1 : forall k v, jdata0 !! k = Some v -> k = "crystal" \/ jdata !! k = Some v).
  { intros k v Hv. destruct (decide (k = "crystal")) as [->|Hk]; [auto|].
    right. rewrite <- Hj0 by exact Hk. exact Hv. }
  apply result_bind_Ok in H as (eps & He & H).
  apply result_bind_Ok in H as (key & Hk & H).
  apply result_bind_Ok in H as (spec & Hs & H).
  apply result_bind_Ok in H as (raw & Hp & H).
  apply result_bind_Ok in H as (lam & Hl & H).
  do 10 (apply result_bind_Ok in H as (? & _ & H)).
  injection H as <- <- _ _.
  split; [|split; [|split]].
  - rewrite !lookup_insert_ne by discriminate. apply lookup_insert_eq.
  - rewrite !lookup_insert_ne by discriminate. apply lookup_insert_eq.
  - rewrite !lookup_insert_ne by discriminate. apply Hj0. discriminate.
  - exists key, spec, raw, eps. split; [exact Hk|]. split; [|auto].
    unfold getitem in Hs. destruct (jdata0 !! key) as [v|] eqn:Ev; [|discriminate Hs].
    injection Hs as ->.
    destruct (Hj1 _ _ Ev) as [->|Hv]; [|exact Hv].
    exfalso. unfold schedule_key in Hk. repeat case_decide; discriminate Hk.
Qed.

Lemma _make_tasks_Ok (cwd iter_name : string) (jdata jd : gmap string json)
    (ref : json) (switch step : string) (link : bool) (fs fs2 : gmap string file) :
  _make_tasks' cwd iter_name jdata ref switch step link fs = (Ok jd, fs2) ->
  (exists all_lambda ec model,
     task_config parse_seq cwd jdata ref switch step = Ok (jd, all_lambda, ec, model))
  /\ fs2 !! join iter_name "in.json" = Some (FJson jd)
  /\ forall p, ~ one_step_footprint iter_name p ->
       fs2 !! p = (create_path iter_name fs).2 !! p.
Proof.
  unfold _make_tasks. intros H.
  apply io_bind_Ok in H as ([[[jd' all_lambda] ec] model] & fs0 & Hc & H).
  apply lift_Ok in Hc as [Hc ->].
  apply io_bind_Ok in H as ([] & fs1 & Hcp & H).
  apply io_bind_Ok in H as ([] & fsa & Hp1 & H).
  apply io_bind_Ok in H as ([] & fsb & Hp2 & H).
  apply io_bind_Ok in H as ([] & fsc & Hw & H).
  apply io_bind_Ok in H as ([] & fsd & Hmt & H).
  injection H as <- <-.
  unfold write_file in Hw. injection Hw as <-.
  assert (F1 : forall p, ~ in_task_dir iter_name p ->
            fsd !! p = <[join iter_name "in.json" := FJson jd']> fsb !! p).
  { intros p Hp.
    eapply writes_in_run; [apply make_task_dirs_writes|exact Hmt|exact Hp]. }
  assert (F2 : forall p, p <> join iter_name "graph.pb" -> fsb !! p = fsa !! p).
  { intros p Hp.
    eapply (writes_in_run (fun q => q = join iter_name "graph.pb"));
      [apply writes_in_place; reflexivity|exact Hp2|exact Hp]. }
  assert (F3 : forall p, p <> join iter_name "conf.lmp" -> fsa !! p = fs1 !! p).
  { intros p Hp.
    eapply (writes_in_run (fun q => q = join iter_name "conf.lmp"));
      [apply writes_in_place; reflexivity|exact Hp1|exact Hp]. }
  split; [eauto|]. split.
  - rewrite F1.
    + apply lookup_insert_eq.
    + intros Hin. apply in_task_dir_not_in_json in Hin. congruence.
  - intros p Hp. rewrite Hcp. simpl.
    unfold one_step_footprint in Hp.
    rewrite F1 by tauto. rewrite lookup_insert_ne by (intros E; apply Hp; auto).
    rewrite F2 by tauto. apply F3. tauto.
Qed.

(** What a successful run of the copy loop leaves in the directory of
    each refined task. *)
Lemma copy_back_Ok (from_task_list : list string) (back_map : list Z)
    (to_tasks : list string) (ii : nat) (fs fs' : gmap string file) :
  copy_back from_task_list back_map ii to_tasks fs = (Ok tt, fs') ->
  disjoint_dirs to_tasks ->
  (forall d src p, d ∈ to_tasks -> src ∈ from_task_list ->
     under d p -> ~ under src p) ->
  forall (j : nat) to_dir, to_tasks !! j = Some to_dir ->
    exists k, back_map !! (ii + j)%nat = Some k
      /\ (((k < 0)%Z /\ forall p, under to_dir p -> fs' !! p = fs !! p)
          \/ ((0 <= k)%Z /\ exists src f1 f2,
                from_task_list !! Z.to_nat k = Some src
                /\ fs !! join src "data" = Some f1
                /\ fs !! join src "log.lammps" = Some f2
                /\ fs' !! join to_dir "data" = Some f1
                /\ fs' !! join to_dir "log.lammps" = Some f2
                /\ fs' !! join to_dir "from.dir" = Some (FText src))).
Proof.
  revert ii fs. induction to_tasks as [|d0 rest IH]; intros ii fs H Hdis Hsep j to_dir Hj.
  - discriminate Hj.
  - simpl in H.
    apply io_bind_Ok in H as (bm & fs0 & Hbm & H). apply lift_Ok in Hbm as [Hbm ->].
    destruct (back_map !! ii) as [bm'|] eqn:Ebm; [|discriminate Hbm].
    injection Hbm as ->.
    apply io_bind_Ok in H as ([] & fs3 & Hcopy & Hrest).
    assert (Hdis' : disjoint_dirs rest).
    { intros i1 i2 d1 d2 p H1 H2 Hne. apply (Hdis (S i1) (S i2)); auto. }
    assert (Hsep' : forall d src p, d ∈ rest -> src ∈ from_task_list ->
              under d p -> ~ under src p).
    { intros d src p Hd. apply Hsep. right. exact Hd. }
    (* the rest of the loop writes below the other directories only *)
    assert (Frest : forall p, under d0 p -> fs' !! p = fs3 !! p).
    { intros p Hp.
      assert (W : writes_in (fun q => exists d, d ∈ rest /\ under d q)
                    (copy_back from_task_list back_map (S ii) rest)).
      { clear. generalize (S ii). induction rest as [|d rest IH]; intros i0; simpl.
        - apply writes_in_reads_only, reads_only_ret.
        - repeat first
            [ apply IH
            | case_decide
            | writes_step ].
          all: try (exists d; split; [left|apply under_join; reflexivity]).
          all: eapply writes_in_mono; [|apply IH].
          all: intros q (d' & Hd' & Hq); exists d'; split; [right; exact Hd'|exact Hq]. }
      eapply writes_in_run; [exact W|exact Hrest|].
      intros (d & Hd & Hq). apply list_elem_of_lookup in Hd as [i Hi].
      apply (Hdis 0%nat (S i) d0 d p); auto. }
    destruct (decide (bm < 0)%Z) as [Hneg|Hpos].
    + (* nothing is copied for this task *)
      injection Hcopy as <-.
      destruct j as [|j'].
      * injection Hj as <-. exists bm. rewrite Nat.add_0_r. split; [exact Ebm|].
        left. split; [exact Hneg|exact Frest].
      * replace (ii + S j')%nat with (S ii + j')%nat by lia.
        apply (IH (S ii) fs Hrest Hdis' Hsep' j' to_dir Hj).
    + apply io_bind_Ok in Hcopy as (src & fs0 & Hsrc & Hcopy).
      apply lift_Ok in Hsrc as [Hsrc ->].
      assert (Hsrc' : from_task_list !! Z.to_nat bm = Some src).
      { unfold py_index in Hsrc. rewrite decide_True in Hsrc.
        - destruct (from_task_list !! Z.to_nat bm); [|discriminate Hsrc].
          injection Hsrc as ->. reflexivity.
        - destruct (decide (0 <= bm < Z.of_nat (length from_task_list))%Z);
            [assumption|].
          rewrite decide_False in Hsrc by lia. discriminate Hsrc. }
      apply io_bind_Ok in Hcopy as ([] & fsa & Hc1 & Hcopy).
      apply io_bind_Ok in Hcopy as (src2 & fs0 & Hsrc2 & Hcopy).
      apply lift_Ok in Hsrc2 as [Hsrc2 ->]. rewrite Hsrc in Hsrc2.
      injection Hsrc2 as <-.
      apply io_bind_Ok in Hcopy as ([] & fsb & Hc2 & Hcopy).
      apply io_bind_Ok in Hcopy as (src3 & fs0 & Hsrc3 & Hcopy).
      apply lift_Ok in Hsrc3 as [Hsrc3 ->]. rewrite Hsrc in Hsrc3.
      injection Hsrc3 as <-.
      unfold write_file in Hcopy. injection Hcopy as <-.
      unfold copyfile in Hc1, Hc2.
      destruct (decide (join src "data" = join d0 "data")) as [|_];
        [discriminate Hc1|].
      destruct (decide (join src "log.lammps" = join d0 "log.lammps")) as [|_];
        [discriminate Hc2|].
      apply io_bind_Ok in Hc1 as (f1 & fs0 & Hr1 & Hc1).
      unfold read_file in Hr1. injection Hr1 as Hr1 <-.
      destruct (fs !! join src "data") as [f1'|] eqn:E1; [|discriminate Hr1].
      injection Hr1 as ->. unfold write_file in Hc1. injection Hc1 as <-.
      apply io_bind_Ok in Hc2 as (f2 & fs0 & Hr2 & Hc2).
      unfold read_file in Hr2. injection Hr2 as Hr2 <-.
      unfold write_file in Hc2. injection Hc2 as <-.
      assert (Hin0 : d0 ∈ d0 :: rest) by left.
      assert (Hins : src ∈ from_task_list) by (eapply list_elem_of_lookup_2; eauto).
      assert (Hns : forall n, isabs n = false -> ~ under d0 (join src n)).
      { intros n Hn Hu. apply (Hsep d0 src _ Hin0 Hins Hu). apply under_join, Hn. }
      assert (Hne : forall n m, isabs n = false -> isabs m = false ->
                join d0 n <> join src m).
      { intros n m Hn Hm E. apply (Hns m Hm). rewrite <- E. apply under_join, Hn. }
      rewrite lookup_insert_ne in Hr2 by (apply Hne; reflexivity).
      destruct (fs !! join src "log.lammps") as [f2'|] eqn:E2; [|discriminate Hr2].
      injection Hr2 as ->.
      set (fs3 := <[join d0 "from.dir" := FText src]>
                    (<[join d0 "log.lammps" := f2]>
                       (<[join d0 "data" := f1]> fs))) in *.
      assert (Fhead : forall p, ~ under d0 p -> fs3 !! p = fs !! p).
      { intros p Hp. subst fs3.
        rewrite !lookup_insert_ne; [reflexivity|..];
          intros <-; apply Hp, under_join; reflexivity. }
      destruct j as [|j'].
      * injection Hj as <-. exists bm. rewrite Nat.add_0_r. split; [exact Ebm|].
        right. split; [lia|]. exists src, f1, f2.
        split; [exact Hsrc'|]. split; [exact E1|]. split; [exact E2|].
        rewrite !Frest by (apply under_join; reflexivity). subst fs3.
        split; [|split].
        -- rewrite !lookup_insert_ne
             by (intros E; apply join_inj in E; [discriminate E|reflexivity..]).
           apply lookup_insert_eq.
        -- rewrite lookup_insert_ne
             by (intros E; apply join_inj in E; [discriminate E|reflexivity..]).
           apply lookup_insert_eq.
        -- apply lookup_insert_eq.
      * replace (ii + S j')%nat with (S ii + j')%nat by lia.
        destruct (IH (S ii) fs3 Hrest Hdis' Hsep' j' to_dir Hj) as (k & Hk & Hcase).
        exists k. split; [exact Hk|].
        destruct Hcase as [[Hlt Hfr]|(Hge & s' & g1 & g2 & Hs' & G1 & G2 & G3 & G4 & G5)].
        -- left. split; [exact Hlt|]. intros p Hp. rewrite Hfr by exact Hp.
           apply Fhead. apply (Hdis (S j') 0%nat to_dir d0 p); auto.
        -- right. split; [exact Hge|]. exists s', g1, g2.
           assert (Hins' : s' ∈ from_task_list) by (eapply list_elem_of_lookup_2; eauto).
           assert (Hns' : forall n, isabs n = false -> ~ under d0 (join s' n)).
           { intros n Hn Hu. apply (Hsep d0 s' _ Hin0 Hins' Hu). apply under_join, Hn. }
           rewrite Fhead in G1 by (apply Hns'; reflexivity).
           rewrite Fhead in G2 by (apply Hns'; reflexivity).
           auto 10.
Qed.

(** The message of the error raised for a stage without [hti.out]. *)
Local Abbreviation no_result_msg from_task :=
  ("cannot find file " +:+ join from_task "hti.out"
   +:+ ", task should be computed befor refined").

(** C8: without the file [hti.out] in the source directory,
    [refine_task] raises its RuntimeError and leaves the file system as
    it was: no schedule and no task is generated.  Any other outcome,
    success above all, means the file was there. *)
Theorem refine_task_needs_prior_result (cwd from_task to_task : string)
    (err : R) (print_ref : bool) (fs : gmap string file) :
  (fs !! join from_task "hti.out" = None ->
     refine_task' cwd from_task to_task err print_ref fs
     = (Raise (RuntimeError (no_result_msg from_task)), fs))
  /\ (forall r fs',
        refine_task' cwd from_task to_task err print_ref fs = (r, fs') ->
        r <> Raise (RuntimeError (no_result_msg from_task)) ->
        is_Some (fs !! join from_task "hti.out")).
Proof.
  assert (Hnone : fs !! join from_task "hti.out" = None ->
            refine_task' cwd from_task to_task err print_ref fs
            = (Raise (RuntimeError (no_result_msg from_task)), fs)).
  { intros Hn. unfold refine_task, mbind, io_bind, isfile. rewrite Hn.
    rewrite bool_decide_eq_false_2 by (intros [x Hx]; discriminate Hx).
    reflexivity. }
  split; [exact Hnone|].
  intros r fs' Hrun Hr.
  destruct (fs !! join from_task "hti.out") as [f|] eqn:E; [eauto|].
  rewrite (Hnone eq_refl) in Hrun. injection Hrun as <- _. contradiction.
Qed.

(** C9: whatever configuration the source stage was generated with, a
    refinement that succeeds has dumped, in [in.json] of the refined
    stage, the refined schedule under the key [lambda], the switch
    [one-step] and the step [both]; the schedule of the generated tasks
    was parsed from that key; and, once the directory of the refined
    stage was made, nothing was written outside the layout of a one-step
    stage: nothing below [00.deep_on], [01.spring_off], [00.lj_on],
    [01.deep_on] or [02.spring_off]. *)
Theorem refine_task_regenerates_one_step (cwd from_task to_task : string)
    (err : R) (fs fs' : gmap string file) :
  refine_task' cwd from_task to_task err false fs = (Ok tt, fs') ->
  exists all_t integrand nref refined_t back_map jd raw,
    loadtxt_columns01 (join from_task "hti.out") fs = (Ok (all_t, integrand), fs)
    /\ compute_nrefine all_t integrand err = Ok nref
    /\ refine_schedule all_t nref = Ok (refined_t, back_map)
    /\ fs' !! join to_task "in.json" = Some (FJson jd)
    /\ jd !! "lambda" = Some (JList (JFloat <$> refined_t))
    /\ jd !! "switch" = Some (JStr "one-step")
    /\ jd !! "step" = Some (JStr "both")
    /\ schedule_key "one-step" "both" = Ok "lambda"
    /\ parse_seq (JList (JFloat <$> refined_t)) = Ok raw
    /\ (forall p, ~ one_step_footprint to_task p ->
          fs' !! p = (create_path to_task fs).2 !! p)
    /\ (forall sub p, sub ∈ stage_subdirs -> under (join to_task sub) p ->
          fs' !! p = (create_path to_task fs).2 !! p).
Proof.
  intros H.
  apply refine_task_Ok in H
    as (all_t & integrand & nref & refined_t & back_map & to_jdata & ref & jd & fs2
        & _ & Hload & Hn & Hr & Hlam & Hmk & _ & _ & Hcopy).
  apply make_tasks_one_step in Hmk.
  apply _make_tasks_Ok in Hmk as ((all_lambda & ec & model & Hcfg) & Hjson & Hframe).
  apply task_config_Ok in Hcfg
    as (Hsw & Hst & Hl & key & spec & raw & eps & Hkey & Hspec & Hparse & _).
  injection Hkey as <-. rewrite Hlam in Hspec, Hl. injection Hspec as <-.
  assert (Hcb : forall p, ~ in_task_dir to_task p -> fs' !! p = fs2 !! p).
  { intros p Hp. eapply writes_in_run; [|exact Hcopy|exact Hp].
    apply copy_back_writes. intros d. apply glob_tasks_pattern. }
  assert (Hout : forall p, ~ one_step_footprint to_task p ->
            fs' !! p = (create_path to_task fs).2 !! p).
  { intros p Hp. rewrite Hcb; [apply Hframe, Hp|].
    intros Hin. apply Hp. unfold one_step_footprint. auto. }
  exists all_t, integrand, nref, refined_t, back_map, jd, raw.
  repeat split; try assumption.
  - rewrite Hcb; [exact Hjson|].
    intros Hin. apply in_task_dir_not_in_json in Hin. congruence.
  - intros sub p Hsub Hp. apply Hout. eapply footprint_not_subdir; eassumption.
Qed.


(** With [print_ref] the refinement only reads. *)
Lemma refine_task_print_ref_reads (cwd from_task to_task : string) (err : R) :
  reads_only (refine_task' cwd from_task to_task err true).
Proof.
  unfold refine_task.
  apply reads_only_bind; [apply reads_only_isfile|]. intros found.
  destruct (negb found); [apply reads_only_lift|].
  apply reads_only_bind; [apply reads_only_loadtxt|]. intros [all_t integrand].
  apply reads_only_bind; [apply reads_only_lift|]. intros nref.
  apply reads_only_ret.
Qed.

(** X16: with [print_ref] the refinement changes no file; it succeeds
    as soon as [hti.out] loads and the numbers of sub-intervals are
    computed, without reading [in.json]. *)
Theorem refine_task_print_ref_frame (cwd from_task to_task : string) (err : R)
    (fs : gmap string file) :
  (refine_task' cwd from_task to_task err true fs).2 = fs
  /\ forall all_t integrand nref,
       loadtxt_columns01 (join from_task "hti.out") fs = (Ok (all_t, integrand), fs) ->
       compute_nrefine all_t integrand err = Ok nref ->
       refine_task' cwd from_task to_task err true fs = (Ok tt, fs).
Proof.
  split; [apply refine_task_print_ref_reads|].
  intros all_t integrand nref Hload Hn. unfold refine_task.
  assert (Hf : is_Some (fs !! join from_task "hti.out")).
  { unfold loadtxt_columns01, mbind, io_bind, read_file in Hload.
    destruct (fs !! join from_task "hti.out"); [eauto|discriminate Hload]. }
  unfold mbind at 1, io_bind at 1, isfile.
  rewrite bool_decide_eq_true_2 by exact Hf. cbn [negb].
  erewrite io_bind_eq by exact Hload. cbv beta iota.
  unfold mbind, io_bind, lift. rewrite Hn. reflexivity.
Qed.

(** X17: a stage whose [hti.out] has fewer than two rows cannot be
    refined: the table loads as an array without a second axis, the
    column read raises IndexError and nothing is written. *)
Theorem refine_task_short_table (cwd from_task to_task : string) (err : R)
    (print_ref : bool) (fs : gmap string file) (rows : list (list R)) :
  fs !! join from_task "hti.out" = Some (FTable rows) ->
  (length rows < 2)%nat ->
  refine_task' cwd from_task to_task err print_ref fs = (Raise IndexError, fs).
Proof.
  intros Hf Hlen. unfold refine_task.
  unfold mbind at 1, io_bind at 1, isfile.
  rewrite bool_decide_eq_true_2 by (rewrite Hf; eauto). cbn [negb].
  unfold mbind at 1, io_bind at 1.
  unfold loadtxt_columns01, mbind at 1, io_bind at 1, read_file.
  rewrite Hf. cbn [of_option]. rewrite decide_True by exact Hlen. reflexivity.
Qed.

(** X12: for a switch that is none of the three protocols [make_tasks]
    raises and writes nothing; when [equi_conf] and [model] are given as
    strings the error is the RuntimeError [unknow switch]. *)
Theorem make_tasks_unknown_switch (cwd iter_name : string) (jdata : gmap string json)
    (ref : json) (switch : string) (fs : gmap string file) :
  switch <> "one-step" -> switch <> "two-step" -> switch <> "three-step" ->
  exists e,
    make_tasks' cwd iter_name jdata ref switch fs = (Raise e, fs)
    /\ forall equi_conf model,
         jdata !! "equi_conf" = Some (JStr equi_conf) ->
         jdata !! "model" = Some (JStr model) ->
         e = RuntimeError "unknow switch".
Proof.
  intros H1 H2 H3. unfold make_tasks, mbind, io_bind, lift, getitem.
  destruct (jdata !! "equi_conf") as [ec|]; cbn [of_option];
    [|eexists; split; [reflexivity|intros ? ? E; discriminate E]].
  destruct ec; cbn [as_str];
    try (eexists; split; [reflexivity|intros ? ? E; discriminate E]).
  destruct (jdata !! "model") as [md|]; cbn [of_option];
    [|eexists; split; [reflexivity|intros ? ? _ E; discriminate E]].
  destruct md; cbn [as_str];
    try (eexists; split; [reflexivity|intros ? ? _ E; discriminate E]).
  rewrite decide_False by exact H1.
  rewrite decide_False by (intros [E|E]; contradiction).
  eexists. split; [reflexivity|]. reflexivity.
Qed.

(** The loop over the lambdas writes below the task directories it
    numbers, from [idx] on. *)
Lemma make_task_dirs_writes_from (iter_name : string) (jdata : gmap string json)
    (ref : json) (switch step : string) (langevin : bool) (idx : nat)
    (all_lambda : list R) :
  writes_in (fun p => exists j, (idx <= j)%nat /\ under (join iter_name (task_name j)) p)
    (make_task_dirs' iter_name jdata ref switch step langevin idx all_lambda).
Proof.
  revert idx. induction all_lambda as [|ii rest IH]; intros idx; cbn [make_task_dirs].
  - apply writes_in_reads_only, reads_only_ret.
  - assert (Hd : forall n, isabs n = false ->
              exists j, (idx <= j)%nat
                /\ under (join iter_name (task_name j)) (join (join iter_name (task_name idx)) n)).
    { intros n Hn. exists idx. split; [lia|]. apply under_join, Hn. }
    repeat writes_step; try (apply Hd; reflexivity).
    + eapply writes_in_mono; [|apply create_path_under].
      intros p Hp. exists idx. split; [lia|exact Hp].
    + eapply writes_in_mono; [|apply IH].
      intros p (j & Hj & Hp). exists j. split; [lia|exact Hp].
Qed.

(** What a successful run of the loop over the lambdas leaves in the
    directory of each task. *)
Lemma make_task_dirs_Ok (iter_name : string) (jdata : gmap string json)
    (ref : json) (switch step : string) (langevin : bool) (all_lambda : list R)
    (idx : nat) (fs fs' : gmap string file) :
  make_task_dirs' iter_name jdata ref switch step langevin idx all_lambda fs
  = (Ok tt, fs') ->
  forall (k : nat) lam, all_lambda !! k = Some lam ->
    let work_path := join iter_name (task_name (idx + k)) in
    fs' !! join work_path "lambda.out" = Some (FFloat lam)
    /\ fs' !! join work_path "conf.lmp" = Some (FLink (join iter_name "conf.lmp"))
    /\ fs' !! join work_path "graph.pb" = Some (FLink (join iter_name "graph.pb"))
    /\ exists lmp_str,
         fs' !! join work_path "in.lammps" = Some (FText lmp_str)
         /\ (ref = JStr "einstein" ->
             _gen_lammps_input jdata lam (task_ens langevin (idx + k)) switch step
               (idx + k) = Ok lmp_str)
         /\ (ref = JStr "ideal" ->
             _gen_lammps_input_ideal jdata lam (task_ens langevin (idx + k))
               (idx + k) = Ok lmp_str).
Proof.
  revert idx fs. induction all_lambda as [|ii rest IH]; intros idx fs H k lam Hk.
  - discriminate Hk.
  - cbn [make_task_dirs] in H.
    apply io_bind_Ok in H as ([] & fs1 & Hcp & H).
    apply io_bind_Ok in H as ([] & fs2 & Hl1 & H).
    apply io_bind_Ok in H as ([] & fs3 & Hl2 & H).
    apply io_bind_Ok in H as (lmp_str & fs4 & Hgen & H).
    apply lift_Ok in Hgen as [Hgen ->].
    apply io_bind_Ok in H as ([] & fs5 & Hw1 & H).
    apply io_bind_Ok in H as ([] & fs6 & Hw2 & H).
    destruct k as [|k].
    + injection Hk as ->. rewrite Nat.add_0_r. cbv zeta.
      set (wp := join iter_name (task_name idx)) in *.
      unfold write_file in Hw1, Hw2. injection Hw1 as <-. injection Hw2 as <-.
      unfold symlink in Hl1, Hl2.
      destruct (fs1 !! join wp "conf.lmp"); [discriminate Hl1|]. injection Hl1 as <-.
      destruct (<[join wp "conf.lmp":=FLink (join iter_name "conf.lmp")]> fs1
                  !! join wp "graph.pb"); [discriminate Hl2|]. injection Hl2 as <-.
      assert (Hrest : forall p, under wp p ->
                fs' !! p
                = <[join wp "lambda.out":=FFloat lam]>
                    (<[join wp "in.lammps":=FText lmp_str]>
                       (<[join wp "graph.pb":=FLink (join iter_name "graph.pb")]>
                          (<[join wp "conf.lmp":=FLink (join iter_name "conf.lmp")]> fs1)))
                  !! p).
      { intros p Hp. eapply writes_in_run; [apply make_task_dirs_writes_from|exact H|].
        intros (j & Hj & Hpj). pose proof (task_dirs_apart _ _ _ _ Hp Hpj). lia. }
      assert (Hne : forall a b, isabs a = false -> isabs b = false -> a <> b ->
                join wp a <> join wp b).
      { intros a b Ha Hb Hab E. apply Hab. eapply join_inj; eassumption. }
      rewrite !Hrest by (apply under_join; reflexivity).
      split; [apply lookup_insert_eq|].
      split.
      { rewrite !lookup_insert_ne by (apply Hne; [reflexivity|reflexivity|discriminate]).
        apply lookup_insert_eq. }
      split.
      { rewrite !lookup_insert_ne by (apply Hne; [reflexivity|reflexivity|discriminate]).
        apply lookup_insert_eq. }
      exists lmp_str. split.
      { rewrite lookup_insert_ne by (apply Hne; [reflexivity|reflexivity|discriminate]).
        apply lookup_insert_eq. }
      assert (Hens : (if langevin then "nvt-langevin"
                      else if decide (idx = 0%nat) then "nvt-langevin" else "nvt")
                     = task_ens langevin idx) by reflexivity.
      rewrite Hens in Hgen.
      split; intros ->.
      * rewrite decide_True in Hgen by reflexivity. exact Hgen.
      * rewrite decide_False in Hgen by discriminate.
        rewrite decide_True in Hgen by reflexivity. exact Hgen.
    + replace (idx + S k)%nat with (S idx + k)%nat by lia.
      eapply IH; [exact H|exact Hk].
Qed.

(** X10: after a successful [_make_tasks], the directory of task [k]
    holds in [lambda.out] the [k]-th value of the protected schedule,
    the two links to the configuration and the model of the stage, and in
    [in.lammps] the input generated for that value, with the Langevin
    thermostat for every task unless [langevin] is switched off, and for
    task 0 always. *)
Theorem _make_tasks_fills_tasks (cwd iter_name : string) (jdata jd : gmap string json)
    (ref : json) (switch step : string) (link : bool) (fs fs2 : gmap string file) :
  _make_tasks' cwd iter_name jdata ref switch step link fs = (Ok jd, fs2) ->
  exists all_lambda equi_conf model,
    task_config parse_seq cwd jdata ref switch step = Ok (jd, all_lambda, equi_conf, model)
    /\ forall (k : nat) lam, all_lambda !! k = Some lam ->
         let work_path := join iter_name (task_name k) in
         let langevin := from_option truthy true (jd !! "langevin") in
         fs2 !! join work_path "lambda.out" = Some (FFloat lam)
         /\ fs2 !! join work_path "conf.lmp" = Some (FLink (join iter_name "conf.lmp"))
         /\ fs2 !! join work_path "graph.pb" = Some (FLink (join iter_name "graph.pb"))
         /\ exists lmp_str,
              fs2 !! join work_path "in.lammps" = Some (FText lmp_str)
              /\ (ref = JStr "einstein" ->
                  _gen_lammps_input jd lam (task_ens langevin k) switch step k
                  = Ok lmp_str)
              /\ (ref = JStr "ideal" ->
                  _gen_lammps_input_ideal jd lam (task_ens langevin k) k = Ok lmp_str).
Proof.
  unfold _make_tasks. intros H.
  apply io_bind_Ok in H as ([[[jd' all_lambda] ec] model] & fs0 & Hc & H).
  apply lift_Ok in Hc as [Hc ->].
  apply io_bind_Ok in H as ([] & fs1 & Hcp & H).
  apply io_bind_Ok in H as ([] & fsa & Hp1 & H).
  apply io_bind_Ok in H as ([] & fsb & Hp2 & H).
  apply io_bind_Ok in H as ([] & fsc & Hw & H).
  apply io_bind_Ok in H as ([] & fsd & Hmt & H).
  injection H as <- <-.
  exists all_lambda, ec, model. split; [exact Hc|].
  intros k lam Hk.
  apply (make_task_dirs_Ok _ _ _ _ _ _ _ 0 _ _ Hmt k lam Hk).
Qed.

Lemma task_config_reference (cwd : string) (jdata jd : gmap string json) (ref : json)
    (switch step : string) (all_lambda : list R) (ec model : string) :
  task_config parse_seq cwd jdata ref switch step = Ok (jd, all_lambda, ec, model) ->
  jd !! "reference" = Some ref
  /\ jd !! "equi_conf" = Some (JStr "conf.lmp")
  /\ jd !! "model" = Some (JStr "graph.pb")
  /\ is_Some (jd !! "crystal").
Proof.
  unfold task_config. intros H.
  set (jdata0 := if decide (is_Some (jdata !! "crystal")) then jdata
                 else <["crystal" := JStr "vega"]> jdata) in H.
  assert (Hc : is_Some (jdata0 !! "crystal")).
  { subst jdata0. case_decide as Hd; [exact Hd|]. rewrite lookup_insert_eq. eauto. }
  do 15 (apply result_bind_Ok in H as (? & _ & H)).
  injection H as <- _ _ _.
  split; [|split; [|split]].
  - rewrite !lookup_insert_ne by discriminate. apply lookup_insert_eq.
  - rewrite !lookup_insert_ne by discriminate. apply lookup_insert_eq.
  - apply lookup_insert_eq.
  - rewrite !lookup_insert_ne by discriminate. exact Hc.
Qed.

(** A successful [_make_tasks] has read its configuration and dumped it
    into [in.json] of the stage. *)
Lemma _make_tasks_config (cwd iter_name : string) (jdata jd : gmap string json)
    (ref : json) (switch step : string) (link : bool) (fs fs2 : gmap string file) :
  _make_tasks' cwd iter_name jdata ref switch step link fs = (Ok jd, fs2) ->
  (exists all_lambda ec model,
     task_config parse_seq cwd jdata ref switch step = Ok (jd, all_lambda, ec, model))
  /\ fs2 !! join iter_name "in.json" = Some (FJson jd).
Proof.
  unfold _make_tasks. intros H.
  apply io_bind_Ok in H as ([[[jd' all_lambda] ec] model] & fs0 & Hc & H).
  apply lift_Ok in Hc as [Hc ->].
  apply io_bind_Ok in H as ([] & fs1 & Hcp & H).
  apply io_bind_Ok in H as ([] & fsa & Hp1 & H).
  apply io_bind_Ok in H as ([] & fsb & Hp2 & H).
  apply io_bind_Ok in H as ([] & fsc & Hw & H).
  apply io_bind_Ok in H as ([] & fsd & Hmt & H).
  injection H as <- <-.
  unfold write_file in Hw. injection Hw as <-.
  split; [exists all_lambda, ec, model; exact Hc|].
  erewrite writes_in_run; [apply lookup_insert_eq|apply make_task_dirs_writes|exact Hmt|].
  intros Hin. apply in_task_dir_not_in_json in Hin. apply Hin. reflexivity.
Qed.

(** The configuration of a stage does not lie in another stage. *)
Lemma stage_json_apart (d a b : string) :
  a ∈ stage_subdirs -> b ∈ stage_subdirs -> a <> b ->
  ~ under (join d a) (join (join d b) "in.json").
Proof.
  intros Ha Hb Hab [r1 E]. unfold stage_subdirs in Ha, Hb.
  rewrite (join_rel _ "in.json") in E by reflexivity.
  repeat (apply elem_of_cons in Ha as [->|Ha]);
    [..|apply elem_of_nil in Ha; contradiction];
    repeat (apply elem_of_cons in Hb as [->|Hb]);
    try (apply elem_of_nil in Hb; contradiction); try congruence;
    rewrite !(join_rel d) in E by reflexivity;
    rewrite !string_app_assoc in E;
    apply (inj (String.append d)) in E;
    apply (inj (String.append "/")) in E; vm_compute in E; discriminate E.
Qed.

(** X11: after a successful two-step generation, [in.json] of the job
    is the given configuration with [equi_conf] and [model] renamed (it
    records no switch, step or reference), while [in.json] of each of
    the two stages records the switch, its own step and the reference. *)
Theorem make_tasks_two_step_configs (cwd iter_name : string)
    (jdata jd : gmap string json) (ref : json) (fs fs' : gmap string file) :
  make_tasks' cwd iter_name jdata ref "two-step" fs = (Ok jd, fs') ->
  exists jd0,
    fs' !! join iter_name "in.json"
    = Some (FJson (<["model" := JStr "graph.pb"]>
                     (<["equi_conf" := JStr "conf.lmp"]> jdata)))
    /\ fs' !! join (join iter_name "00.deep_on") "in.json" = Some (FJson jd0)
    /\ jd0 !! "switch" = Some (JStr "two-step")
    /\ jd0 !! "step" = Some (JStr "deep_on")
    /\ jd0 !! "reference" = Some ref
    /\ fs' !! join (join iter_name "01.spring_off") "in.json" = Some (FJson jd)
    /\ jd !! "switch" = Some (JStr "two-step")
    /\ jd !! "step" = Some (JStr "spring_off")
    /\ jd !! "reference" = Some ref.
Proof.
  unfold make_tasks. intros H.
  apply io_bind_Ok in H as (ec & fs0 & He & H). apply lift_Ok in He as [He ->].
  apply io_bind_Ok in H as (ecs & fs0 & Hes & H). apply lift_Ok in Hes as [Hes ->].
  apply io_bind_Ok in H as (md & fs0 & Hm & H). apply lift_Ok in Hm as [Hm ->].
  apply io_bind_Ok in H as (mds & fs0 & Hms & H). apply lift_Ok in Hms as [Hms ->].
  rewrite decide_False in H by discriminate.
  rewrite decide_True in H by (left; reflexivity).
  apply io_bind_Ok in H as ([] & fs1 & Hcp & H).
  apply io_bind_Ok in H as ([] & fs2 & Hc1 & H).
  apply io_bind_Ok in H as ([] & fs3 & Hc2 & H).
  apply io_bind_Ok in H as ([] & fs4 & Hw & H).
  rewrite decide_True in H by reflexivity.
  apply io_bind_Ok in H as (jd0 & fs5 & Hs0 & Hs1).
  assert (F0 : forall p, ~ under (join iter_name "00.deep_on") p -> fs5 !! p = fs4 !! p).
  { intros p Hp. eapply writes_in_run; [apply _make_tasks_writes|exact Hs0|exact Hp]. }
  assert (F1 : forall p, ~ under (join iter_name "01.spring_off") p -> fs' !! p = fs5 !! p).
  { intros p Hp. eapply writes_in_run; [apply _make_tasks_writes|exact Hs1|exact Hp]. }
  assert (Htop : forall sub, sub ∈ stage_subdirs ->
            ~ under (join iter_name sub) (join iter_name "in.json")).
  { intros sub Hsub Hu. eapply footprint_not_subdir; [exact Hsub|exact Hu|].
    unfold one_step_footprint. auto. }
  apply _make_tasks_config in Hs0 as ((l0 & ec0 & m0 & Hcfg0) & Hj0).
  apply _make_tasks_config in Hs1 as ((l1 & ec1 & m1 & Hcfg1) & Hj1).
  pose proof (task_config_Ok _ _ _ _ _ _ _ _ _ Hcfg0) as (Hsw0 & Hst0 & _).
  pose proof (task_config_Ok _ _ _ _ _ _ _ _ _ Hcfg1) as (Hsw1 & Hst1 & _).
  pose proof (task_config_reference _ _ _ _ _ _ _ _ _ Hcfg0) as (Hr0 & _).
  pose proof (task_config_reference _ _ _ _ _ _ _ _ _ Hcfg1) as (Hr1 & _).
  exists jd0. split; [|split; [|repeat split; assumption]].
  - rewrite F1 by (apply Htop; right; left).
    rewrite F0 by (apply Htop; left).
    unfold write_file in Hw. injection Hw as <-. apply lookup_insert_eq.
  - rewrite F1; [exact Hj0|].
    apply stage_json_apart; [right; left|left|discriminate].
Qed.

End GenerationFacts.

(** ** A refinement of the sample stage *)

(** One step of a computation on concrete data: the head of a chain of
    binds is run and its result passed on. *)
Ltac io_step :=
  rewrite ?io_bind_assoc; erewrite io_bind_eq; [|cbn; reflexivity]; cbv beta iota.
Ltac res_step := erewrite bind_Ok_eq; [|cbn; reflexivity]; cbv beta iota.
Ltac bool_step :=
  match goal with
  | |- context [if ?b then _ else _] =>
      match type of b with
      | bool => let v := eval vm_compute in b in change b with v; cbv iota
      end
  end.

Section GenerationExamples.
Local Open Scope R_scope.

Local Abbreviation sample_refine :=
  (refine_task Sample.create_path Sample.parse_seq Sample._gen_lammps_input
     Sample._gen_lammps_input_ideal Sample.compute_nrefine
     Sample.get_task_file_abspath Sample.glob_tasks).

Lemma sample_create_path_under (d : string) :
  writes_in (under d) (Sample.create_path d).
Proof. apply writes_in_reads_only, reads_only_ret. Qed.

Lemma sample_glob_elem (fs : gmap string file) (d x : string) :
  x ∈ Sample.glob_tasks fs d ->
  exists i, (i < 8)%nat /\ x = join d (task_name i).
Proof.
  unfold Sample.glob_tasks. intros H.
  apply list_elem_of_filter in H as [_ H].
  apply list_elem_of_fmap in H as (i & -> & Hi).
  apply elem_of_seq in Hi. exists i. split; [lia|reflexivity].
Qed.

Lemma sample_glob_tasks_pattern (fs : gmap string file) (d x : string) :
  x ∈ Sample.glob_tasks fs d -> in_task_dir d x.
Proof.
  intros H. apply sample_glob_elem in H as (i & _ & ->).
  apply task_name_in_task_dir.
Qed.

(** Two of the first eight task directories have no path in common. *)
Lemma sample_task_dirs_apart (d : string) (i j : nat) (p : string) :
  (i < 8)%nat -> (j < 8)%nat -> i <> j ->
  under (join d (task_name i)) p -> ~ under (join d (task_name j)) p.
Proof.
  intros Hi Hj Hne [r1 ->] [r2 E].
  rewrite !join_rel in E by apply task_name_rel.
  rewrite !string_app_assoc in E.
  apply (inj (String.append d)) in E. apply (inj (String.append "/")) in E.
  destruct i as [|[|[|[|[|[|[|[|i]]]]]]]]; try lia;
    destruct j as [|[|[|[|[|[|[|[|j]]]]]]]]; try lia;
    vm_compute in E; discriminate E.
Qed.

Lemma sample_glob_tasks_disjoint (fs : gmap string file) (d : string) :
  disjoint_dirs (Sample.glob_tasks fs d).
Proof.
  intros i j d1 d2 p H1 H2 Hne.
  assert (Hnd : NoDup (Sample.glob_tasks fs d)).
  { unfold Sample.glob_tasks. apply NoDup_filter.
    apply NoDup_fmap_2_strong; [|apply NoDup_seq].
    intros a b Ha Hb E. apply elem_of_seq in Ha, Hb.
    apply join_inj in E; [|apply task_name_rel..].
    destruct (decide (a = b)) as [|Hab]; [assumption|]. exfalso.
    destruct a as [|[|[|[|[|[|[|[|a]]]]]]]]; try lia;
      destruct b as [|[|[|[|[|[|[|[|b]]]]]]]]; try lia;
      vm_compute in E; discriminate E. }
  assert (Hd : d1 <> d2).
  { intros ->. apply Hne. eapply NoDup_lookup; eassumption. }
  apply list_elem_of_lookup_2, sample_glob_elem in H1 as (a & Ha & ->).
  apply list_elem_of_lookup_2, sample_glob_elem in H2 as (b & Hb & ->).
  apply sample_task_dirs_apart; [assumption..|]. congruence.
Qed.

Lemma sample_stages_apart (p : string) : under "/new" p -> ~ under "/old" p.
Proof. intros [r1 ->] [r2 E]. vm_compute in E. discriminate E. Qed.

(** The refinement of the sample stage into [/new] succeeds. *)
Lemma sample_refine_run :
  exists fs', sample_refine "/" "/old" "/new" 0.01 false Sample.old_fs = (Ok tt, fs').
Proof.
  eexists. unfold refine_task.
  repeat first [io_step | bool_step].
  unfold make_tasks.
  repeat first [io_step | bool_step].
  rewrite (decide_True (P := "one-step" = "one-step")) by reflexivity.
  unfold _make_tasks. rewrite ?io_bind_assoc.
  erewrite io_bind_eq.
  2:{ unfold lift. f_equal. unfold task_config.
      repeat res_step.
      erewrite bind_Ok_eq;
        [|eapply protect_ends_keeps; [reflexivity|reflexivity|lra|lra]].
      repeat res_step.
      reflexivity. }
  cbv beta iota.
  repeat first [io_step | bool_step].
  repeat match goal with
  | |- context [Sample.glob_tasks ?fs ?d] =>
      let v := eval vm_compute in (Sample.glob_tasks fs d) in
      change (Sample.glob_tasks fs d) with v
  end.
  cbn [copy_back].
  repeat first [io_step | bool_step].
  reflexivity.
Qed.


Lemma refine_task_needs_prior_result_witness :
  sample_refine "/" "/old" "/new" 0.01 false ∅
  = (Raise (RuntimeError
       "cannot find file /old/hti.out, task should be computed befor refined"), ∅)
  /\ is_Some (Sample.old_fs !! "/old/hti.out").
Proof.
  split.
  - apply (refine_task_needs_prior_result Sample.create_path Sample.parse_seq
             Sample._gen_lammps_input Sample._gen_lammps_input_ideal
             Sample.compute_nrefine Sample.get_task_file_abspath
             Sample.glob_tasks "/" "/old" "/new" 0.01 false ∅).
    reflexivity.
  - destruct sample_refine_run as [fs' Hrun].
    eapply (refine_task_needs_prior_result Sample.create_path Sample.parse_seq
              Sample._gen_lammps_input Sample._gen_lammps_input_ideal
              Sample.compute_nrefine Sample.get_task_file_abspath
              Sample.glob_tasks "/" "/old" "/new" 0.01 false Sample.old_fs);
      [exact Hrun|discriminate].
Defined.

Lemma refine_task_regenerates_one_step_witness :
  Sample.old_jdata !! "switch" = Some (JStr "two-step")
  /\ exists fs' jd,
       sample_refine "/" "/old" "/new" 0.01 false Sample.old_fs = (Ok tt, fs')
       /\ fs' !! "/new/in.json" = Some (FJson jd)
       /\ jd !! "switch" = Some (JStr "one-step")
       /\ jd !! "step" = Some (JStr "both")
       /\ is_Some (jd !! "lambda")
       /\ fs' !! "/new/00.deep_on/in.json" = None.
Proof.
  split; [reflexivity|].
  destruct sample_refine_run as [fs' Hrun].
  destruct (refine_task_regenerates_one_step Sample.create_path Sample.parse_seq
              Sample._gen_lammps_input Sample._gen_lammps_input_ideal
              Sample.compute_nrefine Sample.get_task_file_abspath
              Sample.glob_tasks sample_create_path_under
              sample_glob_tasks_pattern "/" "/old" "/new" 0.01 Sample.old_fs fs' Hrun)
    as (all_t & integrand & nref & refined_t & back_map & jd & raw
        & _ & _ & _ & Hjson & Hlam & Hsw & Hst & _ & _ & _ & Hsub).
  exists fs', jd. split; [exact Hrun|]. split; [exact Hjson|].
  split; [exact Hsw|]. split; [exact Hst|]. split; [rewrite Hlam; eauto|].
  rewrite (Hsub "00.deep_on" "/new/00.deep_on/in.json").
  - reflexivity.
  - left.
  - exists "in.json". reflexivity.
Defined.


Local Abbreviation sample_make_tasks :=
  (make_tasks Sample.create_path Sample.parse_seq Sample._gen_lammps_input
     Sample._gen_lammps_input_ideal).
Local Abbreviation sample__make_tasks :=
  (_make_tasks Sample.create_path Sample.parse_seq Sample._gen_lammps_input
     Sample._gen_lammps_input_ideal).

Lemma refine_task_print_ref_frame_witness :
  sample_refine "/" "/old" "/new" 0.01 true Sample.old_fs = (Ok tt, Sample.old_fs).
Proof.
  eapply (refine_task_print_ref_frame Sample.create_path Sample.parse_seq
            Sample._gen_lammps_input Sample._gen_lammps_input_ideal
            Sample.compute_nrefine Sample.get_task_file_abspath Sample.glob_tasks
            "/" "/old" "/new" 0.01 Sample.old_fs).
  - unfold loadtxt_columns01. io_step. cbn. reflexivity.
  - reflexivity.
Defined.

Lemma refine_task_short_table_witness :
  sample_refine "/" "/old" "/new" 0.01 false
    (<["/old/hti.out" := FTable [[0.5; 1; 0; 1; 0; 0; 0]]]> ∅)
  = (Raise IndexError, <["/old/hti.out" := FTable [[0.5; 1; 0; 1; 0; 0; 0]]]> ∅).
Proof.
  apply (refine_task_short_table Sample.create_path Sample.parse_seq
           Sample._gen_lammps_input Sample._gen_lammps_input_ideal
           Sample.compute_nrefine Sample.get_task_file_abspath Sample.glob_tasks
           "/" "/old" "/new" 0.01 false _ [[0.5; 1; 0; 1; 0; 0; 0]]).
  - reflexivity.
  - simpl. lia.
Defined.

Lemma make_tasks_unknown_switch_witness :
  sample_make_tasks "/work" "/work/job" Sample.gen_jdata (JStr "einstein")
    "four-step" Sample.gen_fs
  = (Raise (RuntimeError "unknow switch"), Sample.gen_fs).
Proof.
  destruct (make_tasks_unknown_switch Sample.create_path Sample.parse_seq
              Sample._gen_lammps_input Sample._gen_lammps_input_ideal
              "/work" "/work/job" Sample.gen_jdata (JStr "einstein") "four-step"
              Sample.gen_fs) as (e & Hrun & He); [discriminate..|].
  rewrite Hrun. rewrite (He "conf.lmp" "graph.pb"); reflexivity.
Defined.


(** A one-step generation from the sample parameter file succeeds. *)
Lemma sample_one_step_run :
  exists jd fs',
    sample__make_tasks "/work" "/work/job" Sample.gen_jdata (JStr "einstein")
      "one-step" "both" false Sample.gen_fs = (Ok jd, fs')
    /\ task_config Sample.parse_seq "/work" Sample.gen_jdata (JStr "einstein")
         "one-step" "both"
       = Ok (jd, [0.25; 0.75], "/work/conf.lmp", "/work/graph.pb")
    /\ jd !! "langevin" = None.
Proof.
  assert (Hcfg : exists jd,
            task_config Sample.parse_seq "/work" Sample.gen_jdata (JStr "einstein")
              "one-step" "both"
            = Ok (jd, [0.25; 0.75], "/work/conf.lmp", "/work/graph.pb")
            /\ jd !! "langevin" = None).
  { eexists. split.
    - unfold task_config.
      repeat res_step.
      erewrite bind_Ok_eq;
        [|eapply protect_ends_keeps; [reflexivity|reflexivity|lra|lra]].
      repeat res_step.
      reflexivity.
    - reflexivity. }
  destruct Hcfg as (jd & Hcfg & Hl). exists jd. eexists.
  split; [|split; [exact Hcfg|exact Hl]].
  unfold _make_tasks. rewrite Hcfg.
  repeat first [io_step | bool_step].
  reflexivity.
Qed.

Lemma _make_tasks_fills_tasks_witness :
  exists jd fs',
    sample__make_tasks "/work" "/work/job" Sample.gen_jdata (JStr "einstein")
      "one-step" "both" false Sample.gen_fs = (Ok jd, fs')
    /\ fs' !! "/work/job/task.000001/lambda.out" = Some (FFloat 0.75)
    /\ fs' !! "/work/job/task.000001/conf.lmp" = Some (FLink "/work/job/conf.lmp")
    /\ fs' !! "/work/job/task.000001/in.lammps"
       = Some (FText "clear nvt-langevin one-step both").
Proof.
  destruct sample_one_step_run as (jd & fs' & Hrun & Hcfg & Hl).
  destruct (_make_tasks_fills_tasks Sample.create_path Sample.parse_seq
              Sample._gen_lammps_input Sample._gen_lammps_input_ideal
              sample_create_path_under _ _ _ _ _ _ _ _ _ _ Hrun)
    as (all_lambda & ec & model & Hcfg' & Htasks).
  rewrite Hcfg in Hcfg'. injection Hcfg' as <- <- <-.
  rewrite Hl in Htasks.
  destruct (Htasks 1%nat 0.75 eq_refl) as (H1 & H2 & _ & text & H4 & H5 & _).
  exists jd, fs'. split; [exact Hrun|]. split; [exact H1|]. split; [exact H2|].
  transitivity (Some (FText text)); [exact H4|]. do 2 f_equal.
  specialize (H5 eq_refl). unfold Sample._gen_lammps_input in H5.
  injection H5 as <-. reflexivity.
Defined.

(** A two-step generation from the sample parameter file succeeds. *)
Lemma sample_two_step_run :
  exists jd fs',
    sample_make_tasks "/work" "/work/job" Sample.gen_jdata (JStr "einstein")
      "two-step" Sample.gen_fs = (Ok jd, fs').
Proof.
  eexists _, _. unfold make_tasks.
  repeat first [io_step | bool_step].
  rewrite (decide_False (P := "two-step" = "one-step")) by discriminate.
  rewrite (decide_True (P := "two-step" = "two-step" \/ "two-step" = "three-step"))
    by (left; reflexivity).
  repeat first [io_step | bool_step].
  rewrite (decide_True (P := "two-step" = "two-step")) by reflexivity.
  erewrite io_bind_eq.
  2:{ unfold _make_tasks. rewrite ?io_bind_assoc.
      erewrite io_bind_eq.
      2:{ unfold lift. f_equal. unfold task_config.
          repeat res_step.
          erewrite bind_Ok_eq;
            [|eapply protect_ends_keeps; [reflexivity|reflexivity|lra|lra]].
          repeat res_step.
          reflexivity. }
      cbv beta iota.
      repeat first [io_step | bool_step].
      reflexivity. }
  cbv beta iota.
  unfold _make_tasks. rewrite ?io_bind_assoc.
  erewrite io_bind_eq.
  2:{ unfold lift. f_equal. unfold task_config.
      repeat res_step.
      erewrite bind_Ok_eq;
        [|eapply protect_ends_keeps; [reflexivity|reflexivity|lra|lra]].
      repeat res_step.
      reflexivity. }
  cbv beta iota.
  repeat first [io_step | bool_step].
  reflexivity.
Qed.

Lemma make_tasks_two_step_configs_witness :
  exists jd jd0 fs',
    sample_make_tasks "/work" "/work/job" Sample.gen_jdata (JStr "einstein")
      "two-step" Sample.gen_fs = (Ok jd, fs')
    /\ fs' !! "/work/job/in.json"
       = Some (FJson (<["model" := JStr "graph.pb"]>
                        (<["equi_conf" := JStr "conf.lmp"]> Sample.gen_jdata)))
    /\ fs' !! "/work/job/00.deep_on/in.json" = Some (FJson jd0)
    /\ jd0 !! "step" = Some (JStr "deep_on")
    /\ fs' !! "/work/job/01.spring_off/in.json" = Some (FJson jd)
    /\ jd !! "step" = Some (JStr "spring_off").
Proof.
  destruct sample_two_step_run as (jd & fs' & Hrun).
  destruct (make_tasks_two_step_configs Sample.create_path Sample.parse_seq
              Sample._gen_lammps_input Sample._gen_lammps_input_ideal
              sample_create_path_under _ _ _ _ _ _ _ Hrun)
    as (jd0 & Htop & Hj0 & _ & Hst0 & _ & Hj1 & _ & Hst1 & _).
  exists jd, jd0, fs'. auto 10.
Defined.

End GenerationExamples.

(** * Further properties of the schedules and of the post-processing *)

(** ** The integrands of the protocols compared *)

Section IntegrandSumFacts.
Local Open Scope R_scope.

(** X18: under the one-step and the two-step switch, the integrand of
    the stage [both] is, task by task, the sum of the integrands of the
    stages [deep_on] and [spring_off], and its error the root of the sum
    of their squared errors. *)
Theorem integrand_both_is_sum (switch : string) (a : task_arrays) :
  switch = "one-step" \/ switch = "two-step" ->
  exists de_b err_b de_d err_d de_s err_s,
    integrand switch "both" a = Ok (de_b, err_b)
    /\ integrand switch "deep_on" a = Ok (de_d, err_d)
    /\ integrand switch "spring_off" a = Ok (de_s, err_s)
    /\ (forall (k : nat) x y, de_d !! k = Some x -> de_s !! k = Some y ->
          de_b !! k = Some (x + y))
    /\ (forall (k : nat) x y, err_d !! k = Some x -> err_s !! k = Some y ->
          err_b !! k = Some (sqrt (x * x + y * y))).
Proof.
  intros Hs. unfold integrand.
  destruct (decide (switch = "one-step" \/ switch = "two-step")) as [_|N];
    [|contradiction].
  rewrite (decide_True (P := "both" = "both")) by reflexivity.
  rewrite (decide_False (P := "deep_on" = "both")) by discriminate.
  rewrite (decide_True (P := "deep_on" = "deep_on")) by reflexivity.
  rewrite (decide_False (P := "spring_off" = "both")) by discriminate.
  rewrite (decide_False (P := "spring_off" = "deep_on")) by discriminate.
  rewrite (decide_True (P := "spring_off" = "spring_off")) by reflexivity.
  eexists _, _, _, _, _, _. split; [reflexivity|]. split; [reflexivity|].
  split; [reflexivity|]. split.
  - intros k x y Hx Hy.
    unfold np.div at 1 in Hy.
    apply lookup_zip_with_Some in Hy as (s & l' & -> & Hs' & Hl').
    apply list_lookup_fmap_Some in Hs' as (s0 & -> & Hs0).
    pose proof (np_div_lookup _ _ _ _ _ Hs0 Hl') as Hq.
    rewrite lookup_zip_with, Hx. simpl. rewrite Hq. simpl.
    f_equal. unfold Rdiv. lra.
  - intros k x y Hx Hy.
    unfold np.sqrt, np.add, np.square.
    rewrite list_lookup_fmap, lookup_zip_with.
    rewrite !list_lookup_fmap, Hx, Hy. reflexivity.
Qed.

Lemma integrand_both_is_sum_witness :
  exists de_b de_d de_s err_b err_d err_s,
    integrand "two-step" "both" (TaskArrays [1 / 2] [3] [4] [1] [3]) = Ok (de_b, err_b)
    /\ integrand "two-step" "deep_on" (TaskArrays [1 / 2] [3] [4] [1] [3]) = Ok (de_d, err_d)
    /\ integrand "two-step" "spring_off" (TaskArrays [1 / 2] [3] [4] [1] [3]) = Ok (de_s, err_s)
    /\ de_d = [1 / (1 / 2)] /\ de_s = [- 3 / (1 - 1 / 2)]
    /\ de_b !! 0%nat = Some (1 / (1 / 2) + - 3 / (1 - 1 / 2)).
Proof.
  destruct (integrand_both_is_sum "two-step" (TaskArrays [1 / 2] [3] [4] [1] [3]))
    as (de_b & err_b & de_d & err_d & de_s & err_s & Eb & Ed & Es & Hde & Herr).
  - right. reflexivity.
  - exists de_b, de_d, de_s, err_b, err_d, err_s.
    split; [exact Eb|]. split; [exact Ed|]. split; [exact Es|].
    assert (Hd : de_d = [1 / (1 / 2)]).
    { unfold integrand in Ed. simpl in Ed. injection Ed as <- _. reflexivity. }
    assert (Hs : de_s = [- 3 / (1 - 1 / 2)]).
    { unfold integrand in Es. simpl in Es. injection Es as <- _. reflexivity. }
    split; [exact Hd|]. split; [exact Hs|].
    apply Hde; [rewrite Hd|rewrite Hs]; reflexivity.
Defined.

End IntegrandSumFacts.

(** ** The method of integration *)

Section MethodFacts.
Local Open Scope R_scope.

Variable block_avg : list R -> json -> json -> result (R * R).
Variable integrate_range :
  list R -> list R -> list R -> string ->
  result (list R * list R * list R * list R).
Variable electron_volt Boltzmann : R.
Variable mbar_free_energy_differences :
  list (list R) -> list Z -> result (list (list R) * list (list R)).

Local Abbreviation _post_tasks' := (_post_tasks block_avg integrate_range electron_volt).
Local Abbreviation _post_tasks_mbar' :=
  (_post_tasks_mbar block_avg electron_volt Boltzmann mbar_free_energy_differences).
Local Abbreviation post_tasks' :=
  (post_tasks block_avg integrate_range electron_volt Boltzmann
              mbar_free_energy_differences).

Lemma post_tasks_mbar_raises stage jdata natoms switch step :
  raises (_post_tasks_mbar' stage jdata natoms switch step).
Proof.
  unfold _post_tasks_mbar.
  apply raises_bind. intros stat_skip _. apply raises_bind. intros stat_bsize _.
  apply raises_bind. intros _ _.
  destruct (negb (equi_conf_isfile stage)); [eexists; reflexivity|].
  apply raises_bind. intros temp _. apply raises_bind. intros n _.
  apply raises_bind. intros tempr _.
  destruct (all_tasks stage) as [|ii rest] eqn:Et.
  - simpl. apply raises_bind. intros [d e] _. eexists. reflexivity.
  - apply raises_bind. intros [ukn nk] Hl. exfalso.
    destruct (mbar_loop_raises (map lambda_out (ii :: rest))
                (Boltzmann * tempr / electron_volt) stat_skip 0 ii rest [] [])
      as [ex Hex].
    rewrite Hex in Hl. discriminate Hl.
Qed.

(** X19: with the method [mbar], [post_tasks] returns no result: for
    every job, whatever protocol its directory shows, it raises. *)
Theorem post_tasks_mbar_unusable (job : job_dir) (jdata : gmap string json)
    (natoms : option Z) (scheme : string) :
  raises (post_tasks' job jdata natoms "mbar" scheme).
Proof.
  unfold post_tasks.
  assert (Hs : forall switch sub step,
            raises (stage_fe block_avg integrate_range electron_volt Boltzmann
                      mbar_free_energy_differences job jdata natoms "mbar" scheme
                      switch sub step)).
  { intros switch sub step. unfold stage_fe.
    rewrite decide_False by discriminate. rewrite decide_True by reflexivity.
    apply post_tasks_mbar_raises. }
  cbv zeta. destruct (decide (detect_switch job = "two-step")) as [E2|N2].
  { destruct (Hs (detect_switch job) "00.deep_on" "deep_on") as [e ->].
    eexists. reflexivity. }
  destruct (decide (detect_switch job = "three-step")) as [E3|N3].
  { destruct (Hs (detect_switch job) "00.lj_on" "lj_on") as [e ->].
    eexists. reflexivity. }
  rewrite decide_False by discriminate. rewrite decide_True by reflexivity.
  apply post_tasks_mbar_raises.
Qed.

(** X20: with a method that is neither [inte] nor [mbar], [post_tasks]
    raises its RuntimeError on a two-step or three-step job, and on a
    one-step job an UnboundLocalError (a NameError) for [de], which no
    branch has bound. *)
Theorem post_tasks_unknown_method (job : job_dir) (jdata : gmap string json)
    (natoms : option Z) (method scheme : string) :
  method <> "inte" -> method <> "mbar" ->
  post_tasks' job jdata natoms method scheme
  = if isdir job "00.deep_on" || isdir job "00.lj_on"
    then Raise (RuntimeError "unknow method for integration")
    else Raise (NameError "de").
Proof.
  intros Hi Hm. unfold post_tasks. cbv zeta.
  assert (Hd : detect_switch job
               = if isdir job "00.lj_on" then "three-step"
                 else if isdir job "00.deep_on" then "two-step" else "one-step").
  { unfold detect_switch.
    destruct (isdir job "00.lj_on"), (isdir job "00.deep_on"); reflexivity. }
  rewrite Hd. unfold stage_fe.
  destruct (decide (method = "inte")) as [|_]; [contradiction|].
  destruct (decide (method = "mbar")) as [|_]; [contradiction|].
  destruct (isdir job "00.lj_on"), (isdir job "00.deep_on"); cbn [orb].
  - rewrite decide_False by discriminate. rewrite decide_True by reflexivity.
    reflexivity.
  - rewrite decide_False by discriminate. rewrite decide_True by reflexivity.
    reflexivity.
  - rewrite decide_True by reflexivity. reflexivity.
  - rewrite !decide_False by discriminate. reflexivity.
Qed.

(** X21: on a stage without task directories [_post_tasks] returns no
    result, whatever the quadrature does on empty arrays. *)
Theorem post_tasks_no_task (stage : stage_dir) (jdata : gmap string json)
    (natoms : option Z) (scheme switch step : string) :
  all_tasks stage = [] ->
  raises (_post_tasks' stage jdata natoms scheme switch step).
Proof.
  intros Ht. unfold _post_tasks. rewrite Ht.
  apply raises_bind. intros stat_skip _. apply raises_bind. intros stat_bsize _.
  apply raises_bind. intros _ _.
  destruct (negb (equi_conf_isfile stage)); [eexists; reflexivity|].
  apply raises_bind. intros n _. simpl collect_tasks.
  cbn [mbind result_bind]. cbn [all_lambda].
  apply raises_bind. intros [de all_err] _.
  apply raises_bind. intros [[d e] s] Hint. exfalso.
  unfold integrate_schedule in Hint.
  apply result_bind_Ok in Hint as ([[[nl i] ie] se] & _ & Hint).
  apply result_bind_Ok in Hint as (x & _ & Hint).
  discriminate Hint.
Qed.


End MethodFacts.

Section MethodExamples.
Local Open Scope R_scope.

Lemma sample_isdir_deep_on : isdir Sample.two_step_job "00.deep_on" = true.
Proof. vm_compute. reflexivity. Qed.

Lemma post_tasks_unknown_method_witness :
  post_tasks Sample.block_avg Sample.integrate_range 1 1
    Sample.mbar_free_energy_differences Sample.two_step_job Sample.jdata None
    "simpson" "s"
  = Raise (RuntimeError "unknow method for integration").
Proof.
  rewrite (post_tasks_unknown_method Sample.block_avg Sample.integrate_range 1 1
             Sample.mbar_free_energy_differences Sample.two_step_job Sample.jdata
             None "simpson" "s") by discriminate.
  rewrite sample_isdir_deep_on. reflexivity.
Defined.

Lemma post_tasks_no_task_witness :
  raises (_post_tasks Sample.block_avg Sample.integrate_range 1
            (StageDir [] None true 2) Sample.jdata None "s" "one-step" "both").
Proof.
  apply (post_tasks_no_task Sample.block_avg Sample.integrate_range 1
           (StageDir [] None true 2)). reflexivity.
Defined.

End MethodExamples.

(** ** Protecting a protected schedule *)

Section ProtectionFacts.
Local Open Scope list_scope.
Local Open Scope R_scope.

(** [protect_ends] on a schedule of one point and on a longer one. *)
Lemma protect_ends_one (x : R) (protect_eps : json) :
  protect_ends [x] protect_eps
  = x1 ← (if decide (x = 0) then eps ← as_float protect_eps; Ok (x + eps) else Ok x);
    if decide (x1 = 1) then eps ← as_float protect_eps; Ok [x1 - eps] else Ok [x1].
Proof.
  unfold protect_ends. rewrite py_index_0. cbn [mbind result_bind].
  destruct (decide (x = 0)) as [->|H0].
  - destruct (as_float protect_eps) as [eps|ex]; [|reflexivity].
    cbn [mbind result_bind]. reflexivity.
  - cbn [mbind result_bind]. reflexivity.
Qed.

Lemma protect_ends_many (x lst : R) (mid : list R) (protect_eps : json) :
  protect_ends (x :: mid ++ [lst]) protect_eps
  = x1 ← (if decide (x = 0) then eps ← as_float protect_eps; Ok (x + eps) else Ok x);
    if decide (lst = 1) then eps ← as_float protect_eps; Ok (x1 :: mid ++ [lst - eps])
    else Ok (x1 :: mid ++ [lst]).
Proof.
  assert (Hlast : forall z, py_index (z :: mid ++ [lst]) (-1) = Ok lst).
  { intros z. apply (py_index_last (z :: mid)). }
  assert (Hset : forall z w,
            <[(length (z :: mid ++ [lst]) - 1)%nat := w]> (z :: mid ++ [lst])
            = z :: mid ++ [w]).
  { intros z w. apply (insert_last_snoc (z :: mid)). }
  unfold protect_ends. rewrite py_index_0. cbn [mbind result_bind].
  destruct (decide (x = 0)) as [->|H0].
  - destruct (as_float protect_eps) as [eps|ex]; [|reflexivity].
    cbn [mbind result_bind].
    change (<[0%nat:=0 + eps]> (0 :: mid ++ [lst])) with (0 + eps :: mid ++ [lst]).
    rewrite Hlast. cbn [mbind result_bind].
    destruct (decide (lst = 1)); [|reflexivity].
    cbn [mbind result_bind]. rewrite Hset. reflexivity.
  - cbn [mbind result_bind]. rewrite Hlast. cbn [mbind result_bind].
    destruct (decide (lst = 1)); [|reflexivity].
    destruct (as_float protect_eps) as [eps|ex]; [|reflexivity].
    cbn [mbind result_bind]. rewrite Hset. reflexivity.
Qed.

Lemma list_ends {A} (l : list A) :
  l = [] \/ (exists x, l = [x]) \/ exists x mid y, l = x :: mid ++ [y].
Proof.
  destruct l as [|x l]; [auto|]. right.
  destruct l as [|y l] using rev_ind; [eauto|]. right. eauto.
Qed.

Ltac protect_case :=
  repeat first
    [ progress cbn [mbind result_bind] in *
    | match goal with
      | |- context [decide (?a = ?b)] => destruct (decide (a = b))
      | H : context [decide (?a = ?b)] |- _ => destruct (decide (a = b))
      | H : Raise _ = Ok _ |- _ => discriminate H
      | H : Ok _ = Ok _ |- _ => injection H as H
      end ].

(** X13: the protection of the end points is idempotent: a schedule that
    came out of it is left as it is when protected again with the same
    [protect_eps]. *)
Theorem protect_ends_idempotent (all_lambda r : list R) (protect_eps : json) :
  protect_ends all_lambda protect_eps = Ok r ->
  protect_ends r protect_eps = Ok r.
Proof.
  intros H.
  destruct (list_ends all_lambda) as [->|[[x ->]|(x & mid & y & ->)]].
  - discriminate H.
  - rewrite protect_ends_one in H.
    destruct (as_float protect_eps) as [eps|ex] eqn:He.
    + protect_case; subst r; rewrite protect_ends_one, He; protect_case;
        first [lra | reflexivity | f_equal; f_equal; lra].
    + protect_case; subst r; rewrite protect_ends_one, He; protect_case;
        first [lra | reflexivity].
  - rewrite protect_ends_many in H.
    destruct (as_float protect_eps) as [eps|ex] eqn:He.
    + protect_case; subst r; rewrite protect_ends_many, He; protect_case;
        first [lra | reflexivity | do 2 f_equal; try lra; do 2 f_equal; lra].
    + protect_case; subst r; rewrite protect_ends_many, He; protect_case;
        first [lra | reflexivity].
Qed.

Lemma protect_ends_idempotent_witness :
  exists r, protect_ends [0; 1 / 2; 1] (JFloat (1 / 100)) = Ok r
            /\ protect_ends r (JFloat (1 / 100)) = Ok r.
Proof.
  assert (E : protect_ends [0; 1 / 2; 1] (JFloat (1 / 100))
              = Ok [0 + 1 / 100; 1 / 2; 1 - 1 / 100]).
  { rewrite (protect_ends_many 0 1 [1 / 2]).
    rewrite (decide_True (P := 0 = 0)) by reflexivity.
    cbn [mbind result_bind as_float].
    rewrite (decide_True (P := 1 = 1)) by reflexivity. reflexivity. }
  eexists. split; [exact E|].
  apply (protect_ends_idempotent [0; 1 / 2; 1]). exact E.
Defined.

End ProtectionFacts.

(** ** The points of a refined schedule *)

Section RefinedScheduleFacts.
Local Open Scope list_scope.

Lemma insert_points_none (ti hh : R) (m : Z) (rt : list R) (bm : list Z) :
  (m <= 1)%Z -> insert_points ti hh m rt bm = (rt, bm).
Proof.
  intros Hm. unfold insert_points, py_range.
  replace (seqZ 1 (m - 1)) with (@nil Z); [reflexivity|].
  unfold seqZ. replace (Z.to_nat (m - 1)) with 0%nat by lia. reflexivity.
Qed.

Lemma refine_loop_none (all_t : list R) (nref : list Z) (len s : nat) :
  Forall (fun m => m <= 1)%Z nref ->
  (s + len <= length nref)%nat -> (length nref < length all_t)%nat ->
  refine_loop all_t nref (seq s len) (take s all_t) (Z.of_nat <$> seq 0 s)
  = Ok (take (s + len) all_t, Z.of_nat <$> seq 0 (s + len)).
Proof.
  intros Hle. revert s. induction len as [|len IH]; intros s Hs Hn.
  - rewrite Nat.add_0_r. reflexivity.
  - simpl.
    destruct (lookup_lt_is_Some_2 all_t s) as [ti Hti]; [lia|].
    destruct (lookup_lt_is_Some_2 all_t (S s)) as [ti1 Hti1]; [lia|].
    destruct (lookup_lt_is_Some_2 nref s) as [m Hm]; [lia|].
    assert (Hm1 : (m <= 1)%Z) by (eapply Forall_lookup_1 in Hle; eauto).
    rewrite Hti, Hti1, Hm. simpl.
    rewrite insert_points_none by exact Hm1.
    rewrite <- (take_S_r _ _ _ Hti).
    replace ((Z.of_nat <$> seq 0 s) ++ [Z.of_nat s]) with (Z.of_nat <$> seq 0 (S s)).
    + replace (s + S len)%nat with (S s + len)%nat by lia. apply IH; lia.
    + rewrite seq_S, fmap_app. reflexivity.
Qed.

(** X14: when no interval is to be cut (every count is at most 1) the
    refined schedule is the schedule itself and the back map sends every
    task to itself. *)
Theorem refine_schedule_nothing_to_refine (all_t : list R) (interval_nrefine : list Z) :
  (1 <= length all_t)%nat ->
  length interval_nrefine = (length all_t - 1)%nat ->
  Forall (fun m => m <= 1)%Z interval_nrefine ->
  refine_schedule all_t interval_nrefine
  = Ok (all_t, Z.of_nat <$> seq 0 (length all_t)).
Proof.
  intros Hn Hlen Hle. unfold refine_schedule.
  pose proof (refine_loop_none all_t interval_nrefine (length all_t - 1) 0 Hle
                ltac:(lia) ltac:(lia)) as E.
  rewrite take_0 in E. change (Z.of_nat <$> seq 0 0) with (@nil Z) in E.
  rewrite E. simpl "≫=".
  destruct (lookup_lt_is_Some_2 all_t (length all_t - 1)) as [tl Htl]; [lia|].
  assert (Hidx : py_index all_t (-1) = Ok tl).
  { unfold py_index. rewrite decide_False by lia. rewrite decide_True by lia.
    replace (Z.to_nat (Z.of_nat (length all_t) + -1)) with (length all_t - 1)%nat by lia.
    rewrite Htl. reflexivity. }
  rewrite Hidx. simpl "≫=". f_equal. f_equal.
  - rewrite <- (take_S_r _ _ _ Htl).
    replace (S (length all_t - 1)) with (length all_t) by lia.
    apply firstn_all.
  - transitivity (Z.of_nat <$> seq 0 (S (length all_t - 1))).
    + rewrite seq_S, fmap_app. simpl. do 2 f_equal. lia.
    + do 2 f_equal. lia.
Qed.

Lemma refine_schedule_nothing_to_refine_witness :
  refine_schedule [0.2; 0.4; 0.8]%R [1; 0]%Z = Ok ([0.2; 0.4; 0.8]%R, [0; 1; 2]%Z).
Proof.
  apply (refine_schedule_nothing_to_refine [0.2; 0.4; 0.8]%R [1; 0]%Z).
  - simpl. lia.
  - reflexivity.
  - repeat constructor; lia.
Defined.

Local Open Scope R_scope.

Lemma StronglySorted_snoc (l : list R) (b : R) :
  StronglySorted Rlt l -> Forall (fun x => x < b) l -> StronglySorted Rlt (l ++ [b]).
Proof.
  induction 1 as [|x l Hl IH Hx]; intros Hb; simpl.
  - repeat constructor.
  - apply Forall_cons in Hb as [Hxb Hb]. constructor; [apply IH, Hb|].
    apply Forall_app. split; [exact Hx|]. repeat constructor. exact Hxb.
Qed.

Lemma Forall_lt_snoc (l : list R) (b c : R) :
  Forall (fun x => x < b) l -> b < c -> Forall (fun x => x < c) (l ++ [b]).
Proof.
  intros Hl Hbc. apply Forall_app. split.
  - eapply Forall_impl; [exact Hl|]. intros x Hx. simpl in Hx. lra.
  - repeat constructor. exact Hbc.
Qed.

Lemma sorted_lookup_lt (l : list R) (i j : nat) (x y : R) :
  StronglySorted Rlt l -> l !! i = Some x -> l !! j = Some y -> (i < j)%nat -> x < y.
Proof.
  intros Hl. revert i j. induction Hl as [|z l Hl IH Hz]; intros i j Hi Hj Hij.
  - discriminate Hi.
  - destruct j as [|j]; [lia|]. simpl in Hj. destruct i as [|i].
    + injection Hi as <-. eapply Forall_lookup_1 in Hz; eauto.
    + simpl in Hi. eapply IH; eauto. lia.
Qed.

(** The points inserted into one interval go upwards and stay below
    [ti + (a + n) * hh]. *)
Lemma insert_fold_sorted (ti hh : R) (n : nat) (a : Z) (rt : list R) (bm : list Z) :
  0 < hh -> StronglySorted Rlt rt -> Forall (fun x => x < ti + IZR a * hh) rt ->
  exists rt' bm',
    foldl (fun acc jj => (acc.1 ++ [ti + IZR jj * hh], acc.2 ++ [(-1)%Z]))
          (rt, bm) (seqZ a (Z.of_nat n)) = (rt', bm')
    /\ StronglySorted Rlt rt'
    /\ Forall (fun x => x < ti + IZR (a + Z.of_nat n) * hh) rt'.
Proof.
  intros Hh Hs Hb. induction n as [|n IH].
  - exists rt, bm. simpl. split; [reflexivity|]. split; [exact Hs|].
    rewrite Z.add_0_r. exact Hb.
  - destruct IH as (rt' & bm' & E & Hs' & Hb').
    rewrite seqZ_S, foldl_app, E. simpl.
    eexists _, _. split; [reflexivity|]. split.
    + apply StronglySorted_snoc; assumption.
    + apply Forall_lt_snoc; [exact Hb'|].
      replace (a + Z.of_nat (S n))%Z with (a + Z.of_nat n + 1)%Z by lia.
      rewrite (plus_IZR _ 1). lra.
Qed.

Lemma refine_loop_sorted (all_t : list R) (nref : list Z) (len s : nat)
    (rt : list R) (bm : list Z) :
  StronglySorted Rlt all_t ->
  Forall (fun m => 1 <= m)%Z nref ->
  length nref = (length all_t - 1)%nat ->
  (s + len <= length all_t - 1)%nat ->
  StronglySorted Rlt rt ->
  (forall x, all_t !! s = Some x -> Forall (fun y => y < x) rt) ->
  exists rt' bm',
    refine_loop all_t nref (seq s len) rt bm = Ok (rt', bm')
    /\ StronglySorted Rlt rt'
    /\ (forall x, all_t !! (s + len)%nat = Some x -> Forall (fun y => y < x) rt').
Proof.
  intros Hsort Hpos Hn. revert s rt bm.
  induction len as [|len IH]; intros s rt bm Hs Hrt Hbound.
  - rewrite Nat.add_0_r. simpl. eauto.
  - simpl.
    destruct (lookup_lt_is_Some_2 all_t s) as [ti Hti]; [lia|].
    destruct (lookup_lt_is_Some_2 all_t (S s)) as [ti1 Hti1]; [lia|].
    destruct (lookup_lt_is_Some_2 nref s) as [m Hm]; [lia|].
    assert (Hm1 : (1 <= m)%Z) by (eapply Forall_lookup_1 in Hpos; eauto).
    rewrite Hti, Hti1, Hm. simpl.
    assert (Hlt : ti < ti1)
      by (eapply sorted_lookup_lt; [exact Hsort|exact Hti|exact Hti1|lia]).
    assert (Hm0 : 0 < IZR m) by (apply IZR_lt; lia).
    set (hh := (ti1 - ti) / IZR m).
    assert (Hh : 0 < hh) by (apply Rdiv_lt_0_compat; lra).
    destruct (insert_fold_sorted ti hh (Z.to_nat (m - 1)) 1 (rt ++ [ti])
                (bm ++ [Z.of_nat s]) Hh) as (rt1 & bm1 & E & Hs1 & Hb1).
    { apply StronglySorted_snoc; [exact Hrt|]. apply Hbound, Hti. }
    { apply Forall_lt_snoc; [apply Hbound, Hti|]. lra. }
    unfold insert_points, py_range.
    rewrite Z2Nat.id in E, Hb1 by lia. rewrite E.
    replace (s + S len)%nat with (S s + len)%nat by lia.
    apply IH; [lia|exact Hs1|].
    intros x Hx. rewrite Hti1 in Hx. injection Hx as <-.
    eapply Forall_impl; [exact Hb1|]. intros y Hy. simpl in Hy.
    replace (1 + (m - 1))%Z with m in Hy by lia.
    replace (ti + IZR m * hh) with ti1 in Hy; [exact Hy|].
    unfold hh. field. lra.
Qed.

(** X15: the refinement of a strictly increasing schedule, with counts
    of at least 1, is strictly increasing and has the first and the last
    point of the schedule it refines. *)
Theorem refine_schedule_increasing (all_t : list R) (interval_nrefine : list Z) :
  StronglySorted Rlt all_t ->
  (1 <= length all_t)%nat ->
  length interval_nrefine = (length all_t - 1)%nat ->
  Forall (fun m => 1 <= m)%Z interval_nrefine ->
  exists refined_t back_map,
    refine_schedule all_t interval_nrefine = Ok (refined_t, back_map)
    /\ StronglySorted Rlt refined_t
    /\ head refined_t = head all_t
    /\ last refined_t = last all_t.
Proof.
  intros Hsort Hn Hlen Hpos. unfold refine_schedule.
  destruct (refine_loop_sorted all_t interval_nrefine (length all_t - 1) 0 [] []
              Hsort Hpos Hlen ltac:(lia)) as (rt & bm & E & Hs & Hb).
  { constructor. }
  { intros x _. constructor. }
  destruct (refine_loop_inv all_t interval_nrefine (length all_t - 1) 0 [] []
              Hpos Hlen ltac:(lia) eq_refl eq_refl)
    as (rt2 & bm2 & E2 & Hrt & _ & Horig & _).
  { intros k x Hk. lia. }
  { intros j b Hj. discriminate Hj. }
  rewrite E in E2. injection E2 as <- <-. rewrite E. simpl "≫=".
  simpl in Hb, Hrt, Horig.
  destruct (lookup_lt_is_Some_2 all_t (length all_t - 1)) as [tl Htl]; [lia|].
  assert (Hidx : py_index all_t (-1) = Ok tl).
  { unfold py_index. rewrite decide_False by lia. rewrite decide_True by lia.
    replace (Z.to_nat (Z.of_nat (length all_t) + -1)) with (length all_t - 1)%nat by lia.
    rewrite Htl. reflexivity. }
  rewrite Hidx. simpl "≫=". eexists _, _. split; [reflexivity|].
  split; [|split].
  - apply StronglySorted_snoc; [exact Hs|]. apply Hb, Htl.
  - destruct all_t as [|t0 rest]; [simpl in Hn; lia|]. simpl head.
    destruct rest as [|t1 rest'].
    + simpl in Hrt. destruct rt; [|discriminate Hrt]. simpl in Htl.
      injection Htl as <-. reflexivity.
    + destruct (Horig 0%nat t0) as [H0 _]; [simpl; lia|reflexivity|].
      rewrite offset_0 in H0. destruct rt as [|r0 rt]; [discriminate H0|].
      simpl in H0. injection H0 as ->. reflexivity.
  - rewrite last_snoc. rewrite last_lookup.
    replace (pred (length all_t)) with (length all_t - 1)%nat by lia.
    symmetry. exact Htl.
Qed.

Lemma refine_schedule_increasing_witness :
  exists refined_t back_map,
    refine_schedule [0.2; 0.4; 0.8] [1; 2]%Z = Ok (refined_t, back_map)
    /\ StronglySorted Rlt refined_t
    /\ head refined_t = Some 0.2 /\ last refined_t = Some 0.8.
Proof.
  destruct (refine_schedule_increasing [0.2; 0.4; 0.8] [1; 2]%Z)
    as (rt & bm & E & Hs & Hh & Hl).
  - repeat constructor; lra.
  - simpl. lia.
  - reflexivity.
  - repeat constructor; lia.
  - exists rt, bm. auto.
Defined.

End RefinedScheduleFacts.

(** * Reading LAMMPS files *)

(** ** Lines *)

Section LinesFacts.
Local Open Scope list_scope.

Lemma string_app_nil (s : string) : "" +:+ s = s.
Proof. reflexivity. Qed.

Lemma string_app_cons (c : ascii) (a b : string) :
  String c a +:+ b = String c (a +:+ b).
Proof. reflexivity. Qed.

Lemma split_first_one_line (s : string) :
  one_line (split_first s).1 /\ Forall one_line (split_first s).2.
Proof.
  induction s as [|c s [IH1 IH2]]; [split; [exact I|constructor]|].
  cbn [split_first]. destruct (split_first s) as [w ws]. simpl in IH1, IH2.
  case_decide as Hc; simpl.
  - split; [exact I|]. constructor; assumption.
  - split; [split; assumption|assumption].
Qed.

(** The lines of a text hold no line break. *)
Lemma split_lines_one_line (s : string) : Forall one_line (split_lines s).
Proof.
  unfold split_lines. pose proof (split_first_one_line s) as [H1 H2].
  destruct (split_first s) as [w ws]. constructor; assumption.
Qed.

Lemma split_lines_cons (s : string) : exists w ws, split_lines s = w :: ws.
Proof. unfold split_lines. destruct (split_first s) as [w ws]. eauto. Qed.

Lemma join_lines_cons (w : string) (ws : list string) :
  join_lines (w :: ws)
  = match ws with [] => w | _ => w +:+ String newline "" +:+ join_lines ws end.
Proof. destruct ws; reflexivity. Qed.

(** Joining the lines of a text gives the text back. *)
Lemma join_split_lines (s : string) : join_lines (split_lines s) = s.
Proof.
  unfold split_lines. induction s as [|c s IH]; [reflexivity|].
  cbn [split_first]. destruct (split_first s) as [w ws].
  case_decide as Hc.
  - subst c. rewrite join_lines_cons, string_app_nil, string_app_cons, string_app_nil.
    f_equal. exact IH.
  - rewrite join_lines_cons in IH |- *. destruct ws as [|w' ws'].
    + f_equal. exact IH.
    + rewrite string_app_cons. f_equal. exact IH.
Qed.

Lemma split_first_app_line (w : string) (rest : string) :
  one_line w ->
  split_first (w +:+ String newline rest)
  = (w, (split_first rest).1 :: (split_first rest).2).
Proof.
  induction w as [|c w IH]; intros Hw.
  - rewrite string_app_nil. cbn [split_first].
    destruct (split_first rest) as [w' ws'].
    rewrite decide_True by reflexivity. reflexivity.
  - destruct Hw as [Hc Hw]. rewrite string_app_cons. cbn [split_first].
    rewrite (IH Hw). rewrite decide_False by exact Hc. reflexivity.
Qed.

Lemma split_first_one (w : string) : one_line w -> split_first w = (w, []).
Proof.
  induction w as [|c w IH]; intros Hw; [reflexivity|].
  destruct Hw as [Hc Hw]. cbn [split_first]. rewrite (IH Hw).
  rewrite decide_False by exact Hc. reflexivity.
Qed.

(** The lines of joined lines are these lines. *)
Lemma split_join_lines (w : string) (ws : list string) :
  Forall one_line (w :: ws) -> split_lines (join_lines (w :: ws)) = w :: ws.
Proof.
  revert w. induction ws as [|w' ws IH]; intros w Hl.
  - apply Forall_cons in Hl as [Hw _]. rewrite join_lines_cons.
    unfold split_lines. rewrite (split_first_one w Hw). reflexivity.
  - apply Forall_cons in Hl as [Hw Hl]. rewrite join_lines_cons.
    unfold split_lines. rewrite string_app_cons, string_app_nil.
    rewrite (split_first_app_line w _ Hw).
    specialize (IH w' Hl). unfold split_lines in IH.
    destruct (split_first (join_lines (w' :: ws))) as [a b]. simpl.
    f_equal. exact IH.
Qed.

Lemma join_lines_app (a b : list string) :
  b <> [] -> exists p, join_lines (a ++ b) = p +:+ join_lines b.
Proof.
  intros Hb. induction a as [|x a [p IH]].
  - exists "". reflexivity.
  - exists (x +:+ String newline "" +:+ p).
    cbn [app]. rewrite join_lines_cons.
    destruct (a ++ b) as [|y l] eqn:E.
    + apply app_eq_nil in E as [_ E]. contradiction.
    + rewrite IH, !string_app_assoc. reflexivity.
Qed.

End LinesFacts.

(** ** The last frame of a dump *)

Section DumpFacts.
Local Open Scope list_scope.

Local Abbreviation timestep_free :=
  (Forall (fun l => contains "ITEM: TIMESTEP" l = false)).

Local Abbreviation no_timestep_msg :=
  "cannot find timestep in lammps dump, something wrong".

(** What the loop of [get_last_dump] computes: the index of the last
    line with the marker, or the value it started with. *)
Lemma last_timestep_spec (idx : nat) (lines : list string) (step_idx : Z) :
  (timestep_free lines /\ last_timestep idx lines step_idx = step_idx)
  \/ exists pre l post,
       lines = pre ++ l :: post /\ contains "ITEM: TIMESTEP" l = true
       /\ timestep_free post
       /\ last_timestep idx lines step_idx = Z.of_nat (idx + length pre).
Proof.
  revert idx step_idx. induction lines as [|ii rest IH]; intros idx step_idx.
  - left. split; [constructor|reflexivity].
  - cbn [last_timestep].
    destruct (IH (S idx) (if contains "ITEM: TIMESTEP" ii then Z.of_nat idx
                          else step_idx))
      as [[Hfree E]|(pre & l & post & -> & Hl & Hpost & E)].
    + destruct (contains "ITEM: TIMESTEP" ii) eqn:Hii.
      * right. exists [], ii, rest. rewrite E, Nat.add_0_r. auto.
      * left. split; [constructor; assumption|exact E].
    + right. exists (ii :: pre), l, post. rewrite E.
      split; [reflexivity|]. split; [exact Hl|]. split; [exact Hpost|].
      f_equal. simpl. lia.
Qed.

Lemma timestep_free_last (pre post : list string) (l : string) :
  contains "ITEM: TIMESTEP" l = true -> ~ timestep_free (pre ++ l :: post).
Proof.
  intros Hl Hf. apply Forall_app in Hf as [_ Hf].
  apply Forall_cons in Hf as [Hf _]. congruence.
Qed.

(** The frame that starts at the last line with the marker. *)
Lemma get_last_dump_frame (text : string) (pre post : list string) (l : string) :
  split_lines text = pre ++ l :: post ->
  contains "ITEM: TIMESTEP" l = true -> timestep_free post ->
  get_last_dump text = Ok (join_lines (l :: post)).
Proof.
  intros Hlines Hl Hpost. unfold get_last_dump. cbv zeta. rewrite Hlines.
  destruct (last_timestep_spec 0 (pre ++ l :: post) (-1))
    as [[Hfree _]|(pre' & l' & post' & E & Hl' & Hpost' & ->)].
  { exfalso. eapply timestep_free_last; eassumption. }
  assert (Hlen : length pre' = length pre).
  { destruct (decide (length pre' < length pre)%nat) as [Hlt|Hge].
    - exfalso. apply (f_equal (fun x => x !! length pre)) in E.
      rewrite lookup_app_r, Nat.sub_diag in E by lia.
      rewrite lookup_app_r in E by lia.
      destruct (length pre - length pre')%nat as [|n] eqn:En; [lia|].
      simpl in E. symmetry in E.
      eapply Forall_lookup_1 in Hpost'; [|exact E]. simpl in Hpost'. congruence.
    - destruct (decide (length pre < length pre')%nat) as [Hlt|Hge']; [|lia].
      exfalso. apply (f_equal (fun x => x !! length pre')) in E.
      rewrite (lookup_app_r pre'), Nat.sub_diag in E by lia.
      rewrite lookup_app_r in E by lia.
      destruct (length pre' - length pre)%nat as [|n] eqn:En; [lia|].
      simpl in E.
      eapply Forall_lookup_1 in Hpost; [|exact E]. simpl in Hpost. congruence. }
  rewrite decide_False by lia. do 2 f_equal.
  unfold py_slice_from. rewrite decide_True by lia.
  rewrite Nat2Z.id, Nat.add_0_l, Hlen.
  rewrite drop_app_length. reflexivity.
Qed.

Lemma get_last_dump_none (text : string) :
  timestep_free (split_lines text) ->
  get_last_dump text = Raise (RuntimeError no_timestep_msg).
Proof.
  intros Hfree. unfold get_last_dump. cbv zeta.
  destruct (last_timestep_spec 0 (split_lines text) (-1))
    as [[_ ->]|(pre & l & post & E & Hl & _)].
  - rewrite decide_True by reflexivity. reflexivity.
  - rewrite E in Hfree. exfalso. eapply timestep_free_last; eassumption.
Qed.

(** X6: [get_last_dump] raises its RuntimeError exactly on a text none of
    whose lines contains [ITEM: TIMESTEP]. *)
Theorem get_last_dump_error_iff (text : string) :
  get_last_dump text = Raise (RuntimeError no_timestep_msg)
  <-> timestep_free (split_lines text).
Proof.
  split; [|apply get_last_dump_none].
  intros H.
  destruct (last_timestep_spec 0 (split_lines text) (-1))
    as [[Hfree _]|(pre & l & post & E & Hl & Hpost & _)]; [exact Hfree|].
  rewrite (get_last_dump_frame text pre post l E Hl Hpost) in H. discriminate H.
Qed.

(** X7: when [l] is the last line of the text that contains
    [ITEM: TIMESTEP], [get_last_dump] returns the lines from [l] on,
    joined by line breaks: a suffix of the text. *)
Theorem get_last_dump_last_frame (text : string) (pre post : list string) (l : string) :
  split_lines text = pre ++ l :: post ->
  contains "ITEM: TIMESTEP" l = true -> timestep_free post ->
  get_last_dump text = Ok (join_lines (l :: post))
  /\ exists before, text = before +:+ join_lines (l :: post).
Proof.
  intros Hlines Hl Hpost. split; [eapply get_last_dump_frame; eassumption|].
  destruct (join_lines_app pre (l :: post)) as [p Hp]; [discriminate|].
  exists p. rewrite <- Hp, <- Hlines. symmetry. apply join_split_lines.
Qed.

(** X8: [get_last_dump] is idempotent: applied to a frame it returned,
    it returns that frame. *)
Theorem get_last_dump_idempotent (text dump : string) :
  get_last_dump text = Ok dump -> get_last_dump dump = Ok dump.
Proof.
  intros H.
  destruct (last_timestep_spec 0 (split_lines text) (-1))
    as [[Hfree _]|(pre & l & post & E & Hl & Hpost & _)].
  { rewrite (get_last_dump_none text Hfree) in H. discriminate H. }
  rewrite (get_last_dump_frame text pre post l E Hl Hpost) in H.
  injection H as <-.
  apply (get_last_dump_frame _ [] post l); [|exact Hl|exact Hpost].
  apply split_join_lines.
  pose proof (split_lines_one_line text) as Hone. rewrite E in Hone.
  apply Forall_app in Hone as [_ Hone]. exact Hone.
Qed.

End DumpFacts.

(** ** Words *)

Section WordsFacts.
Local Open Scope list_scope.

Lemma string_snoc_ne (tok : string) (c : ascii) : tok +:+ String c "" <> "".
Proof. destruct tok; discriminate. Qed.

(** A string with a character that is not white space has a word. *)
Lemma words_not_nil (tok s : string) :
  tok <> "" \/ blank s = false -> words tok s <> [].
Proof.
  revert tok. induction s as [|c s IH]; intros tok H; cbn [words].
  - destruct H as [H|H]; [|discriminate H].
    rewrite decide_False by exact H. discriminate.
  - cbn [blank] in H. destruct (isspace c).
    + case_decide as Htok; [|discriminate].
      apply IH. destruct H as [H|H]; [contradiction|]. right. exact H.
    + apply IH. left. apply string_snoc_ne.
Qed.

Lemma contains_cons (sub : string) (c : ascii) (s : string) :
  contains sub (String c s) = String.prefix sub (String c s) || contains sub s.
Proof. reflexivity. Qed.

Lemma contains_not_blank (sub0 : string) (a : ascii) (s : string) :
  isspace a = false -> contains (String a sub0) s = true -> blank s = false.
Proof.
  intros Ha. induction s as [|c s IH]; intros H.
  - discriminate H.
  - rewrite contains_cons in H. cbn [blank].
    apply orb_true_iff in H as [H|H].
    + cbn [String.prefix] in H. destruct (ascii_dec a c) as [<-|]; [|discriminate H].
      rewrite Ha. reflexivity.
    + rewrite (IH H). apply andb_false_r.
Qed.

Lemma split_ws_cons (sub0 : string) (a : ascii) (s : string) :
  isspace a = false -> contains (String a sub0) s = true ->
  exists tok rest, split_ws s = tok :: rest.
Proof.
  intros Ha H. unfold split_ws.
  pose proof (words_not_nil "" s (or_intror (contains_not_blank _ _ _ Ha H))) as Hw.
  destruct (words "" s) as [|tok rest]; [contradiction|eauto].
Qed.

End WordsFacts.

(** ** The atom count and the thermo block *)

Section LammpsFacts.
Local Open Scope list_scope.

Variable py_int : string -> result Z.
Variable py_float : string -> result R.

Local Abbreviation lacks sub := (Forall (fun l => contains sub l = false)).

Lemma get_natoms_loop_skip (pre rest : list string) :
  lacks "atoms" pre ->
  get_natoms_loop py_int (pre ++ rest) = get_natoms_loop py_int rest.
Proof.
  induction 1 as [|l pre Hl Hpre IH]; [reflexivity|].
  cbn [app get_natoms_loop]. rewrite Hl. exact IH.
Qed.

(** X1: on a text none of whose lines contains [atoms], [get_natoms]
    raises a NameError for [conf] and not the RuntimeError it builds. *)
Theorem get_natoms_no_key_word (text : string) :
  lacks "atoms" (split_lines text) ->
  get_natoms py_int text = Raise (NameError "conf").
Proof.
  intros H. unfold get_natoms.
  rewrite <- (app_nil_r (split_lines text)).
  rewrite (get_natoms_loop_skip _ [] H). reflexivity.
Qed.

(** X2: the first line that contains [atoms] decides: [get_natoms]
    returns [int] of its first word, which exists, whatever the lines
    after it hold. *)
Theorem get_natoms_first_match (text : string) (pre post : list string) (l : string) :
  split_lines text = pre ++ l :: post ->
  lacks "atoms" pre -> contains "atoms" l = true ->
  exists tok rest,
    split_ws l = tok :: rest /\ get_natoms py_int text = py_int tok.
Proof.
  intros Hlines Hpre Hl.
  destruct (split_ws_cons "toms" "a" l eq_refl Hl) as (tok & rest & Hw).
  exists tok, rest. split; [exact Hw|].
  unfold get_natoms. rewrite Hlines, (get_natoms_loop_skip _ _ Hpre).
  cbn [get_natoms_loop]. rewrite Hl, Hw. reflexivity.
Qed.

Lemma break_index_none (sub : string) (fc : list string) :
  lacks sub fc -> break_index sub fc = None.
Proof.
  induction 1 as [|l fc Hl Hfc IH]; [reflexivity|].
  cbn [break_index]. rewrite Hl, IH. reflexivity.
Qed.

Lemma break_index_first (sub : string) (pre post : list string) (l : string) :
  lacks sub pre -> contains sub l = true ->
  break_index sub (pre ++ l :: post) = Some (length pre).
Proof.
  intros Hpre Hl. induction Hpre as [|x pre Hx Hpre IH]; cbn [app break_index].
  - rewrite Hl. reflexivity.
  - rewrite Hx, IH. reflexivity.
Qed.

Lemma break_index_lt (sub : string) (fc : list string) (k : nat) :
  break_index sub fc = Some k -> (k < length fc)%nat.
Proof.
  revert k. induction fc as [|l fc IH]; intros k H; [discriminate H|].
  cbn [break_index] in H. destruct (contains sub l).
  - injection H as <-. cbn [length]. lia.
  - destruct (break_index sub fc) as [j|]; [|discriminate H].
    injection H as <-. specialize (IH j eq_refl). cbn [length]. lia.
Qed.

Lemma loop_index_le (name sub : string) (fc : list string) (k : nat) :
  loop_index name sub fc = Ok k -> (k <= length fc - 1)%nat.
Proof.
  unfold loop_index. destruct fc as [|l fc]; [discriminate|].
  destruct (break_index sub (l :: fc)) as [j|] eqn:E; intros [= <-]; cbn [default].
  - apply break_index_lt in E. lia.
  - cbn [length]. lia.
Qed.

Lemma loop_index_none (name sub w : string) (ws : list string) :
  lacks sub (w :: ws) -> loop_index name sub (w :: ws) = Ok (length ws).
Proof.
  intros H. unfold loop_index. rewrite (break_index_none _ _ H).
  cbn [default length]. f_equal. lia.
Qed.

(** The rows read from the lines [a], ..., [a + n - 1]. *)
Lemma thermo_rows_range (fc : list string) (n a : nat) :
  (a + n <= length fc)%nat ->
  mapM (M := result) (fun ii => line ← py_index fc ii; thermo_row py_float line)
       (seqZ (Z.of_nat a) (Z.of_nat n))
  = mapM (M := result) (thermo_row py_float) (take n (drop a fc)).
Proof.
  revert a. induction n as [|n IH]; intros a Ha; [reflexivity|].
  rewrite seqZ_cons by lia.
  destruct (lookup_lt_is_Some_2 fc a) as [line Hline]; [lia|].
  rewrite (drop_S _ _ _ Hline). cbn [take mapM].
  replace (Z.succ (Z.of_nat a)) with (Z.of_nat (S a)) by lia.
  replace (Z.pred (Z.of_nat (S n))) with (Z.of_nat n) by lia.
  rewrite IH by lia.
  assert (Hidx : py_index fc (Z.of_nat a) = Ok line).
  { unfold py_index. rewrite decide_True by lia. rewrite Nat2Z.id, Hline. reflexivity. }
  rewrite Hidx. reflexivity.
Qed.

(** X3: [get_thermo] returns the rows between the first line that
    contains the thermo header and the first line that contains
    [Loop time of], each line split at white space and read as floats. *)
Theorem get_thermo_block (text : string) (pre body post : list string)
    (header footer : string) :
  split_lines text = pre ++ header :: body ++ footer :: post ->
  lacks "Step KinEng PotEng TotEng" pre ->
  contains "Step KinEng PotEng TotEng" header = true ->
  lacks "Loop time of" (pre ++ header :: body) ->
  contains "Loop time of" footer = true ->
  get_thermo py_float text
  = mapM (M := result) (thermo_row py_float) body ≫= np_array2.
Proof.
  intros Hlines Hpre Hh Hbody Hf. unfold get_thermo. cbv zeta. rewrite Hlines.
  assert (Hsl : loop_index "sl" "Step KinEng PotEng TotEng"
                  (pre ++ header :: body ++ footer :: post) = Ok (length pre)).
  { unfold loop_index. rewrite (break_index_first _ _ _ _ Hpre Hh).
    destruct (pre ++ header :: body ++ footer :: post) eqn:E; [|reflexivity].
    apply app_eq_nil in E as [_ E]. discriminate E. }
  assert (Hel : loop_index "el" "Loop time of"
                  (pre ++ header :: body ++ footer :: post)
                = Ok (length (pre ++ header :: body))).
  { unfold loop_index.
    replace (pre ++ header :: body ++ footer :: post)
      with ((pre ++ header :: body) ++ footer :: post)
      by (rewrite <- app_assoc; reflexivity).
    rewrite (break_index_first _ _ _ _ Hbody Hf).
    destruct ((pre ++ header :: body) ++ footer :: post) eqn:E; [|reflexivity].
    apply app_eq_nil in E as [_ E]. discriminate E. }
  rewrite Hsl, Hel. cbn [mbind result_bind]. unfold py_range.
  replace (Z.of_nat (length pre) + 1)%Z with (Z.of_nat (S (length pre))) by lia.
  replace (Z.of_nat (length (pre ++ header :: body)) - Z.of_nat (S (length pre)))%Z
    with (Z.of_nat (length body))
    by (rewrite length_app; simpl; lia).
  rewrite thermo_rows_range by (rewrite !length_app; simpl; rewrite length_app; simpl; lia).
  replace (take (length body) (drop (S (length pre))
             (pre ++ header :: body ++ footer :: post))) with body; [reflexivity|].
  replace (pre ++ header :: body ++ footer :: post)
    with ((pre ++ [header]) ++ body ++ footer :: post)
    by (rewrite <- app_assoc; reflexivity).
  replace (S (length pre)) with (length (pre ++ [header]))
    by (rewrite length_app; simpl; lia).
  rewrite drop_app_length, take_app_length. reflexivity.
Qed.

(** X4: in a log without a [Loop time of] line, the rows are the lines
    after the header except the last line of the text. *)
Theorem get_thermo_unfinished (text : string) (pre body : list string)
    (header last_line : string) :
  split_lines text = pre ++ header :: body ++ [last_line] ->
  lacks "Step KinEng PotEng TotEng" pre ->
  contains "Step KinEng PotEng TotEng" header = true ->
  lacks "Loop time of" (split_lines text) ->
  get_thermo py_float text
  = mapM (M := result) (thermo_row py_float) body ≫= np_array2.
Proof.
  intros Hlines Hpre Hh Hfree. unfold get_thermo. cbv zeta.
  rewrite Hlines in Hfree |- *.
  assert (Hne : forall A (a : list A) x b y, a ++ x :: b ++ [y] <> []).
  { intros A a x b y E. apply app_eq_nil in E as [_ E]. discriminate E. }
  assert (Hsl : loop_index "sl" "Step KinEng PotEng TotEng"
                  (pre ++ header :: body ++ [last_line]) = Ok (length pre)).
  { unfold loop_index. rewrite (break_index_first _ _ _ _ Hpre Hh).
    destruct (pre ++ header :: body ++ [last_line]) eqn:E; [|reflexivity].
    exfalso. eapply Hne, E. }
  assert (Hel : loop_index "el" "Loop time of"
                  (pre ++ header :: body ++ [last_line])
                = Ok (length (pre ++ header :: body))).
  { unfold loop_index. rewrite (break_index_none _ _ Hfree).
    destruct (pre ++ header :: body ++ [last_line]) eqn:E; [exfalso; eapply Hne, E|].
    rewrite <- E. cbn [default]. f_equal.
    rewrite !length_app. simpl. rewrite length_app. simpl. lia. }
  rewrite Hsl, Hel. cbn [mbind result_bind]. unfold py_range.
  replace (Z.of_nat (length pre) + 1)%Z with (Z.of_nat (S (length pre))) by lia.
  replace (Z.of_nat (length (pre ++ header :: body)) - Z.of_nat (S (length pre)))%Z
    with (Z.of_nat (length body))
    by (rewrite length_app; simpl; lia).
  rewrite thermo_rows_range by (rewrite !length_app; simpl; rewrite length_app; simpl; lia).
  replace (take (length body) (drop (S (length pre))
             (pre ++ header :: body ++ [last_line]))) with body; [reflexivity|].
  replace (pre ++ header :: body ++ [last_line])
    with ((pre ++ [header]) ++ body ++ [last_line])
    by (rewrite <- app_assoc; reflexivity).
  replace (S (length pre)) with (length (pre ++ [header]))
    by (rewrite length_app; simpl; lia).
  rewrite drop_app_length, take_app_length. reflexivity.
Qed.

(** X5: a log without the thermo header is read as an empty table,
    with no error; the thermodynamic read-out of such a table raises
    IndexError. *)
Theorem get_thermo_no_header (text : string) :
  lacks "Step KinEng PotEng TotEng" (split_lines text) ->
  get_thermo py_float text = Ok []
  /\ forall block_avg electron_volt natoms stat_skip stat_bsize,
       _compute_thermo block_avg electron_volt [] natoms stat_skip stat_bsize
       = Raise IndexError.
Proof.
  intros Hfree. split; [|reflexivity].
  unfold get_thermo. cbv zeta.
  destruct (split_lines_cons text) as (w & ws & E). rewrite E in Hfree |- *.
  rewrite (loop_index_none _ _ _ _ Hfree). cbn [mbind result_bind].
  destruct (loop_index "el" "Loop time of" (w :: ws)) as [el|ex] eqn:Hel;
    [|discriminate Hel].
  apply loop_index_le in Hel. cbn [length] in Hel.
  cbn [mbind result_bind]. unfold py_range.
  rewrite seqZ_nil by lia. reflexivity.
Qed.

End LammpsFacts.

Section LammpsExamples.
Local Open Scope list_scope.

Lemma get_natoms_no_key_word_witness :
  get_natoms Sample.py_int (join_lines ["# generated"; "1 atom types"])
  = Raise (NameError "conf").
Proof.
  apply get_natoms_no_key_word. vm_compute. repeat constructor.
Defined.

Lemma get_natoms_first_match_witness :
  get_natoms Sample.py_int Sample.conf_lmp = Ok 2%Z.
Proof.
  destruct (get_natoms_first_match Sample.py_int Sample.conf_lmp
              ["# generated"; ""] ["1 atom types"; "96 atoms"] "  2 atoms")
    as (tok & rest & Hw & ->).
  - vm_compute. reflexivity.
  - vm_compute. repeat constructor.
  - vm_compute. reflexivity.
  - vm_compute in Hw. injection Hw as <- _. vm_compute. reflexivity.
Defined.

Lemma get_thermo_block_witness :
  get_thermo Sample.py_float Sample.log_lammps
  = Ok [[0; 1; 2; 3; 4]; [10; 5; 6; 7; 8]]%R.
Proof.
  rewrite (get_thermo_block Sample.py_float Sample.log_lammps
             ["LAMMPS (7 Aug 2019)"] ["0 1 2 3 4"; "10 5 6 7 8"]
             ["Total wall time: 0:00:01"]
             "Step KinEng PotEng TotEng Enthalpy" "Loop time of 1 on 1 procs").
  - reflexivity.
  - vm_compute. reflexivity.
  - vm_compute. repeat constructor.
  - vm_compute. reflexivity.
  - vm_compute. repeat constructor.
  - vm_compute. reflexivity.
Defined.

Lemma get_thermo_unfinished_witness :
  get_thermo Sample.py_float
    (join_lines ["Step KinEng PotEng TotEng Enthalpy"; "0 1 2 3 4"; "10 5 6 7 8"; ""])
  = Ok [[0; 1; 2; 3; 4]; [10; 5; 6; 7; 8]]%R.
Proof.
  rewrite (get_thermo_unfinished Sample.py_float _
             [] ["0 1 2 3 4"; "10 5 6 7 8"]
             "Step KinEng PotEng TotEng Enthalpy" "").
  - reflexivity.
  - vm_compute. reflexivity.
  - constructor.
  - vm_compute. reflexivity.
  - vm_compute. repeat constructor.
Defined.

Lemma get_thermo_no_header_witness :
  get_thermo Sample.py_float (join_lines ["LAMMPS (7 Aug 2019)"; "ERROR: bad input"])
  = Ok [].
Proof.
  apply (get_thermo_no_header Sample.py_float). vm_compute. repeat constructor.
Defined.

Lemma get_last_dump_error_iff_witness :
  get_last_dump (join_lines ["ITEM: ATOMS id"; "1"])
  = Raise (RuntimeError "cannot find timestep in lammps dump, something wrong").
Proof.
  apply get_last_dump_error_iff. vm_compute. repeat constructor.
Defined.

Lemma get_last_dump_last_frame_witness :
  get_last_dump Sample.dump
  = Ok (join_lines ["ITEM: TIMESTEP"; "10"; "ITEM: ATOMS id"; "1"]).
Proof.
  apply (get_last_dump_last_frame Sample.dump
           ["ITEM: TIMESTEP"; "0"; "ITEM: ATOMS id"; "1"]
           ["10"; "ITEM: ATOMS id"; "1"] "ITEM: TIMESTEP").
  - vm_compute. reflexivity.
  - vm_compute. reflexivity.
  - vm_compute. repeat constructor.
Defined.

Lemma get_last_dump_idempotent_witness :
  get_last_dump (join_lines ["ITEM: TIMESTEP"; "10"; "ITEM: ATOMS id"; "1"])
  = Ok (join_lines ["ITEM: TIMESTEP"; "10"; "ITEM: ATOMS id"; "1"]).
Proof.
  apply (get_last_dump_idempotent Sample.dump).
  apply (get_last_dump_frame Sample.dump
           ["ITEM: TIMESTEP"; "0"; "ITEM: ATOMS id"; "1"]
           ["10"; "ITEM: ATOMS id"; "1"] "ITEM: TIMESTEP").
  - vm_compute. reflexivity.
  - vm_compute. reflexivity.
  - vm_compute. repeat constructor.
Defined.

End LammpsExamples.

(** * The order of the task names *)

Section OrderFacts.

Lemma string_length_app (a b : string) :
  String.length (a +:+ b) = (String.length a + String.length b)%nat.
Proof.
  induction a as [|c a IH]; [reflexivity|].
  change (S (String.length (a +:+ b)) = S (String.length a + String.length b)).
  f_equal. exact IH.
Qed.

Lemma zeros_length (k : nat) : String.length (zeros k) = k.
Proof.
  induction k as [|k IH]; [reflexivity|].
  change (S (String.length (zeros k)) = S k). f_equal. exact IH.
Qed.

Lemma zeros_snoc (k : nat) : zeros k +:+ "0" = zeros (S k).
Proof.
  induction k as [|k IH]; [reflexivity|].
  change (String "0" (zeros k +:+ "0") = String "0" (zeros (S k))).
  f_equal. exact IH.
Qed.

Lemma digit_0 (n : nat) : (n mod 10 = 0)%nat -> digit n = "0".
Proof. intros H. unfold digit. rewrite H. reflexivity. Qed.

Lemma fixed_width_0 (k : nat) : fixed_width k 0 = zeros k.
Proof.
  induction k as [|k IH]; [reflexivity|].
  cbn [fixed_width]. change (0 / 10)%nat with 0%nat. rewrite IH.
  rewrite (digit_0 0) by reflexivity. apply zeros_snoc.
Qed.

Lemma fixed_width_length (k n : nat) : String.length (fixed_width k n) = k.
Proof.
  revert n. induction k as [|k IH]; intros n; [reflexivity|].
  cbn [fixed_width]. rewrite string_length_app, IH. unfold digit. simpl. lia.
Qed.

(** A number of at most [k] digits, padded with zeros to the width [k]. *)
Lemma decimal_fixed_width (k : nat) :
  forall n fuel, (n < 10 ^ S k)%nat -> (n < fuel)%nat ->
    (String.length (decimal fuel n) <= S k)%nat
    /\ zeros (S k - String.length (decimal fuel n)) +:+ decimal fuel n
       = fixed_width (S k) n.
Proof.
  induction k as [|k IH]; intros n fuel Hn Hf.
  - destruct fuel as [|fuel]; [lia|]. cbn [decimal].
    rewrite decide_True by (simpl in Hn; lia).
    split; [unfold digit; simpl; lia|]. reflexivity.
  - destruct fuel as [|fuel]; [lia|]. cbn [decimal].
    case_decide as Hd.
    + split; [unfold digit; simpl; lia|].
      cbn [fixed_width]. rewrite (Nat.div_small n 10) by lia.
      change (0 / 10)%nat with 0%nat.
      rewrite fixed_width_0, (digit_0 0) by reflexivity.
      rewrite zeros_snoc.
      replace (String.length (digit n)) with 1%nat by reflexivity.
      replace (S (S k) - 1)%nat with (S k) by lia. reflexivity.
    + assert (Hq : (n / 10 < 10 ^ S k)%nat).
      { apply Nat.Div0.div_lt_upper_bound. rewrite <- Nat.pow_succ_r'. exact Hn. }
      assert (Hqf : (n / 10 < fuel)%nat).
      { assert (n / 10 < n)%nat by (apply Nat.div_lt; lia). lia. }
      destruct (IH (n / 10)%nat fuel Hq Hqf) as [Hlen E].
      rewrite string_length_app.
      replace (String.length (digit n)) with 1%nat by reflexivity.
      split; [lia|].
      replace (S (S k) - (String.length (decimal fuel (n / 10)) + 1))%nat
        with (S k - String.length (decimal fuel (n / 10)))%nat by lia.
      rewrite <- string_app_assoc, E. reflexivity.
Qed.

Lemma fmt_06d_fixed_width (idx : nat) :
  (idx < 10 ^ 6)%nat -> fmt_06d idx = fixed_width 6 idx.
Proof.
  intros H. unfold fmt_06d. cbv zeta.
  apply (decimal_fixed_width 5 idx (S idx)); [exact H|lia].
Qed.

Lemma str_lt_app_same (a x y : string) : str_lt (a +:+ x) (a +:+ y) = str_lt x y.
Proof.
  induction a as [|c a IH]; [reflexivity|].
  change (str_lt (String c (a +:+ x)) (String c (a +:+ y)) = str_lt x y).
  cbn [str_lt]. rewrite Nat.ltb_irrefl, Nat.eqb_refl. exact IH.
Qed.

Lemma str_lt_app_lt (a b x y : string) :
  String.length a = String.length b -> str_lt a b = true ->
  str_lt (a +:+ x) (b +:+ y) = true.
Proof.
  revert b. induction a as [|c a IH]; intros b Hlen Hlt.
  - destruct b; [discriminate Hlt|discriminate Hlen].
  - destruct b as [|d b]; [discriminate Hlt|].
    change (str_lt (String c (a +:+ x)) (String d (b +:+ y)) = true).
    cbn [str_lt] in Hlt |- *.
    destruct (Nat.ltb (nat_of_ascii c) (nat_of_ascii d)); [reflexivity|].
    destruct (Nat.eqb (nat_of_ascii c) (nat_of_ascii d)); [|discriminate Hlt].
    apply IH; [|exact Hlt]. simpl in Hlen. lia.
Qed.

Lemma str_lt_digit (n m : nat) :
  (n mod 10 < m mod 10)%nat -> str_lt (digit n) (digit m) = true.
Proof.
  intros H. unfold digit. cbn [str_lt].
  pose proof (Nat.mod_upper_bound n 10 ltac:(lia)).
  pose proof (Nat.mod_upper_bound m 10 ltac:(lia)).
  rewrite !nat_ascii_embedding by lia.
  replace (Nat.ltb (48 + n mod 10) (48 + m mod 10)) with true; [reflexivity|].
  symmetry. apply Nat.ltb_lt. lia.
Qed.

Lemma fixed_width_lt (k n m : nat) :
  (n < m)%nat -> (m < 10 ^ k)%nat ->
  str_lt (fixed_width k n) (fixed_width k m) = true.
Proof.
  revert n m. induction k as [|k IH]; intros n m Hnm Hm.
  - simpl in Hm. lia.
  - cbn [fixed_width].
    pose proof (Nat.div_mod_eq n 10) as En. pose proof (Nat.div_mod_eq m 10) as Em.
    destruct (decide (n / 10 < m / 10)%nat) as [Hq|Hq].
    + apply str_lt_app_lt.
      * rewrite !fixed_width_length. reflexivity.
      * apply IH; [exact Hq|].
        apply Nat.Div0.div_lt_upper_bound. rewrite <- Nat.pow_succ_r'. exact Hm.
    + assert (Heq : (n / 10 = m / 10)%nat).
      { assert (n / 10 <= m / 10)%nat by (apply Nat.Div0.div_le_mono; lia). lia. }
      rewrite Heq, str_lt_app_same. apply str_lt_digit. lia.
Qed.

Lemma task_name_lt (i j : nat) :
  (i < j)%nat -> (j < 10 ^ 6)%nat -> str_lt (task_name i) (task_name j) = true.
Proof.
  intros Hij Hj. unfold task_name.
  rewrite str_lt_app_same, !fmt_06d_fixed_width by lia.
  apply fixed_width_lt; assumption.
Qed.

(** X22: below a million tasks, the directory names sort in the order of
    the task numbers; with a million and one tasks they do not: the
    name of task 1000000 sorts before the name of task 999999. *)
Theorem task_name_sorted :
  (forall i j : nat, (i < j)%nat -> (j < 10 ^ 6)%nat ->
     str_lt (task_name i) (task_name j) = true)
  /\ str_lt (task_name (10 ^ 6)) (task_name (10 ^ 6 - 1)) = true.
Proof.
  split; [apply task_name_lt|]. vm_compute. reflexivity.
Qed.

Lemma task_name_sorted_witness : str_lt (task_name 9) (task_name 10) = true.
Proof.
  apply (proj1 task_name_sorted); [lia|]. apply Nat.ltb_lt. vm_compute. reflexivity.
Defined.

End OrderFacts.

(** * The text of the LAMMPS input *)

(** ** Texts that contain a line *)

Section ContainsFacts.

Lemma prefix_app (x s b : string) :
  String.prefix x s = true -> String.prefix x (s +:+ b) = true.
Proof.
  revert s. induction x as [|c x IH]; intros s H;
    [destruct (s +:+ b); reflexivity|].
  destruct s as [|d s]; [discriminate H|].
  change (String.prefix (String c x) (String d (s +:+ b)) = true).
  cbn [String.prefix] in H |- *.
  destruct (ascii_dec c d); [|discriminate H]. apply IH, H.
Qed.

Lemma prefix_refl (x : string) : String.prefix x x = true.
Proof.
  induction x as [|c x IH]; [reflexivity|]. cbn [String.prefix].
  destruct (ascii_dec c c); [exact IH|contradiction].
Qed.

Lemma contains_eq (sub s : string) :
  contains sub s
  = String.prefix sub s
    || match s with "" => false | String _ rest => contains sub rest end.
Proof. destruct s; reflexivity. Qed.

Lemma contains_app_r (x a b : string) :
  contains x b = true -> contains x (a +:+ b) = true.
Proof.
  intros H. induction a as [|c a IH]; [exact H|].
  change (contains x (String c (a +:+ b)) = true).
  rewrite contains_eq, IH. apply orb_true_r.
Qed.

Lemma contains_app_l (x a b : string) :
  contains x a = true -> contains x (a +:+ b) = true.
Proof.
  induction a as [|c a IH]; intros H.
  - rewrite contains_eq, orb_false_r in H.
    destruct x; [|discriminate H]. destruct b; reflexivity.
  - change (contains x (String c (a +:+ b)) = true).
    rewrite contains_eq in H |- *. apply orb_true_iff in H as [H|H].
    + apply (prefix_app _ _ b) in H.
      change (String c a +:+ b) with (String c (a +:+ b)) in H.
      rewrite H. reflexivity.
    + rewrite (IH H). apply orb_true_r.
Qed.

Lemma contains_refl (x : string) : contains x x = true.
Proof. rewrite contains_eq, prefix_refl. reflexivity. Qed.

(** A piece that was appended is contained. *)
Lemma contains_snoc (x a : string) : contains x (a +:+ x) = true.
Proof. apply contains_app_r, contains_refl. Qed.

End ContainsFacts.

Ltac str_contra :=
  match goal with
  | H : ?a <> ?a |- _ => exact (H eq_refl)
  | H : _ = _ |- _ => discriminate H
  | H : _ \/ _ |- _ => destruct H as [H|H]; discriminate H
  | H : ~ (_ \/ _) |- _ => apply H; first [left; reflexivity | right; reflexivity]
  end.

(** ** What the generators accept and what they write *)

Section InputFacts.
Local Open Scope R_scope.

Variable fmt_f : R -> string.
Variable fmt_e10 : R -> string.
Variable fmt_s : R -> string.

Local Abbreviation _ff_spring' := (_ff_spring fmt_e10).
Local Abbreviation _ff_two_steps' := (_ff_two_steps fmt_e10).
Local Abbreviation _ff_soft_lj' := (_ff_soft_lj fmt_f fmt_e10).
Local Abbreviation _gen_lammps_input' := (_gen_lammps_input fmt_f fmt_e10 fmt_s).
Local Abbreviation _gen_lammps_input_ideal' :=
  (_gen_lammps_input_ideal fmt_f fmt_e10 fmt_s).

(** The columns 9 and 10 of the thermo output, by case. *)
Lemma thermo_style_columns (lamb : R) (spring_k : spring) (switch : string) :
  thermo_style lamb spring_k switch
  = line ("thermo_style    custom step ke pe etotal enthalpy temp press vol "
          +:+ (if decide (1 - lamb = 0) then "c_e_deep"
               else if is_list spring_k then "v_l_spring" else "f_l_spring")
          +:+ " "
          +:+ (if decide (1 - lamb = 0) then "c_e_deep"
               else if decide (switch = "three-step") then "c_e_diff[1]"
               else "c_e_deep")).
Proof.
  unfold thermo_style.
  destruct (decide (1 - lamb = 0)) as [E|N].
  - rewrite decide_False by tauto. reflexivity.
  - rewrite decide_True by exact N.
    destruct spring_k; cbn [is_list]; case_decide; reflexivity.
Qed.

(** X23: every input [_gen_lammps_input] returns asks for a log whose
    columns 9 and 10 are: at [lamb = 1] the pair energy twice; otherwise
    the spring energy ([f_l_spring] for one spring constant, [v_l_spring]
    for a list) and then [c_e_diff[1]] under the three-step switch, the
    pair energy under the other two. *)
Theorem gen_lammps_input_thermo_columns (conf_file : string) (mass_map : list R)
    (lamb : R) (model : string) (spring_k : spring) (nsteps : Z) (dt : R)
    (ens : string) (temp pres tau_t tau_p : R) (prt_freq : Z)
    (copies : option (list Z)) (crystal : string) (sparam : gmap string json)
    (switch step : string) (seed_langevin seed_velocity : Z) (text : string) :
  _gen_lammps_input' conf_file mass_map lamb model spring_k nsteps dt ens temp pres
    tau_t tau_p prt_freq copies crystal sparam switch step seed_langevin seed_velocity
  = Ok text ->
  contains
    (line ("thermo_style    custom step ke pe etotal enthalpy temp press vol "
           +:+ (if decide (1 - lamb = 0) then "c_e_deep"
                else if is_list spring_k then "v_l_spring" else "f_l_spring")
           +:+ " "
           +:+ (if decide (1 - lamb = 0) then "c_e_deep"
                else if decide (switch = "three-step") then "c_e_diff[1]"
                else "c_e_deep")))
    text = true.
Proof.
  rewrite <- thermo_style_columns. unfold _gen_lammps_input. intros H.
  destruct (bool_decide (crystal = "frenkel") && negb (is_list spring_k));
    [discriminate H|].
  cbv zeta in H.
  apply result_bind_Ok in H as (atoms & _ & H).
  apply result_bind_Ok in H as (ff & _ & H).
  apply result_bind_Ok in H as (ret1 & Hens & H).
  apply result_bind_Ok in H as (ret2 & Hcry & H).
  injection H as <-.
  do 3 apply contains_app_l.
  assert (H2 : contains (thermo_style lamb spring_k switch) ret1 = true
               -> contains (thermo_style lamb spring_k switch) ret2 = true).
  { intros Hc. repeat case_decide; try discriminate Hcry;
      injection Hcry as <-; repeat apply contains_app_l; exact Hc. }
  apply H2. clear H2 Hcry.
  repeat case_decide; try discriminate Hens; injection Hens as <-;
    repeat first [apply contains_snoc | apply contains_app_l].
Qed.

Lemma py_index_nat {A} (l : list A) (n : nat) :
  py_index l (Z.of_nat n) = of_option IndexError (l !! n).
Proof.
  unfold py_index. case_decide as H.
  - rewrite Nat2Z.id. reflexivity.
  - rewrite decide_False by lia.
    rewrite lookup_ge_None_2 by lia. reflexivity.
Qed.

Lemma atom_definition_Ok (conf_file : string) (mass_map : list R)
    (copies : option (list Z)) :
  is_Ok (atom_definition fmt_f conf_file mass_map copies)
  <-> forall c, copies = Some c -> (3 <= length c)%nat.
Proof.
  unfold atom_definition. cbv zeta. destruct copies as [c|].
  - change 0%Z with (Z.of_nat 0). change 1%Z with (Z.of_nat 1).
    change 2%Z with (Z.of_nat 2). rewrite !py_index_nat.
    destruct c as [|c0 [|c1 [|c2 rest]]]; cbn [lookup list_lookup of_option mbind result_bind].
    + split; [intros [x Hx]; discriminate Hx|].
      intros H. specialize (H _ eq_refl). simpl in H. lia.
    + split; [intros [x Hx]; discriminate Hx|].
      intros H. specialize (H _ eq_refl). simpl in H. lia.
    + split; [intros [x Hx]; discriminate Hx|].
      intros H. specialize (H _ eq_refl). simpl in H. lia.
    + split; [|intros _; eexists; reflexivity].
      intros _ c [= <-]. simpl. lia.
  - cbn [mbind result_bind]. split; [intros _ c Hc; discriminate Hc|].
    intros _. eexists. reflexivity.
Qed.

Lemma _ff_two_steps_Ok (lamb : R) (model : string) (spring_k : spring)
    (step : string) :
  is_Ok (_ff_two_steps' lamb model spring_k step)
  <-> step = "both" \/ step = "deep_on" \/ step = "spring_off".
Proof.
  unfold _ff_two_steps. cbv zeta. split.
  - intros [x Hx].
    destruct (decide (step = "both")) as [|N1]; [auto|].
    destruct (decide (step = "deep_on")) as [|N2]; [auto|].
    destruct (decide (step = "spring_off")) as [|N3]; [auto|].
    exfalso. rewrite (decide_False (P := step = "both" \/ step = "spring_off")) in Hx
      by (intros [?|?]; contradiction).
    discriminate Hx.
  - intros [H|[H|H]]; subst step.
    + rewrite (decide_True (P := "both" = "both" \/ "both" = "spring_off"))
        by (left; reflexivity).
      cbn [mbind result_bind].
      rewrite (decide_True (P := "both" = "both" \/ "both" = "deep_on"))
        by (left; reflexivity).
      eexists. reflexivity.
    + rewrite (decide_False (P := "deep_on" = "both" \/ "deep_on" = "spring_off"))
        by (intros [?|?]; discriminate).
      rewrite (decide_True (P := "deep_on" = "deep_on")) by reflexivity.
      cbn [mbind result_bind].
      rewrite (decide_True (P := "deep_on" = "both" \/ "deep_on" = "deep_on"))
        by (right; reflexivity).
      eexists. reflexivity.
    + rewrite (decide_True (P := "spring_off" = "both" \/ "spring_off" = "spring_off"))
        by (right; reflexivity).
      cbn [mbind result_bind].
      rewrite (decide_False (P := "spring_off" = "both" \/ "spring_off" = "deep_on"))
        by (intros [?|?]; discriminate).
      rewrite (decide_True (P := "spring_off" = "spring_off")) by reflexivity.
      eexists. reflexivity.
Qed.

Lemma is_Ok_bind {A B} (m : result A) (f : A -> result B) :
  is_Ok (m ≫= f) <-> exists a, m = Ok a /\ is_Ok (f a).
Proof.
  destruct m as [a|e]; cbn [mbind result_bind].
  - split; [intros H; eauto|intros (a' & [= <-] & H); exact H].
  - split; [intros [x Hx]; discriminate Hx|intros (a' & E & _); discriminate E].
Qed.

Lemma is_Ok_Ok {A} (a : A) : is_Ok (Ok a).
Proof. eexists. reflexivity. Qed.

Lemma not_is_Ok_Raise {A} (e : exn) : ~ is_Ok (Raise e : result A).
Proof. intros [x Hx]. discriminate Hx. Qed.

(** When [_gen_lammps_input] returns: the force field is built, the
    ensemble and the crystal are known, the assertion holds and the
    copies can be read. *)
Lemma gen_lammps_input_Ok (conf_file : string) (mass_map : list R)
    (lamb : R) (model : string) (spring_k : spring) (nsteps : Z) (dt : R)
    (ens : string) (temp pres tau_t tau_p : R) (prt_freq : Z)
    (copies : option (list Z)) (crystal : string) (sparam : gmap string json)
    (switch step : string) (seed_langevin seed_velocity : Z) :
  is_Ok (_gen_lammps_input' conf_file mass_map lamb model spring_k nsteps dt ens
           temp pres tau_t tau_p prt_freq copies crystal sparam switch step
           seed_langevin seed_velocity)
  <-> is_Ok (if decide (switch = "one-step" \/ switch = "two-step") then
               _ff_two_steps' lamb model spring_k step
             else if decide (switch = "three-step") then
               _ff_soft_lj' lamb model spring_k step sparam
             else Raise (RuntimeError "unknow switch"))
      /\ (ens = "nvt" \/ ens = "nvt-langevin" \/ ens = "npt-iso" \/ ens = "npt"
          \/ ens = "nve")
      /\ (crystal = "vega" \/ (crystal = "frenkel" /\ is_list spring_k = true))
      /\ (forall c, copies = Some c -> (3 <= length c)%nat).
Proof.
  unfold _gen_lammps_input.
  destruct (bool_decide (crystal = "frenkel") && negb (is_list spring_k)) eqn:Hb.
  { apply andb_true_iff in Hb as [Hc Hl]. apply bool_decide_eq_true in Hc.
    apply negb_true_iff in Hl. split; [intros H; apply not_is_Ok_Raise in H; contradiction|].
    intros (_ & _ & [Hv|[_ Hl']] & _); congruence. }
  cbv zeta. rewrite is_Ok_bind.
  split.
  - intros (atoms & Hatoms & H).
    apply is_Ok_bind in H as (ff & Hff & H).
    apply is_Ok_bind in H as (ret1 & Hens & H).
    apply is_Ok_bind in H as (ret2 & Hcry & _).
    split; [eexists; exact Hff|].
    split.
    { destruct (decide (ens = "nvt")) as [|N1]; [auto|].
      destruct (decide (ens = "nvt-langevin")) as [|N2]; [auto|].
      destruct (decide (ens = "npt-iso" \/ ens = "npt")) as [[?|?]|N3]; [auto 6..|].
      destruct (decide (ens = "nve")) as [|N4]; [auto 6|].
      discriminate Hens. }
    split.
    { destruct (decide (crystal = "frenkel")) as [Hf|N1].
      - right. split; [exact Hf|].
        apply andb_false_iff in Hb as [Hb|Hb].
        + apply bool_decide_eq_false in Hb. contradiction.
        + apply negb_false_iff in Hb. exact Hb.
      - destruct (decide (crystal = "vega")) as [|N2]; [auto|].
        discriminate Hcry. }
    apply (proj1 (atom_definition_Ok conf_file mass_map copies)). eexists. exact Hatoms.
  - intros ([ff Hff] & Hens & Hcry & Hcop).
    apply (proj2 (atom_definition_Ok conf_file mass_map copies)) in Hcop
      as [atoms Hatoms].
    exists atoms. split; [exact Hatoms|]. rewrite Hff. cbn [mbind result_bind].
    destruct Hcry as [Hc|[Hc _]]; subst crystal;
      destruct Hens as [H|[H|[H|[H|H]]]]; subst ens;
      repeat (case_decide; try (exfalso; str_contra));
      cbn [mbind result_bind]; apply is_Ok_Ok.
Qed.

(** X24: under the one-step and the two-step switch [_gen_lammps_input]
    returns a text exactly when the step is [both], [deep_on] or
    [spring_off], the ensemble is one of the five it knows, the crystal
    is [vega], or [frenkel] with a list of spring constants, and
    [copies], when given, has at least three entries. *)
Theorem gen_lammps_input_accepts (conf_file : string) (mass_map : list R)
    (lamb : R) (model : string) (spring_k : spring) (nsteps : Z) (dt : R)
    (ens : string) (temp pres tau_t tau_p : R) (prt_freq : Z)
    (copies : option (list Z)) (crystal : string) (sparam : gmap string json)
    (switch step : string) (seed_langevin seed_velocity : Z) :
  switch = "one-step" \/ switch = "two-step" ->
  is_Ok (_gen_lammps_input' conf_file mass_map lamb model spring_k nsteps dt ens
           temp pres tau_t tau_p prt_freq copies crystal sparam switch step
           seed_langevin seed_velocity)
  <-> (step = "both" \/ step = "deep_on" \/ step = "spring_off")
      /\ (ens = "nvt" \/ ens = "nvt-langevin" \/ ens = "npt-iso" \/ ens = "npt"
          \/ ens = "nve")
      /\ (crystal = "vega" \/ (crystal = "frenkel" /\ is_list spring_k = true))
      /\ (forall c, copies = Some c -> (3 <= length c)%nat).
Proof.
  intros Hsw. rewrite gen_lammps_input_Ok.
  rewrite (decide_True (P := switch = "one-step" \/ switch = "two-step")) by exact Hsw.
  rewrite _ff_two_steps_Ok. reflexivity.
Qed.

Lemma getitem_Ok (m : gmap string json) (key : string) (j : json) :
  getitem m key = Ok j <-> m !! key = Some j.
Proof.
  unfold getitem. destruct (m !! key) as [x|]; cbn [of_option].
  - split; intros [= <-]; reflexivity.
  - split; intros H; discriminate H.
Qed.

Lemma fmt_f_of_Ok (j : json) : is_Ok (fmt_f_of fmt_f j) <-> is_Ok (as_float j).
Proof.
  unfold fmt_f_of. destruct (as_float j) as [x|e]; cbn [mbind result_bind].
  - split; intros _; apply is_Ok_Ok.
  - split; intros H; apply not_is_Ok_Raise in H; contradiction.
Qed.

Lemma fmt_f_of_Ok_inv (j : json) (s : string) :
  fmt_f_of fmt_f j = Ok s -> is_Ok (as_float j).
Proof. intros H. apply fmt_f_of_Ok. eexists. exact H. Qed.

Lemma pair_coeff_Ok_inv (head : string) (sigma activation : json) (c : string) :
  pair_coeff fmt_f head sigma activation = Ok c ->
  is_Ok (as_float sigma) /\ is_Ok (as_float activation).
Proof.
  unfold pair_coeff. intros H.
  apply result_bind_Ok in H as (s & Hs & H).
  apply result_bind_Ok in H as (a & Ha & _).
  split; eapply fmt_f_of_Ok_inv; eassumption.
Qed.

(** The keys of the soft-core parameters. *)
Local Abbreviation soft_keys :=
  ["n"; "alpha_lj"; "rcut"; "epsilon"; "sigma_oo"; "sigma_oh"; "sigma_hh";
   "activation"].

(** All soft-core parameters are there and are numbers. *)
Local Abbreviation soft_given sparam :=
  (forall key : string, key ∈ soft_keys ->
     exists j, sparam !! key = Some j /\ is_Ok (as_float j)).

(** The same, on the values read. *)
Local Abbreviation soft_read sparam :=
  (exists nn alpha_lj rcut epsilon sigma_oo sigma_oh sigma_hh activation,
     soft_params sparam
     = Ok (nn, alpha_lj, rcut, epsilon, sigma_oo, sigma_oh, sigma_hh, activation)
     /\ is_Ok (as_float nn) /\ is_Ok (as_float alpha_lj) /\ is_Ok (as_float rcut)
     /\ is_Ok (as_float epsilon) /\ is_Ok (as_float sigma_oo)
     /\ is_Ok (as_float sigma_oh) /\ is_Ok (as_float sigma_hh)
     /\ is_Ok (as_float activation)).

Lemma soft_given_read (sparam : gmap string json) :
  soft_given sparam <-> soft_read sparam.
Proof.
  split.
  - intros H.
    destruct (H "n") as (nn & E1 & F1); [repeat constructor|].
    destruct (H "alpha_lj") as (al & E2 & F2); [repeat constructor|].
    destruct (H "rcut") as (rc & E3 & F3); [repeat constructor|].
    destruct (H "epsilon") as (ep & E4 & F4); [repeat constructor|].
    destruct (H "sigma_oo") as (soo & E5 & F5); [repeat constructor|].
    destruct (H "sigma_oh") as (soh & E6 & F6); [repeat constructor|].
    destruct (H "sigma_hh") as (shh & E7 & F7); [repeat constructor|].
    destruct (H "activation") as (act & E8 & F8); [repeat constructor|].
    exists nn, al, rc, ep, soo, soh, shh, act.
    split; [|repeat split; assumption].
    unfold soft_params, getitem. rewrite E1, E2, E3, E4, E5, E6, E7, E8.
    reflexivity.
  - intros (nn & al & rc & ep & soo & soh & shh & act & Hp
            & F1 & F2 & F3 & F4 & F5 & F6 & F7 & F8).
    unfold soft_params in Hp.
    apply result_bind_Ok in Hp as (x1 & E1 & Hp).
    apply result_bind_Ok in Hp as (x2 & E2 & Hp).
    apply result_bind_Ok in Hp as (x3 & E3 & Hp).
    apply result_bind_Ok in Hp as (x4 & E4 & Hp).
    apply result_bind_Ok in Hp as (x5 & E5 & Hp).
    apply result_bind_Ok in Hp as (x6 & E6 & Hp).
    apply result_bind_Ok in Hp as (x7 & E7 & Hp).
    apply result_bind_Ok in Hp as (x8 & E8 & Hp).
    injection Hp as -> -> -> -> -> -> -> ->.
    apply getitem_Ok in E1, E2, E3, E4, E5, E6, E7, E8.
    intros key Hin.
    repeat (apply elem_of_cons in Hin as [Hin|Hin];
            [subst key; eexists; split; [eassumption|assumption]|]).
    apply elem_of_nil in Hin. contradiction.
Qed.

Ltac soft_forward Hx :=
  let p := fresh "p" in
  let Hp := fresh "Hp" in
  apply result_bind_Ok in Hx as (p & Hp & Hx);
  destruct p as [[[[[[[nn al] rc] ep] soo] soh] shh] act];
  repeat (let s := fresh "s" in let E := fresh "E" in
          apply result_bind_Ok in Hx as (s & E & Hx);
          first [apply fmt_f_of_Ok_inv in E
                | apply pair_coeff_Ok_inv in E as [? ?]]);
  exists nn, al, rc, ep, soo, soh, shh, act;
  split; [exact Hp|repeat split; assumption].

Ltac soft_backward Hp F1 F2 F3 F4 F5 F6 F7 F8 :=
  destruct F1 as [? F1], F2 as [? F2], F3 as [? F3], F4 as [? F4],
           F5 as [? F5], F6 as [? F6], F7 as [? F7], F8 as [? F8];
  rewrite Hp; cbn [mbind result_bind]; cbv beta iota;
  unfold pair_coeff, fmt_f_of;
  rewrite F1, F2, F3, F4, F5, F6, F7, F8; cbn [mbind result_bind];
  apply is_Ok_Ok.

Lemma _ff_lj_on_Ok (lamb : R) (model : string) (sparam : gmap string json) :
  is_Ok (_ff_lj_on fmt_f lamb model sparam) <-> soft_read sparam.
Proof.
  unfold _ff_lj_on. split.
  - intros [x Hx]. soft_forward Hx.
  - intros (nn & al & rc & ep & soo & soh & shh & act & Hp
            & F1 & F2 & F3 & F4 & F5 & F6 & F7 & F8).
    soft_backward Hp F1 F2 F3 F4 F5 F6 F7 F8.
Qed.

Lemma _ff_deep_on_Ok (lamb : R) (model : string) (sparam : gmap string json) :
  is_Ok (_ff_deep_on fmt_f lamb model sparam) <-> soft_read sparam.
Proof.
  unfold _ff_deep_on. split.
  - intros [x Hx]. soft_forward Hx.
  - intros (nn & al & rc & ep & soo & soh & shh & act & Hp
            & F1 & F2 & F3 & F4 & F5 & F6 & F7 & F8).
    soft_backward Hp F1 F2 F3 F4 F5 F6 F7 F8.
Qed.

Lemma _ff_lj_off_Ok (lamb : R) (model : string) (sparam : gmap string json) :
  is_Ok (_ff_lj_off fmt_f lamb model sparam) <-> soft_read sparam.
Proof.
  unfold _ff_lj_off. split.
  - intros [x Hx]. soft_forward Hx.
  - intros (nn & al & rc & ep & soo & soh & shh & act & Hp
            & F1 & F2 & F3 & F4 & F5 & F6 & F7 & F8).
    soft_backward Hp F1 F2 F3 F4 F5 F6 F7 F8.
Qed.

Lemma _ff_soft_lj_Ok (lamb : R) (model : string) (spring_k : spring)
    (step : string) (sparam : gmap string json) :
  is_Ok (_ff_soft_lj' lamb model spring_k step sparam)
  <-> (step = "lj_on" \/ step = "deep_on" \/ step = "spring_off")
      /\ soft_given sparam.
Proof.
  rewrite soft_given_read. unfold _ff_soft_lj. cbv zeta. rewrite is_Ok_bind.
  split.
  - intros ([ret vs] & H & _).
    destruct (decide (step = "lj_on")) as [E1|N1].
    { split; [auto|]. apply result_bind_Ok in H as (ff & Hff & _).
      apply (_ff_lj_on_Ok lamb model sparam). eexists. exact Hff. }
    destruct (decide (step = "deep_on")) as [E2|N2].
    { split; [auto|]. apply result_bind_Ok in H as (ff & Hff & _).
      apply (_ff_deep_on_Ok lamb model sparam). eexists. exact Hff. }
    destruct (decide (step = "spring_off")) as [E3|N3]; [|discriminate H].
    split; [auto|]. apply result_bind_Ok in H as (ff & Hff & _).
    apply (_ff_lj_off_Ok lamb model sparam). eexists. exact Hff.
  - intros [Hstep Hs].
    destruct (proj2 (_ff_lj_on_Ok lamb model sparam) Hs) as [f1 H1].
    destruct (proj2 (_ff_deep_on_Ok lamb model sparam) Hs) as [f2 H2].
    destruct (proj2 (_ff_lj_off_Ok lamb model sparam) Hs) as [f3 H3].
    rewrite H1, H2, H3. cbn [mbind result_bind].
    destruct Hstep as [H|[H|H]]; subst step;
      repeat (case_decide; try (exfalso; str_contra));
      (eexists; split; [reflexivity|apply is_Ok_Ok]).
Qed.

(** X25: under the three-step switch [_gen_lammps_input] returns a text
    exactly when the step is [lj_on], [deep_on] or [spring_off], each of
    the eight soft-core parameters is given and is a number, and the
    ensemble, the crystal and the copies are as under the other two
    switches. *)
Theorem gen_lammps_input_three_step_accepts (conf_file : string)
    (mass_map : list R) (lamb : R) (model : string) (spring_k : spring)
    (nsteps : Z) (dt : R) (ens : string) (temp pres tau_t tau_p : R)
    (prt_freq : Z) (copies : option (list Z)) (crystal : string)
    (sparam : gmap string json) (step : string)
    (seed_langevin seed_velocity : Z) :
  is_Ok (_gen_lammps_input' conf_file mass_map lamb model spring_k nsteps dt ens
           temp pres tau_t tau_p prt_freq copies crystal sparam "three-step" step
           seed_langevin seed_velocity)
  <-> ((step = "lj_on" \/ step = "deep_on" \/ step = "spring_off")
       /\ forall key : string,
            key ∈ ["n"; "alpha_lj"; "rcut"; "epsilon"; "sigma_oo"; "sigma_oh";
                   "sigma_hh"; "activation"] ->
            exists j, sparam !! key = Some j /\ is_Ok (as_float j))
      /\ (ens = "nvt" \/ ens = "nvt-langevin" \/ ens = "npt-iso" \/ ens = "npt"
          \/ ens = "nve")
      /\ (crystal = "vega" \/ (crystal = "frenkel" /\ is_list spring_k = true))
      /\ (forall c, copies = Some c -> (3 <= length c)%nat).
Proof.
  rewrite gen_lammps_input_Ok.
  rewrite (decide_False (P := "three-step" = "one-step" \/ "three-step" = "two-step"))
    by (intros [H|H]; discriminate H).
  rewrite (decide_True (P := "three-step" = "three-step")) by reflexivity.
  rewrite _ff_soft_lj_Ok. reflexivity.
Qed.

Lemma contains_foldl_keep {A} (x : string) (f : string -> A -> string)
    (g : A -> string) (l : list A) (ret : string) :
  (forall ret a, f ret a = ret +:+ g a) ->
  contains x ret = true -> contains x (foldl f ret l) = true.
Proof.
  intros Hf. revert ret. induction l as [|a l IH]; intros ret H; [exact H|].
  cbn [foldl]. apply IH. rewrite Hf. apply contains_app_l, H.
Qed.

Lemma contains_foldl_elem {A} (x : string) (f : string -> A -> string)
    (g : A -> string) (l : list A) (ret : string) (a : A) :
  (forall ret a, f ret a = ret +:+ g a) ->
  a ∈ l -> contains x (g a) = true -> contains x (foldl f ret l) = true.
Proof.
  intros Hf Ha Hx. revert ret. induction l as [|b l IH]; intros ret.
  - apply elem_of_nil in Ha. contradiction.
  - cbn [foldl]. apply elem_of_cons in Ha as [E|Ha].
    + subst b. apply (contains_foldl_keep x f g); [exact Hf|].
      rewrite Hf. apply contains_app_r, Hx.
    + apply IH, Ha.
Qed.

(** The line of [_ff_spring] that sets the spring constant [c] of the
    atoms of type [ii + 1], and the constant given for that type. *)
Local Abbreviation spring_line spring_k ii c :=
  (match spring_k with
   | SpringAll _ => line ("fix             l_spring all spring/self " +:+ fmt_e10 c)
   | SpringByType _ =>
       line ("fix             l_spring_" +:+ str_nat (ii + 1) +:+ " type_"
             +:+ str_nat (ii + 1) +:+ " spring/self " +:+ fmt_e10 c)
   end).
Local Abbreviation spring_of spring_k ii :=
  (match spring_k with
   | SpringAll k => Some k
   | SpringByType ks => ks !! ii
   end).

Lemma _ff_spring_line (lamb : R) (spring_k : spring) (var_spring : bool)
    (ii : nat) (k : R) :
  spring_of spring_k ii = Some k ->
  contains (spring_line spring_k ii (spring_const lamb k var_spring))
           (_ff_spring' lamb spring_k var_spring) = true.
Proof.
  destruct spring_k as [k0|ks]; cbv beta iota; intros Hk.
  - injection Hk as ->. unfold _ff_spring. cbv zeta.
    apply contains_app_l, contains_snoc.
  - unfold _ff_spring. cbv zeta. apply contains_app_l.
    apply (contains_foldl_elem _ _
             (fun ii =>
                line ("fix             l_spring_" +:+ str_nat (ii + 1) +:+ " type_"
                      +:+ str_nat (ii + 1) +:+ " spring/self "
                      +:+ fmt_e10 (spring_const lamb (default 0 (ks !! ii)) var_spring))
                +:+ line ("fix_modify      l_spring_" +:+ str_nat (ii + 1)
                          +:+ " energy yes")) _ _ ii).
    + intros ret a. cbv zeta. apply string_app_assoc.
    + apply elem_of_seq. apply lookup_lt_Some in Hk. lia.
    + cbv beta. rewrite Hk. cbn [default]. apply contains_app_l, contains_refl.
Qed.

Lemma _ff_two_steps_spring (lamb : R) (model : string) (spring_k : spring)
    (step ff x : string) :
  _ff_two_steps' lamb model spring_k step = Ok ff ->
  contains x (_ff_spring' lamb spring_k
                (bool_decide (step = "both" \/ step = "spring_off"))) = true ->
  contains x ff = true.
Proof.
  unfold _ff_two_steps. cbv zeta. intros H Hx.
  apply result_bind_Ok in H as (var_spring & Hs & H).
  apply result_bind_Ok in H as (var_deep & Hd & H).
  injection H as <-.
  assert (E : var_spring = bool_decide (step = "both" \/ step = "spring_off")).
  { destruct (decide (step = "both" \/ step = "spring_off")) as [Y|N].
    - rewrite bool_decide_eq_true_2 by exact Y. congruence.
    - rewrite bool_decide_eq_false_2 by exact N.
      destruct (decide (step = "deep_on")); [congruence|discriminate Hs]. }
  rewrite <- E in Hx. apply contains_app_l.
  destruct var_deep; [apply contains_app_l|]; apply contains_app_r, Hx.
Qed.

Lemma _ff_soft_lj_spring (lamb : R) (model : string) (spring_k : spring)
    (step : string) (sparam : gmap string json) (ff x : string) :
  _ff_soft_lj' lamb model spring_k step sparam = Ok ff ->
  contains x (_ff_spring' lamb spring_k
                (bool_decide (step = "both" \/ step = "spring_off"))) = true ->
  contains x ff = true.
Proof.
  unfold _ff_soft_lj. cbv zeta. intros H Hx.
  apply result_bind_Ok in H as ([ret var_spring] & Hs & H).
  injection H as <-.
  assert (E : var_spring = bool_decide (step = "both" \/ step = "spring_off")).
  { destruct (decide (step = "lj_on")) as [E1|N1].
    - apply result_bind_Ok in Hs as (? & _ & [= _ <-]).
      rewrite bool_decide_eq_false_2; [reflexivity|].
      subst step. intros [?|?]; discriminate.
    - destruct (decide (step = "deep_on")) as [E2|N2].
      + apply result_bind_Ok in Hs as (? & _ & [= _ <-]).
        rewrite bool_decide_eq_false_2; [reflexivity|].
        subst step. intros [?|?]; discriminate.
      + destruct (decide (step = "spring_off")) as [E3|N3]; [|discriminate Hs].
        apply result_bind_Ok in Hs as (? & _ & [= _ <-]).
        rewrite bool_decide_eq_true_2; [reflexivity|]. right. exact E3. }
  rewrite <- E in Hx. apply contains_app_r, Hx.
Qed.

(** The text of the force field is part of the input. *)
Lemma gen_lammps_input_ff (conf_file : string) (mass_map : list R)
    (lamb : R) (model : string) (spring_k : spring) (nsteps : Z) (dt : R)
    (ens : string) (temp pres tau_t tau_p : R) (prt_freq : Z)
    (copies : option (list Z)) (crystal : string) (sparam : gmap string json)
    (switch step : string) (seed_langevin seed_velocity : Z) (text : string) :
  _gen_lammps_input' conf_file mass_map lamb model spring_k nsteps dt ens temp pres
    tau_t tau_p prt_freq copies crystal sparam switch step seed_langevin seed_velocity
  = Ok text ->
  exists ff,
    (if decide (switch = "one-step" \/ switch = "two-step") then
       _ff_two_steps' lamb model spring_k step
     else if decide (switch = "three-step") then
       _ff_soft_lj' lamb model spring_k step sparam
     else Raise (RuntimeError "unknow switch")) = Ok ff
    /\ forall x, contains x ff = true -> contains x text = true.
Proof.
  unfold _gen_lammps_input. intros H.
  destruct (bool_decide (crystal = "frenkel") && negb (is_list spring_k));
    [discriminate H|].
  cbv zeta in H.
  apply result_bind_Ok in H as (atoms & _ & H).
  apply result_bind_Ok in H as (ff & Hff & H).
  apply result_bind_Ok in H as (ret1 & Hens & H).
  apply result_bind_Ok in H as (ret2 & Hcry & H).
  injection H as <-.
  exists ff. split; [exact Hff|]. intros x Hx.
  do 3 apply contains_app_l.
  assert (H2 : contains x ret1 = true -> contains x ret2 = true).
  { intros Hc. repeat case_decide; try discriminate Hcry;
      injection Hcry as <-; repeat apply contains_app_l; exact Hc. }
  apply H2. clear H2 Hcry.
  repeat case_decide; try discriminate Hens; injection Hens as <-;
    repeat first [apply contains_app_r; exact Hx | apply contains_app_l].
Qed.

(** X26: every input [_gen_lammps_input] returns sets the spring of
    each atom type (of all atoms, for one constant) to the constant
    given, times [1 - lamb] at the steps [both] and [spring_off], and
    unscaled at the steps [deep_on] and [lj_on]. *)
Theorem gen_lammps_input_spring_const (conf_file : string) (mass_map : list R)
    (lamb : R) (model : string) (spring_k : spring) (nsteps : Z) (dt : R)
    (ens : string) (temp pres tau_t tau_p : R) (prt_freq : Z)
    (copies : option (list Z)) (crystal : string) (sparam : gmap string json)
    (switch step : string) (seed_langevin seed_velocity : Z) (text : string)
    (ii : nat) (k : R) :
  _gen_lammps_input' conf_file mass_map lamb model spring_k nsteps dt ens temp pres
    tau_t tau_p prt_freq copies crystal sparam switch step seed_langevin seed_velocity
  = Ok text ->
  match spring_k with
  | SpringAll k0 => k0 = k
  | SpringByType ks => ks !! ii = Some k
  end ->
  contains
    (match spring_k with
     | SpringAll _ =>
         line ("fix             l_spring all spring/self "
               +:+ fmt_e10 (if decide (step = "both" \/ step = "spring_off")
                            then k * (1 - lamb) else k))
     | SpringByType _ =>
         line ("fix             l_spring_" +:+ str_nat (ii + 1) +:+ " type_"
               +:+ str_nat (ii + 1) +:+ " spring/self "
               +:+ fmt_e10 (if decide (step = "both" \/ step = "spring_off")
                            then k * (1 - lamb) else k))
     end) text = true.
Proof.
  intros H Hk. apply gen_lammps_input_ff in H as (ff & Hff & Hin). apply Hin.
  assert (Hs : spring_of spring_k ii = Some k).
  { destruct spring_k; [f_equal|]; exact Hk. }
  assert (Hl : contains
                 (spring_line spring_k ii
                    (spring_const lamb k
                       (bool_decide (step = "both" \/ step = "spring_off"))))
                 ff = true).
  { destruct (decide (switch = "one-step" \/ switch = "two-step")).
    - apply (_ff_two_steps_spring _ _ _ _ _ _ Hff), _ff_spring_line, Hs.
    - destruct (decide (switch = "three-step")); [|discriminate Hff].
      apply (_ff_soft_lj_spring _ _ _ _ _ _ _ Hff), _ff_spring_line, Hs. }
  unfold spring_const in Hl.
  destruct (decide (step = "both" \/ step = "spring_off")) as [Y|N].
  - rewrite bool_decide_eq_true_2 in Hl by exact Y. destruct spring_k; exact Hl.
  - rewrite bool_decide_eq_false_2 in Hl by exact N. destruct spring_k; exact Hl.
Qed.

Lemma _ff_soft_lj_no_n (lamb : R) (model : string) (spring_k : spring)
    (step : string) (sparam : gmap string json) :
  step = "lj_on" \/ step = "deep_on" \/ step = "spring_off" ->
  sparam !! "n" = None ->
  _ff_soft_lj' lamb model spring_k step sparam = Raise (KeyError "n").
Proof.
  intros Hstep Hn.
  assert (Hp : soft_params sparam = Raise (KeyError "n")).
  { unfold soft_params, getitem. rewrite Hn. reflexivity. }
  unfold _ff_soft_lj, _ff_lj_on, _ff_deep_on, _ff_lj_off. cbv zeta. rewrite Hp.
  destruct Hstep as [H|[H|H]]; subst step;
    repeat (case_decide; try (exfalso; str_contra)); reflexivity.
Qed.

(** X27: under the three-step switch, at each of its three steps, a
    dictionary of soft-core parameters without the key [n] (the default
    [{}] is one) makes [_gen_lammps_input] raise [KeyError] for [n],
    once the assertion on the crystal and the copies have passed. *)
Theorem gen_lammps_input_three_step_no_param (conf_file : string)
    (mass_map : list R) (lamb : R) (model : string) (spring_k : spring)
    (nsteps : Z) (dt : R) (ens : string) (temp pres tau_t tau_p : R)
    (prt_freq : Z) (copies : option (list Z)) (crystal : string)
    (sparam : gmap string json) (step : string)
    (seed_langevin seed_velocity : Z) :
  step = "lj_on" \/ step = "deep_on" \/ step = "spring_off" ->
  sparam !! "n" = None ->
  (crystal = "frenkel" -> is_list spring_k = true) ->
  (forall c, copies = Some c -> (3 <= length c)%nat) ->
  _gen_lammps_input' conf_file mass_map lamb model spring_k nsteps dt ens temp pres
    tau_t tau_p prt_freq copies crystal sparam "three-step" step seed_langevin
    seed_velocity
  = Raise (KeyError "n").
Proof.
  intros Hstep Hn Hcry Hcop. unfold _gen_lammps_input.
  assert (Hb : bool_decide (crystal = "frenkel") && negb (is_list spring_k) = false).
  { destruct (decide (crystal = "frenkel")) as [Y|N].
    - rewrite (Hcry Y). apply andb_false_r.
    - rewrite bool_decide_eq_false_2 by exact N. reflexivity. }
  rewrite Hb. cbv zeta.
  apply (proj2 (atom_definition_Ok conf_file mass_map copies)) in Hcop
    as [atoms Hatoms].
  rewrite Hatoms. cbn [mbind result_bind].
  rewrite decide_False by (intros [?|?]; discriminate).
  rewrite decide_True by reflexivity.
  rewrite (_ff_soft_lj_no_n lamb model spring_k step sparam Hstep Hn).
  reflexivity.
Qed.

Lemma ens_ideal_Ok (ens : string) (seed_langevin : Z) (ret : string) :
  is_Ok
    (if decide (ens = "nvt") then
       Ok (ret +:+ line "fix             1 all nvt temp ${TEMP} ${TEMP} ${TAU_T}")
     else if decide (ens = "nvt-langevin") then
       Ok ((ret +:+ line "fix             1 all nve")
           +:+ line ("fix             2 all langevin ${TEMP} ${TEMP} ${TAU_T} "
                     +:+ fmt_d seed_langevin +:+ " zero yes"))
     else if decide (ens = "npt-iso" \/ ens = "npt") then
       Ok (ret +:+ line "fix             1 all npt temp ${TEMP} ${TEMP} ${TAU_T} iso ${PRES} ${PRES} ${TAU_P}")
     else if decide (ens = "nve") then
       Ok (ret +:+ line "fix             1 all nve")
     else Raise (RuntimeError ("unknow ensemble " +:+ ens +:+ nl)) : result string)
  <-> (ens = "nvt" \/ ens = "nvt-langevin" \/ ens = "npt-iso" \/ ens = "npt"
       \/ ens = "nve").
Proof.
  split.
  - intros [x Hx].
    destruct (decide (ens = "nvt")) as [|N1]; [auto|].
    destruct (decide (ens = "nvt-langevin")) as [|N2]; [auto|].
    destruct (decide (ens = "npt-iso" \/ ens = "npt")) as [[?|?]|N3]; [auto 6..|].
    destruct (decide (ens = "nve")) as [|N4]; [auto 6|].
    discriminate Hx.
  - intros [H|[H|[H|[H|H]]]]; subst ens;
      repeat (case_decide; try (exfalso; str_contra)); apply is_Ok_Ok.
Qed.

(** X28: [_gen_lammps_input_ideal] returns a text exactly when the
    ensemble is one of the five it knows and [copies], when given, has
    at least three entries, whatever [norm_style] is. *)
Theorem gen_lammps_input_ideal_accepts (conf_file : string) (mass_map : list R)
    (lamb : R) (model : string) (nsteps : Z) (dt : R) (ens : string)
    (temp pres tau_t tau_p : R) (prt_freq : Z) (copies : option (list Z))
    (norm_style : string) (seed_langevin seed_velocity : Z) :
  is_Ok (_gen_lammps_input_ideal' conf_file mass_map lamb model nsteps dt ens temp
           pres tau_t tau_p prt_freq copies norm_style seed_langevin seed_velocity)
  <-> (ens = "nvt" \/ ens = "nvt-langevin" \/ ens = "npt-iso" \/ ens = "npt"
       \/ ens = "nve")
      /\ (forall c, copies = Some c -> (3 <= length c)%nat).
Proof.
  unfold _gen_lammps_input_ideal. cbv zeta. rewrite is_Ok_bind. split.
  - intros (atoms & Hatoms & H).
    apply is_Ok_bind in H as (ret1 & Hens & _).
    split.
    + eapply ens_ideal_Ok. eexists. exact Hens.
    + apply (proj1 (atom_definition_Ok conf_file mass_map copies)).
      eexists. exact Hatoms.
  - intros [Hens Hcop].
    apply (proj2 (atom_definition_Ok conf_file mass_map copies)) in Hcop
      as [atoms Hatoms].
    exists atoms. split; [exact Hatoms|]. apply is_Ok_bind.
    eapply ens_ideal_Ok in Hens as [ret1 Hens].
    exists ret1. split; [exact Hens|]. apply is_Ok_Ok.
Qed.

End InputFacts.

Section InputExamples.
Local Open Scope R_scope.

Local Abbreviation sample_input := (_gen_lammps_input Sample.fmt_f Sample.fmt_e10 Sample.fmt_s).

Lemma gen_lammps_input_thermo_columns_witness :
  exists text,
    sample_input "conf.lmp" [1; 16] (1 / 2) "graph.pb" (SpringByType [2; 3])
      1000 2 "nvt" 300 1 (1 / 10) (1 / 2) 100 (Some [1; 1; 2]%Z) "vega" ∅
      "two-step" "spring_off" 7 11 = Ok text
    /\ contains
         (line "thermo_style    custom step ke pe etotal enthalpy temp press vol v_l_spring c_e_deep")
         text = true.
Proof.
  eexists. split; [reflexivity|].
  match goal with
  | |- contains _ ?t = true =>
      pose proof (gen_lammps_input_thermo_columns Sample.fmt_f Sample.fmt_e10
                    Sample.fmt_s "conf.lmp" [1; 16] (1 / 2) "graph.pb"
                    (SpringByType [2; 3]) 1000 2 "nvt" 300 1 (1 / 10) (1 / 2) 100
                    (Some [1; 1; 2]%Z) "vega" ∅ "two-step" "spring_off" 7 11 t
                    eq_refl) as W
  end.
  rewrite !(decide_False (P := 1 - 1 / 2 = 0)) in W by lra.
  exact W.
Defined.

Lemma gen_lammps_input_accepts_witness :
  is_Ok (sample_input "conf.lmp" [1; 16] (1 / 2) "graph.pb" (SpringByType [2; 3])
           1000 2 "nvt-langevin" 300 1 (1 / 10) (1 / 2) 100 (Some [1; 1; 2]%Z)
           "frenkel" ∅ "one-step" "both" 7 11).
Proof.
  apply (proj2 (gen_lammps_input_accepts Sample.fmt_f Sample.fmt_e10 Sample.fmt_s
                  "conf.lmp" [1; 16] (1 / 2) "graph.pb" (SpringByType [2; 3])
                  1000 2 "nvt-langevin" 300 1 (1 / 10) (1 / 2) 100
                  (Some [1; 1; 2]%Z) "frenkel" ∅ "one-step" "both" 7 11
                  (or_introl eq_refl))).
  split; [left; reflexivity|].
  split; [right; left; reflexivity|].
  split; [right; split; reflexivity|].
  intros c [= <-]. simpl. lia.
Defined.

Lemma gen_lammps_input_spring_const_witness :
  exists text,
    sample_input "conf.lmp" [1; 16] (1 / 2) "graph.pb" (SpringByType [2; 3])
      1000 2 "nvt" 300 1 (1 / 10) (1 / 2) 100 (Some [1; 1; 2]%Z) "vega" ∅
      "two-step" "spring_off" 7 11 = Ok text
    /\ contains
         (line ("fix             l_spring_2 type_2 spring/self "
                +:+ Sample.fmt_e10 (3 * (1 - 1 / 2))))
         text = true.
Proof.
  eexists. split; [reflexivity|].
  match goal with
  | |- contains _ ?t = true =>
      pose proof (gen_lammps_input_spring_const Sample.fmt_f Sample.fmt_e10
                    Sample.fmt_s "conf.lmp" [1; 16] (1 / 2) "graph.pb"
                    (SpringByType [2; 3]) 1000 2 "nvt" 300 1 (1 / 10) (1 / 2) 100
                    (Some [1; 1; 2]%Z) "vega" ∅ "two-step" "spring_off" 7 11 t
                    1%nat 3 eq_refl eq_refl) as W
  end.
  exact W.
Defined.

Lemma gen_lammps_input_three_step_no_param_witness :
  sample_input "conf.lmp" [1; 16] (1 / 2) "graph.pb" (SpringAll 2)
    1000 2 "nvt" 300 1 (1 / 10) (1 / 2) 100 None "vega" ∅
    "three-step" "lj_on" 7 11 = Raise (KeyError "n").
Proof.
  apply (gen_lammps_input_three_step_no_param Sample.fmt_f Sample.fmt_e10
           Sample.fmt_s).
  - left. reflexivity.
  - apply lookup_empty.
  - intros H. discriminate H.
  - intros c H. discriminate H.
Defined.

End InputExamples.
